(** * dbt source utilities: staging-model generator and source-to-ref rewriter

    A shallow embedding of [dbt_generate_source_models.py] and
    [replace_source_func_with_ref.py].

    Text is a [string]: a sequence of code points below 256.  The file
    system, the [dbt] child process and the logger are the environment:
    directory trees, file stores and the command's standard output are
    inputs, and writes, directory creations and log lines are recorded in
    an event trace.  Whether the operating system creates a directory or
    opens a file for the generator is the environment's answer as well;
    a refusal raises [OSError]. *)

From Stdlib Require Import String Ascii List Bool Arith ZArith Lia DecimalString.
Import ListNotations.
Open Scope string_scope.
Set Warnings "-register-all".

(** ** Python [str] operations used by the scripts *)

Module Py.

(** [str.isspace] on one character, which is also the class [\s] of [re]
    for [str] patterns. *)
Definition isspace (c : ascii) : bool :=
  let n := nat_of_ascii c in
  (Nat.leb 9 n && Nat.leb n 13) || (Nat.leb 28 n && Nat.leb n 32)
  || Nat.eqb n 133 || Nat.eqb n 160.

Fixpoint drop (n : nat) (s : string) : string :=
  match n, s with
  | O, _ => s
  | S _, EmptyString => EmptyString
  | S k, String _ t => drop k t
  end.

Fixpoint take (n : nat) (s : string) : string :=
  match n, s with
  | O, _ => EmptyString
  | S _, EmptyString => EmptyString
  | S k, String c t => String c (take k t)
  end.

(** [s.startswith(p)], returning the rest of [s] behind [p]. *)
Fixpoint strip_prefix (p s : string) : option string :=
  match p, s with
  | EmptyString, _ => Some s
  | String _ _, EmptyString => None
  | String a p', String b s' =>
      if Ascii.eqb a b then strip_prefix p' s' else None
  end.

Definition startswith (s p : string) : bool :=
  match strip_prefix p s with Some _ => true | None => false end.

Definition endswith (s p : string) : bool :=
  String.eqb (drop (String.length s - String.length p) s) p
  && Nat.leb (String.length p) (String.length s).

(** [s.find(sub)]: the lowest index at which [sub] occurs, [-1] if none. *)
Fixpoint find_from (sub s : string) (i : Z) : Z :=
  if startswith s sub then i
  else match s with
       | EmptyString => (-1)%Z
       | String _ t => find_from sub t (i + 1)%Z
       end.

Definition find (s sub : string) : Z := find_from sub s 0%Z.

(** The slice [s[i:]]: a negative index counts from the end. *)
Definition slice_from (s : string) (i : Z) : string :=
  let n := Z.of_nat (String.length s) in
  let j := if (i <? 0)%Z then Z.max 0 (i + n) else i in
  drop (Z.to_nat j) s.

Fixpoint lstrip (s : string) : string :=
  match s with
  | String c t => if isspace c then lstrip t else s
  | EmptyString => EmptyString
  end.

Fixpoint rstrip (s : string) : string :=
  match s with
  | EmptyString => EmptyString
  | String c t =>
      match rstrip t with
      | EmptyString => if isspace c then EmptyString else String c EmptyString
      | r => String c r
      end
  end.

(** [s.strip()] *)
Definition strip (s : string) : string := rstrip (lstrip s).

(** [s.replace(old, new)] for a non-empty [old]: occurrences are taken
    from left to right and do not overlap; [skip] counts the characters of
    an occurrence still to be passed over. *)
Fixpoint replace_go (old new s : string) (skip : nat) : string :=
  match s with
  | EmptyString => EmptyString
  | String c t =>
      match skip with
      | S k => replace_go old new t k
      | O => if startswith s old
             then new ++ replace_go old new t (String.length old - 1)
             else String c (replace_go old new t 0)
      end
  end.

(** With an empty [old], Python puts [new] before every character and at
    the end. *)
Fixpoint intersperse (new s : string) : string :=
  match s with
  | EmptyString => new
  | String c t => new ++ String c (intersperse new t)
  end.

Definition replace (s old new : string) : string :=
  match old with
  | EmptyString => intersperse new s
  | _ => replace_go old new s 0
  end.

(** [posixpath.join(a, b)] *)
Definition path_join (a b : string) : string :=
  if startswith b "/" then b
  else if Nat.eqb (String.length a) 0 || endswith a "/" then a ++ b
  else a ++ "/" ++ b.

(** [posixpath.dirname(p)]: [p] up to its last slash, without trailing
    slashes unless it consists of slashes only. *)
Fixpoint has_slash (s : string) : bool :=
  match s with
  | EmptyString => false
  | String c t => Ascii.eqb c "/" || has_slash t
  end.

Fixpoint upto_last_slash (p : string) : string :=
  match p with
  | EmptyString => EmptyString
  | String c t =>
      if has_slash t then String c (upto_last_slash t)
      else if Ascii.eqb c "/" then String c EmptyString
      else EmptyString
  end.

Fixpoint all_slashes (s : string) : bool :=
  match s with
  | EmptyString => true
  | String c t => Ascii.eqb c "/" && all_slashes t
  end.

Fixpoint rstrip_slash (s : string) : string :=
  match s with
  | EmptyString => EmptyString
  | String c t =>
      match rstrip_slash t with
      | EmptyString =>
          if Ascii.eqb c "/" then EmptyString else String c EmptyString
      | r => String c r
      end
  end.

Definition dirname (p : string) : string :=
  let head := upto_last_slash p in
  if negb (Nat.eqb (String.length head) 0) && negb (all_slashes head)
  then rstrip_slash head else head.

(** [str(n)] for a length. *)
Definition str_of_nat (n : nat) : string :=
  NilEmpty.string_of_uint (Nat.to_uint n).

End Py.

(** ** The fragment of [re] the two scripts use

    Literals, character classes, greedy [*], [+] and [?] on a class,
    capturing groups and concatenation.  The matcher backtracks in the
    order of [re]: a greedy operator first takes as much as it can and
    gives characters back one at a time while the rest of the pattern
    fails. *)

Module Re.

Inductive re : Type :=
| Lit (l : string)
| Chr (p : ascii -> bool)
| Star (p : ascii -> bool)
| Plus (p : ascii -> bool)
| Opt (p : ascii -> bool)
| Grp (r : re)
| Seq (r1 r2 : re).

Fixpoint cat (rs : list re) : re :=
  match rs with
  | [] => Lit EmptyString
  | r :: rs' => Seq r (cat rs')
  end.

(** A successful match: the text behind it and the groups, in order. *)
Definition result : Type := (string * list string)%type.
Definition cont : Type := string -> list string -> option result.

Fixpoint star (p : ascii -> bool) (s : string)
  (k : string -> option result) : option result :=
  match s with
  | String c t =>
      if p c then match star p t k with
                  | Some r => Some r
                  | None => k s
                  end
      else k s
  | EmptyString => k s
  end.

Fixpoint run (r : re) (s : string) (caps : list string) (k : cont)
  : option result :=
  match r with
  | Lit l => match Py.strip_prefix l s with
             | Some t => k t caps
             | None => None
             end
  | Chr p => match s with
             | String c t => if p c then k t caps else None
             | EmptyString => None
             end
  | Star p => star p s (fun t => k t caps)
  | Plus p => match s with
              | String c t => if p c then star p t (fun u => k u caps)
                              else None
              | EmptyString => None
              end
  | Opt p => match s with
             | String c t =>
                 if p c then match k t caps with
                             | Some res => Some res
                             | None => k s caps
                             end
                 else k s caps
             | EmptyString => k s caps
             end
  | Grp r' =>
      run r' s caps
        (fun t caps' =>
           k t (caps' ++ [Py.take (String.length s - String.length t) s])%list)
  | Seq r1 r2 => run r1 s caps (fun t caps' => run r2 t caps' k)
  end.

(** [pattern.match] at the start of [s]. *)
Definition match_at (r : re) (s : string) : option result :=
  run r s [] (fun t caps => Some (t, caps)).

(** One match object: [group(0)] and the captured groups. *)
Record mtch : Type := { text : string; groups : list string }.

Definition mk_match (s : string) (res : result) : mtch :=
  {| text := Py.take (String.length s - String.length (fst res)) s;
     groups := snd res |}.

(** [pattern.finditer]: the matches from left to right, each search
    resuming behind the previous match; [skip] counts the characters of
    the last match still to be passed over. *)
Fixpoint scan (r : re) (s : string) (skip : nat) : list mtch :=
  match s with
  | EmptyString =>
      match skip, match_at r s with
      | O, Some res => [mk_match s res]
      | _, _ => []
      end
  | String _ t =>
      match skip with
      | S k => scan r t k
      | O => match match_at r s with
             | Some res =>
                 mk_match s res
                   :: scan r t (String.length s - String.length (fst res) - 1)
             | None => scan r t 0
             end
      end
  end.

Definition finditer (r : re) (s : string) : list mtch := scan r s 0.

(** [pattern.search]: is there a match anywhere. *)
Fixpoint search (r : re) (s : string) : bool :=
  match match_at r s with
  | Some _ => true
  | None => match s with
            | EmptyString => false
            | String _ t => search r t
            end
  end.

(** The double quote character, and the classes of the patterns. *)
Definition DQ : ascii := Ascii false true false false false true false false.
Definition dquote (c : ascii) : bool := Ascii.eqb c DQ.
Definition squote (c : ascii) : bool := Ascii.eqb c "'".
Definition quote (c : ascii) : bool := squote c || dquote c.
Definition notquote (c : ascii) : bool := negb (quote c).

(** *** The words of a pattern

    [matches r w gs]: the pattern [r] can consume exactly the word [w],
    capturing the groups [gs].  The matcher picks one of these words by
    backtracking. *)

Fixpoint all (p : ascii -> bool) (s : string) : bool :=
  match s with
  | EmptyString => true
  | String c t => p c && all p t
  end.

(** [s] does not begin with a character of the class [p]. *)
Definition stops (p : ascii -> bool) (s : string) : bool :=
  match s with
  | EmptyString => true
  | String c _ => negb (p c)
  end.

Inductive matches : re -> string -> list string -> Prop :=
| M_Lit l : matches (Lit l) l []
| M_Chr p c : p c = true -> matches (Chr p) (String c EmptyString) []
| M_Star p w : all p w = true -> matches (Star p) w []
| M_Plus p c w :
    p c = true -> all p w = true -> matches (Plus p) (String c w) []
| M_Opt_none p : matches (Opt p) EmptyString []
| M_Opt_some p c : p c = true -> matches (Opt p) (String c EmptyString) []
| M_Grp r w gs : matches r w gs -> matches (Grp r) w (gs ++ [w])
| M_Seq r1 r2 w1 w2 g1 g2 :
    matches r1 w1 g1 -> matches r2 w2 g2 ->
    matches (Seq r1 r2) (w1 ++ w2) (g1 ++ g2).

End Re.

(** ** Directory trees and [os.walk] *)

Module Fs.

(** A directory: its sub-directories and its files with their text, both
    in the order the operating system lists them. *)
Inductive dir : Type :=
| Dir (subdirs : list (string * dir)) (files : list (string * string)).

(** One step of [os.walk]: the names of the directories on the way from
    the top, the path of the directory, and its files. *)
Record visit : Type :=
  { comps : list string; root : string; files : list (string * string) }.

(** The loop of [os.walk] over the sub-directories.  When [excl] is
    [Some n] the caller has removed [n] from the list before the walk
    descends: [dirs.remove(n)] takes out the first entry of that name. *)
Definition descend (excl : option string)
  (rec : list string -> string -> dir -> list visit)
  (cs : list string) (top : string)
  : list (string * dir) -> bool -> list visit :=
  fix go (l : list (string * dir)) (removed : bool) : list visit :=
    match l with
    | [] => []
    | (n, d') :: l' =>
        if negb removed
           && match excl with
              | Some x => String.eqb n x
              | None => false
              end
        then go l' true
        else (rec (cs ++ [n])%list (Py.path_join top n) d'
              ++ go l' removed)%list
    end.

(** [os.walk(top)], top-down. *)
Fixpoint walk (excl : option string) (cs : list string) (top : string)
  (d : dir) : list visit :=
  match d with
  | Dir subs fs =>
      {| comps := cs; root := top; files := fs |}
      :: descend excl (walk excl) cs top subs false
  end.

(** No two sub-directories of a directory share a name. *)
Inductive unique_names : dir -> Prop :=
| Unique_names subs fs :
    NoDup (map fst subs) ->
    Forall (fun e => unique_names (snd e)) subs ->
    unique_names (Dir subs fs).

(** The tree without its directories named [x], at any depth. *)
Definition prune_subs (x : string) (rec : dir -> dir)
  : list (string * dir) -> list (string * dir) :=
  fix go (l : list (string * dir)) : list (string * dir) :=
    match l with
    | [] => []
    | (n, d') :: l' =>
        if String.eqb n x then go l' else (n, rec d') :: go l'
    end.

Fixpoint prune (x : string) (d : dir) : dir :=
  match d with
  | Dir subs fs => Dir (prune_subs x (prune x) subs) fs
  end.

End Fs.

(** ** What the scripts do to their environment *)

Inductive event : Type :=
| RunCmd (command : string)
| MakeDirs (path : string)
| WriteFile (path content : string)
| LogInfo (msg : string)
| LogWarning (msg : string).

(** ** [dbt_generate_source_models.py] *)

Module Gen.
Import Re.

(** The compiled pattern of [get_sources_used_with_source_func];
    [re.escape] makes the source name a literal. *)
Definition pattern (source_name : string) : re :=
  cat [ Lit "source"; Star Py.isspace; Lit "("; Star Py.isspace;
        Chr quote; Grp (Lit source_name); Opt quote;
        Star Py.isspace; Lit ","; Star Py.isspace;
        Chr quote; Grp (Plus notquote); Opt quote;
        Star Py.isspace; Lit ")" ].

(** [pattern.findall]: with two groups, the pairs of groups. *)
Definition findall (r : re) (s : string) : list (list string) :=
  map groups (finditer r s).

(** [defaultdict(set)]: keys in insertion order, each with its set. *)
Definition index : Type := list (string * list string).

Definition set_add (x : string) (l : list string) : list string :=
  if existsb (String.eqb x) l then l else (l ++ [x])%list.

(** [used_sources[key].add(path)] *)
Fixpoint dict_add (key path : string) (d : index) : index :=
  match d with
  | [] => [(key, [path])]
  | (k, v) :: d' =>
      if String.eqb k key then (k, set_add path v) :: d'
      else (k, v) :: dict_add key path d'
  end.

Definition keys (d : index) : list string := map fst d.

Fixpoint lookup (key : string) (d : index) : list string :=
  match d with
  | [] => []
  | (k, v) :: d' => if String.eqb k key then v else lookup key d'
  end.

(** The body of [for match in matches]. *)
Definition add_matches (source_name file_path : string)
  (ms : list (list string)) (acc : index) : index :=
  fold_left
    (fun acc m =>
       match m with
       | [g1; g2] => if String.eqb g1 source_name
                     then dict_add g2 file_path acc else acc
       | _ => acc
       end) ms acc.

(** The body of [for file in files]. *)
Definition scan_file (source_name root : string) (acc : index)
  (f : string * string) : index :=
  if Py.endswith (fst f) ".sql"
  then add_matches source_name (Py.path_join root (fst f))
         (findall (pattern source_name) (snd f)) acc
  else acc.

(** The two loops over the directories and their files. *)
Definition index_of (source_name : string) (visits : list Fs.visit) : index :=
  fold_left
    (fun acc v => fold_left (scan_file source_name (Fs.root v)) (Fs.files v) acc)
    visits [].

Definition get_sources_used_with_source_func
  (tree : Fs.dir) (directory source_name : string) : index :=
  index_of source_name (Fs.walk (Some "sources") [] directory tree).

(** *** The environment and the effects *)

Inductive exn : Type :=
| KeyError (key : string)
| TypeError
| OSError (path : string)
| OutOfModel.

(** A computation: the events it performed, and its value or the
    exception that stopped it. *)
Definition M (A : Type) : Type := (list event * (A + exn))%type.

Definition ret {A} (a : A) : M A := ([], inl a).
Definition raise {A} (e : exn) : M A := ([], inr e).
Definition emit (e : event) : M unit := ([e], inl tt).

Definition bind {A B} (m : M A) (f : A -> M B) : M B :=
  match m with
  | (tr, inl a) => let (tr', r) := f a in ((tr ++ tr')%list, r)
  | (tr, inr e) => (tr, inr e)
  end.

Notation "x <- m ;; k" := (bind m (fun x => k))
  (at level 61, m at next level, right associativity).
Notation "m ;;; k" := (bind m (fun _ => k))
  (at level 61, right associativity).

Fixpoint for_each {A} (l : list A) (body : A -> M unit) : M unit :=
  match l with
  | [] => ret tt
  | a :: l' => body a ;;; for_each l' body
  end.

Definition trace {A} (m : M A) : list event := fst m.

(** [if sql_query:] *)
Definition truthy (o : option string) : bool :=
  match o with
  | Some s => negb (Nat.eqb (String.length s) 0)
  | None => false
  end.

(** *** Documents loaded by [yaml.safe_load]

    Scalars other than strings and null do not occur in the documents the
    script reads. *)
Inductive yaml : Type :=
| YNull
| YStr (s : string)
| YSeq (items : list yaml)
| YMap (entries : list (string * yaml)).

Fixpoint assoc (key : string) (kv : list (string * yaml)) : option yaml :=
  match kv with
  | [] => None
  | (k, v) :: kv' => if String.eqb k key then Some v else assoc key kv'
  end.

(** [v[key]] with a string key. *)
Definition subscript (v : yaml) (key : string) : M yaml :=
  match v with
  | YMap kv => match assoc key kv with
               | Some x => ret x
               | None => raise (KeyError key)
               end
  | _ => raise TypeError
  end.

Fixpoint chars (s : string) : list yaml :=
  match s with
  | EmptyString => []
  | String c t => YStr (String c EmptyString) :: chars t
  end.

(** [for x in v]: a mapping yields its keys, a string its characters. *)
Definition iter (v : yaml) : M (list yaml) :=
  match v with
  | YSeq l => ret l
  | YMap kv => ret (map (fun e => YStr (fst e)) kv)
  | YStr s => ret (chars s)
  | YNull => raise TypeError
  end.

(** [v == source_name] *)
Definition eq_str (v : yaml) (s : string) : bool :=
  match v with
  | YStr x => String.eqb x s
  | _ => false
  end.

(** [{v}] inside an f-string; the [repr] of a container is not modelled. *)
Definition format (v : yaml) : M string :=
  match v with
  | YStr s => ret s
  | YNull => ret "None"
  | _ => raise OutOfModel
  end.

(** The shell command of [build_sql_query]. *)
Definition command_of (source_name table_name : string) : string :=
  "dbt run-operation generate_base_model --args '{'source_name': '"
  ++ source_name ++ "', 'table_name': '" ++ table_name ++ "'}'".

Section Generator.

(** The standard output of the shell command, as the environment gives it. *)
Variable dbt : string -> string.

(** The answers of the operating system: whether it creates the
    directory of a path, and whether it opens the file of a path for
    writing.  [OSError] stands for the exception it raises otherwise
    ([FileNotFoundError], [PermissionError] and the like). *)
Variable can_make : string -> bool.
Variable can_open : string -> bool.

(** [os.makedirs(path, exist_ok=True)]: the empty path is refused on
    every system. *)
Definition makedirs (path : string) : M unit :=
  if negb (Nat.eqb (String.length path) 0) && can_make path
  then emit (MakeDirs path)
  else raise (OSError path).

(** [with open(path, "w") as f: f.write(content)] *)
Definition write_file (path content : string) : M unit :=
  if can_open path
  then emit (WriteFile path content)
  else raise (OSError path).

Definition build_sql_query (source_name table_name : string)
  : M (option string) :=
  let command := command_of source_name table_name in
  emit (RunCmd command) ;;;
  let full_output := dbt command in
  let start_index := Py.find full_output "with source" in
  if negb (Z.eqb start_index (-1))
  then ret (Some (Py.strip (Py.slice_from full_output start_index)))
  else
    emit (LogWarning ("Could not extract SQL content for " ++ table_name
                      ++ ". Check the dbt output.")) ;;;
    ret None.

(** The body of [for table in source["tables"]]. *)
Definition yml_table (output_dir source_name : string) (table : yaml)
  : M unit :=
  table_name <- subscript table "name" ;;
  table_name <- format table_name ;;
  let file_name :=
    "source_" ++ source_name ++ "__" ++ table_name ++ ".sql" in
  let file_path := Py.path_join output_dir file_name in
  sql_query <- build_sql_query source_name table_name ;;
  if truthy sql_query then
    match sql_query with
    | Some q =>
        write_file file_path q ;;;
        emit (LogInfo ("Created " ++ file_path))
    | None => ret tt
    end
  else ret tt.

(** The body of [for source in yaml_content["sources"]]. *)
Definition yml_source (output_dir source_name : string) (source : yaml)
  : M unit :=
  name <- subscript source "name" ;;
  if eq_str name source_name then
    tables <- subscript source "tables" ;;
    tables <- iter tables ;;
    for_each tables (yml_table output_dir source_name)
  else ret tt.

Definition generate_source_models_from_yml
  (yaml_path : string) (yaml_content : yaml) (source_name : string)
  : M unit :=
  let output_dir := Py.dirname yaml_path in
  makedirs output_dir ;;;
  sources <- subscript yaml_content "sources" ;;
  sources <- iter sources ;;
  for_each sources (yml_source output_dir source_name).

(** The body of [for table_name in used_sources.keys()]. *)
Definition used_table (output_dir source_name table_name : string)
  : M unit :=
  let file_name :=
    "source_" ++ source_name ++ "__" ++ table_name ++ ".sql" in
  let file_path := Py.path_join output_dir file_name in
  sql_query <- build_sql_query source_name table_name ;;
  if truthy sql_query then
    match sql_query with
    | Some q =>
        write_file file_path q ;;;
        emit (LogInfo ("Created " ++ file_path))
    | None => ret tt
    end
  else ret tt.

Definition generate_sql_files_from_used_sources
  (tree : Fs.dir) (directory source_name output_dir : string) : M unit :=
  let used_sources :=
    get_sources_used_with_source_func tree directory source_name in
  makedirs output_dir ;;;
  for_each (keys used_sources) (used_table output_dir source_name) ;;;
  emit (LogInfo ("Generated SQL files for "
                 ++ Py.str_of_nat (List.length used_sources)
                 ++ " tables used in the project.")).

End Generator.

End Gen.

(** ** [replace_source_func_with_ref.py] *)

Module Rw.
Import Re.

(** [source_pattern] of [find_files_with_source_refs]. *)
Definition source_pattern : re :=
  cat [ Lit "{{"; Star Py.isspace; Lit "source"; Star Py.isspace; Lit "(" ].

(** The pattern of [replace_sources_with_refs]; [re.DOTALL] changes
    nothing, the pattern has no dot. *)
Definition pattern : re :=
  cat [ Lit "{{"; Star Py.isspace; Lit "source"; Star Py.isspace; Lit "(";
        Star Py.isspace;
        Opt dquote; Opt squote; Grp (Plus notquote); Opt dquote; Opt squote;
        Star Py.isspace; Lit ","; Star Py.isspace;
        Opt dquote; Opt squote; Grp (Plus notquote); Opt dquote; Opt squote;
        Star Py.isspace; Lit ")"; Star Py.isspace; Lit "}}" ].

(** The files under the project directory, by path. *)
Definition store : Type := list (string * string).

Definition files_of (tree : Fs.dir) (top : string) : store :=
  flat_map
    (fun v => map (fun f => (Py.path_join (Fs.root v) (fst f), snd f))
                  (Fs.files v))
    (Fs.walk None [] top tree).

Fixpoint read (st : store) (path : string) : string :=
  match st with
  | [] => EmptyString
  | (p, c) :: st' => if String.eqb p path then c else read st' path
  end.

Fixpoint write (st : store) (path content : string) : store :=
  match st with
  | [] => [(path, content)]
  | (p, c) :: st' =>
      if String.eqb p path then (p, content) :: st'
      else (p, c) :: write st' path content
  end.

Definition find_files_with_source_refs (tree : Fs.dir) (project_dir : string)
  : list string :=
  flat_map
    (fun v =>
       flat_map
         (fun f =>
            if Py.endswith (fst f) ".sql" && search source_pattern (snd f)
            then [Py.path_join (Fs.root v) (fst f)] else [])
         (Fs.files v))
    (Fs.walk None [] project_dir tree).

(** The body of [for match in matches]: [matches] iterates over the text
    as it was read, [content] is rebound by every [replace]. *)
Definition rewrite_step (content : string) (m : mtch) : string :=
  match groups m with
  | [source_name; table_name] =>
      let new_ref :=
        "{{ ref('source_" ++ source_name ++ "__" ++ table_name ++ "') }}" in
      Py.replace content (text m) new_ref
  | _ => content
  end.

(** The text [replace_sources_with_refs] writes back for a file whose
    text is [content]. *)
Definition rewritten (content : string) : string :=
  fold_left rewrite_step (finditer pattern content) content.

Definition replace_sources_with_refs (st : store * list event)
  (file_path : string) : store * list event :=
  let content := rewritten (read (fst st) file_path) in
  (write (fst st) file_path content,
   (snd st ++ [WriteFile file_path content;
               LogInfo ("Processed: " ++ file_path)])%list).

(** The script's main block. *)
Definition main (tree : Fs.dir) (project_directory : string)
  : store * list event :=
  let files_to_process :=
    find_files_with_source_refs tree project_directory in
  let st :=
    fold_left replace_sources_with_refs files_to_process
      (files_of tree project_directory, []) in
  (fst st,
   (snd st ++ [LogInfo ("Processed "
                        ++ Py.str_of_nat (List.length files_to_process)
                        ++ " files with source references.")])%list).

End Rw.

(** ** Notions the properties are stated with *)

Module Obs.
Import Gen.

(** The files a trace writes, and the commands it runs, in order. *)
Definition written (tr : list event) : list (string * string) :=
  flat_map (fun e => match e with
                     | WriteFile p c => [(p, c)]
                     | _ => []
                     end) tr.

Definition commands (tr : list event) : list string :=
  flat_map (fun e => match e with
                     | RunCmd c => [c]
                     | _ => []
                     end) tr.

(** Every path of every set of the index satisfies [P]. *)
Definition paths_in (P : string -> Prop) (d : index) : Prop :=
  Forall (fun e => Forall P (snd e)) d.

(** The paths [os.path.join(root, file)] of the files of the visits. *)
Definition visited (visits : list Fs.visit) (path : string) : Prop :=
  exists v f, In v visits /\ In f (Fs.files v)
              /\ path = Py.path_join (Fs.root v) (fst f).

(** How a call [source('s','t')] is laid out: the white space after the
    call name, inside the parentheses and around the comma, and the four
    quote characters. *)
Record layout : Type :=
  { w1 : string; w2 : string; w3 : string; w4 : string; w5 : string;
    q1 : ascii; q2 : ascii; q3 : ascii; q4 : ascii }.

Definition well_laid (l : layout) : bool :=
  Re.all Py.isspace (w1 l) && Re.all Py.isspace (w2 l)
  && Re.all Py.isspace (w3 l) && Re.all Py.isspace (w4 l)
  && Re.all Py.isspace (w5 l)
  && Re.quote (q1 l) && Re.quote (q2 l) && Re.quote (q3 l) && Re.quote (q4 l).

(** The text of the call, followed by [rest]. *)
Definition call_then (l : layout) (s t rest : string) : string :=
  "source" ++ w1 l ++ "(" ++ w2 l
  ++ String (q1 l) (s ++ String (q2 l) (w3 l ++ "," ++ w4 l
  ++ String (q3 l) (t ++ String (q4 l) (w5 l ++ ")" ++ rest)))).

Definition call_text (l : layout) (s t : string) : string :=
  call_then l s t EmptyString.

(** The number of positions of [s] at which [sub] begins. *)
Fixpoint occurrences (sub s : string) : nat :=
  (if Py.startswith s sub then 1 else 0)
  + match s with
    | EmptyString => 0
    | String _ t => occurrences sub t
    end.

Definition has_char (c : ascii) (s : string) : bool :=
  negb (Re.all (fun x => negb (Ascii.eqb x c)) s).

(** The rewriter opens a file for writing only if its pattern matches
    the text of the file. *)
Definition writes_only_on_match : Prop :=
  forall tree dir path content,
    In (WriteFile path content) (snd (Rw.main tree dir)) ->
    Re.finditer Rw.pattern (Rw.read (Rw.files_of tree dir) path) <> [].

(** The naming convention of the generated models. *)
Definition file_name (source_name table_name : string) : string :=
  "source_" ++ source_name ++ "__" ++ table_name ++ ".sql".

(** *** What the command printed

    The marker, and the two kinds of output: one in which the marker
    occurs, first behind [pre], followed by [body] and then by white
    space only, and one in which it does not occur. *)
Definition marker : string := "with source".

(** [s] does not end in white space. *)
Fixpoint ends_clean (s : string) : bool :=
  match s with
  | EmptyString => true
  | String c t =>
      match t with
      | EmptyString => negb (Py.isspace c)
      | String _ _ => ends_clean t
      end
  end.

Definition prints_model (out q : string) : Prop :=
  exists pre body tail,
    out = pre ++ marker ++ body ++ tail
    /\ (forall pre' post', out = pre' ++ marker ++ post' ->
                           String.length pre <= String.length pre')
    /\ ends_clean body = true
    /\ Re.all Py.isspace tail = true
    /\ q = marker ++ body.

Definition prints_nothing (out : string) : Prop :=
  forall pre post, out <> pre ++ marker ++ post.

(** The command for table [t] of source [s] printed the model [q], or
    none. *)
Definition printed (dbt : string -> string) (s t : string)
  (r : option string) : Prop :=
  match r with
  | Some q => prints_model (dbt (command_of s t)) q
  | None => prints_nothing (dbt (command_of s t))
  end.

Definition model_path (output_dir s t : string) : string :=
  Py.path_join output_dir (file_name s t).

(** What [build_sql_query] returns for a table; the properties say what
    it is through [printed]. *)
Definition sql_text (dbt : string -> string) (s t : string)
  : option string :=
  match snd (build_sql_query dbt s t) with
  | inl r => r
  | inr _ => None
  end.

(** What generating one table into [output_dir] does, by what the
    command printed: the command, then the write and its log line, or
    the warning. *)
Definition table_steps (output_dir s t : string) (r : option string)
  : list event :=
  RunCmd (command_of s t)
  :: match r with
     | Some q =>
         [WriteFile (model_path output_dir s t) q;
          LogInfo ("Created " ++ model_path output_dir s t)]
     | None =>
         [LogWarning ("Could not extract SQL content for " ++ t
                      ++ ". Check the dbt output.")]
     end.

(** The same for the tables [ts], of which the command printed [rs]. *)
Definition batch (output_dir s : string) (ts : list string)
  (rs : list (option string)) : list event :=
  flat_map (fun e => table_steps output_dir s (fst e) (snd e))
           (combine ts rs).

(** The same for the tables [ts], with what [build_sql_query] returns. *)
Definition run_steps (dbt : string -> string) (output_dir s : string)
  (ts : list string) : list event :=
  batch output_dir s ts (map (sql_text dbt s) ts).

(** The files of the tables [ts] can all be opened for writing. *)
Definition opens_all (can_open : string -> bool) (output_dir s : string)
  (ts : list string) : Prop :=
  forall t, In t ts -> can_open (model_path output_dir s t) = true.

(** The line that closes a used-sources run. *)
Definition count_line (n : nat) : event :=
  LogInfo ("Generated SQL files for " ++ Py.str_of_nat n
           ++ " tables used in the project.").


(** A second pass of the rewriter over its own output changes nothing. *)
Definition second_pass_is_identity : Prop :=
  forall content, Rw.rewritten (Rw.rewritten content) = Rw.rewritten content.

(** A definition document as its author sees it: the sources in document
    order, each with its tables in document order. *)
Definition declared : Type := list (string * list string).

Definition tables_of (d : declared) (source_name : string) : list string :=
  flat_map (fun e => if String.eqb (fst e) source_name then snd e else []) d.

(** The loaded document [y] has the shape
    [sources: [{name, tables: [{name}]}]] and declares [d]; mappings may
    carry other keys as well. *)
Definition table_entry (y : yaml) (t : string) : Prop :=
  exists kv, y = YMap kv /\ assoc "name" kv = Some (YStr t).

Definition source_entry (y : yaml) (e : string * list string) : Prop :=
  exists kv tbls,
    y = YMap kv
    /\ assoc "name" kv = Some (YStr (fst e))
    /\ assoc "tables" kv = Some (YSeq tbls)
    /\ Forall2 table_entry tbls (snd e).

Definition document (y : yaml) (d : declared) : Prop :=
  exists kv srcs,
    y = YMap kv
    /\ assoc "sources" kv = Some (YSeq srcs)
    /\ Forall2 source_entry srcs d.

End Obs.

(** ** A small project, used to exercise the statements *)

Module Ex.
Import Gen.

Definition tree : Fs.dir :=
  Fs.Dir
    [ ("marts",
       Fs.Dir []
         [ ("orders.sql",
            "select * from {{ source('sup', 'orders') }} o join {{ source('sup','bad') }} b");
           ("notes.txt", "source('sup','ignored')") ]);
      ("sources",
       Fs.Dir
         [ ("sup", Fs.Dir [] [ ("source_sup__old.sql",
                                "select * from {{ source('sup','old') }}") ]) ]
         []);
      ("staging",
       Fs.Dir []
         [ ("clicks.sql", "select * from {{ source( 'sup' , 'clicks' ) }}");
           ("plain.sql", "select 1 from source('sup','orders')") ]) ]
    [ ("top.sql", "select * from {{ source('other','orders') }}") ].

(** A [dbt] that prints a model for every table but [bad]. *)
Definition newline : string := String "010" EmptyString.

Definition banner : string := "12:00:01  Running with dbt=1.7.0" ++ newline.

Definition model : string :=
  "with source as (select * from raw) select * from source".

Definition dbt (command : string) : string :=
  if String.eqb command (command_of "sup" "bad")
  then "12:00:01  Running with dbt=1.7.0"
  else banner ++ model ++ newline.

(** A project whose only file opens a call and does not complete it. *)
Definition broken : Fs.dir :=
  Fs.Dir [] [ ("broken.sql", "select * from {{ source('sup') }}") ].

Definition doc : yaml :=
  YMap
    [ ("version", YStr "2");
      ("sources",
       YSeq
         [ YMap [ ("name", YStr "sup");
                  ("tables", YSeq [ YMap [("name", YStr "orders")];
                                    YMap [("name", YStr "bad")];
                                    YMap [("name", YStr "clicks");
                                          ("description", YStr "raw")] ]) ];
           YMap [ ("name", YStr "other");
                  ("tables", YSeq [ YMap [("name", YStr "users")] ]) ] ]) ].

Definition doc_declares : Obs.declared :=
  [ ("sup", ["orders"; "bad"; "clicks"]); ("other", ["users"]) ].

(** An operating system that refuses nothing but the empty path. *)
Definition willing (path : string) : bool := true.

End Ex.

(** ** Notions for the index of the scanner *)

Module Idx.
Import Gen.

(** Entries of the index, key by key. *)
Definition entries_in (P : string -> string -> Prop) (d : index) : Prop :=
  Forall (fun e => Forall (P (fst e)) (snd e)) d.

(** What puts a path under a table: a visited file named [*.sql] whose
    text has a match with that table as second group. *)
Definition recorded (s : string) (visits : list Fs.visit)
  (t path : string) : Prop :=
  exists v name content,
    In v visits /\ In (name, content) (Fs.files v)
    /\ Py.endswith name ".sql" = true
    /\ path = Py.path_join (Fs.root v) name
    /\ In [s; t] (findall (pattern s) content).

(** Keys are distinct, and every key has a set without duplicates that
    is not empty. *)
Definition tidy (d : index) : Prop :=
  NoDup (keys d) /\ Forall (fun e => NoDup (snd e) /\ snd e <> []) d.

End Idx.

(** ** Notions for the runs of the generator *)

Module Run.
Import Gen.

(** The warnings of a trace, in order. *)
Definition warned (tr : list event) : list string :=
  flat_map (fun e => match e with
                     | LogWarning m => [m]
                     | _ => []
                     end) tr.

(** An entry of the [sources] list as the run for source [s] reads it,
    with the tables it contributes: an entry named [s] with its list of
    named tables, or an entry with any other name, of which nothing but
    the name is read. *)
Inductive entry_for (s : string) : yaml -> list string -> Prop :=
| Entry_named kv tbls ts :
    assoc "name" kv = Some (YStr s) ->
    assoc "tables" kv = Some (YSeq tbls) ->
    Forall2 Obs.table_entry tbls ts ->
    entry_for s (YMap kv) ts
| Entry_other kv v :
    assoc "name" kv = Some v ->
    eq_str v s = false ->
    entry_for s (YMap kv) [].

End Run.

(** ** More documents, used to exercise the statements *)

Module Ex2.
Import Gen.

(** The entry of another source has no tables and a null name follows. *)
Definition doc_mixed : yaml :=
  YMap
    [ ("sources",
       YSeq
         [ YMap [ ("name", YStr "other") ];
           YMap [ ("name", YStr "sup");
                  ("tables", YSeq [ YMap [("name", YStr "orders")] ]) ];
           YMap [ ("name", YNull); ("tables", YStr "none") ] ]) ].

(** The second table of the source has no name. *)
Definition doc_unnamed : yaml :=
  YMap
    [ ("sources",
       YSeq
         [ YMap [ ("name", YStr "sup");
                  ("tables", YSeq [ YMap [("name", YStr "orders")];
                                    YMap [("description", YStr "raw")];
                                    YMap [("name", YStr "clicks")] ]) ] ]) ].

End Ex2.

(** ** [main] of [dbt_generate_source_models.py] *)

Module GenMain.
Import Gen.

(** What [main] does: the events of a pipeline, or an error line of its
    own. *)
Inductive step : Type :=
| Act (e : event)
| LogError (msg : string).

(** How [main] ends: it returns, [sys.exit] raises [SystemExit], or the
    exception of a pipeline passes through. *)
Inductive ending : Type :=
| Returned
| SystemExit (code : Z)
| Uncaught (e : exn).

Section Main.

(** The environment: the command's output, the answers of the operating
    system, the tree below a directory and the document [yaml.safe_load]
    reads from a path. *)
Variable dbt : string -> string.
Variable can_make : string -> bool.
Variable can_open : string -> bool.
Variable tree_at : string -> Fs.dir.
Variable load : string -> yaml.

(** A pipeline, then the closing log line if it returned. *)
Definition finish (m : M unit) (closing : string) : list step * ending :=
  match m with
  | (tr, inl _) => ((map Act tr ++ [Act (LogInfo closing)])%list, Returned)
  | (tr, inr e) => (map Act tr, Uncaught e)
  end.

Definition fail (msg : string) : list step * ending :=
  ([LogError msg], SystemExit 1).

(** [sys.argv[i]]; every use is behind a test of the length. *)
Definition arg (argv : list string) (i : nat) : string :=
  nth i argv EmptyString.

Definition main (argv : list string) : list step * ending :=
  if Nat.ltb (List.length argv) 3 then
    fail "Usage: python script_name.py <mode> <source_name> [additional arguments]"
  else
    let mode := arg argv 1 in
    let source_name := arg argv 2 in
    if String.eqb mode "used_sources" then
      if negb (Nat.eqb (List.length argv) 5) then
        fail "Usage for used_sources mode: python script_name.py used_sources <source_name> <project_directory> <output_directory>"
      else
        let project_directory := arg argv 3 in
        let output_directory := arg argv 4 in
        finish
          (generate_sql_files_from_used_sources dbt can_make can_open
             (tree_at project_directory) project_directory source_name
             output_directory)
          "All SQL files have been generated from used sources."
    else if String.eqb mode "yaml" || String.eqb mode "yml" then
      if negb (Nat.eqb (List.length argv) 4) then
        fail "Usage for yaml mode: python script_name.py yaml <source_name> <yaml_file_path>"
      else
        let yaml_file_path := arg argv 3 in
        finish
          (generate_source_models_from_yml dbt can_make can_open
             yaml_file_path
             (load yaml_file_path) source_name)
          "All SQL files have been generated from YAML."
    else
      fail "Invalid mode. Use 'used_sources' or 'yaml'.".

End Main.

(** The command lines [main] accepts. *)
Inductive accepted : list string -> Prop :=
| Accept_used script source_name project_directory output_directory :
    accepted [script; "used_sources"; source_name;
              project_directory; output_directory]
| Accept_yaml script source_name yaml_file_path :
    accepted [script; "yaml"; source_name; yaml_file_path]
| Accept_yml script source_name yaml_file_path :
    accepted [script; "yml"; source_name; yaml_file_path].

End GenMain.

(** ** Notions for the run of the rewriter *)

Module Sel.
Import Re Rw.

(** A file of the project as the run sees it: its path, whether it is
    selected, and its text. *)
Abbreviation entry := (string * (bool * string))%type.

Definition entries (tree : Fs.dir) (dir : string) : list entry :=
  flat_map
    (fun v =>
       map (fun f =>
              (Py.path_join (Fs.root v) (fst f),
               (Py.endswith (fst f) ".sql" && search source_pattern (snd f),
                snd f)))
           (Fs.files v))
    (Fs.walk None [] dir tree).

(** The file before the run, after it, and what the run logs for it. *)
Definition before (e : entry) : string * string := (fst e, snd (snd e)).

Definition after (e : entry) : string * string :=
  (fst e, if fst (snd e) then rewritten (snd (snd e)) else snd (snd e)).

Definition logged (e : entry) : list event :=
  if fst (snd e)
  then [WriteFile (fst e) (rewritten (snd (snd e)));
        LogInfo ("Processed: " ++ fst e)]
  else [].

End Sel.

(** ** Texts made of wrapped calls and of text that opens none *)

Module Chunks.
Import Obs.

(** [opens x]: [x] begins with two opening braces, white space and the
    letter [s], as every match of the rewriter's pattern does. *)
Definition opens (x : string) : bool :=
  match x with
  | String c1 (String c2 r) =>
      Ascii.eqb c1 "{" && Ascii.eqb c2 "{" && Py.startswith (Py.lstrip r) "s"
  | _ => false
  end.

(** [blocked v]: whatever follows it, [v] does not open. *)
Definition blocked (v : string) : bool :=
  match v with
  | EmptyString => true
  | String c1 r1 =>
      if Ascii.eqb c1 "{" then
        match r1 with
        | EmptyString => false
        | String c2 r =>
            if Ascii.eqb c2 "{" then
              match Py.lstrip r with
              | EmptyString => false
              | String c _ => negb (Ascii.eqb c "s")
              end
            else true
        end
      else true
  end.

(** No position of [t] opens, whatever follows [t]. *)
Fixpoint quiet (t : string) : bool :=
  match t with
  | EmptyString => true
  | String c t' => blocked t && quiet t'
  end.

Definition nobrace (c : ascii) : bool := negb (Ascii.eqb c "{").
Definition noclose (c : ascii) : bool := negb (Ascii.eqb c "}").

(** An argument written without quotes or braces inside. *)
Definition plain_char (c : ascii) : bool :=
  Re.notquote c && negb (Ascii.eqb c "{") && negb (Ascii.eqb c "}").

Definition plain (a : string) : bool :=
  negb (Nat.eqb (String.length a) 0) && Re.all plain_char a.

(** A piece of a file: text, or a call [source('a','b')] between double
    braces, with white space [v0] behind the opening braces and [v6]
    before the closing ones. *)
Inductive chunk : Type :=
| Text (t : string)
| Call (v0 v6 : string) (l : layout) (a b : string).

Definition chunk_text (ch : chunk) : string :=
  match ch with
  | Text t => t
  | Call v0 v6 l a b => "{{" ++ v0 ++ call_then l a b (v6 ++ "}}")
  end.

Definition chunk_ok (ch : chunk) : bool :=
  match ch with
  | Text t => quiet t
  | Call v0 v6 l a b =>
      Re.all Py.isspace v0 && Re.all Py.isspace v6 && well_laid l
      && plain a && plain b
  end.

(** What a well formed call is made of. *)
Record call_facts (v0 v6 : string) (l : layout) (a b : string) : Prop :=
  { cf_v0 : Re.all Py.isspace v0 = true;
    cf_v6 : Re.all Py.isspace v6 = true;
    cf_l : well_laid l = true;
    cf_a : plain a = true;
    cf_b : plain b = true }.

Fixpoint render (cs : list chunk) : string :=
  match cs with
  | [] => EmptyString
  | ch :: cs' => chunk_text ch ++ render cs'
  end.

Definition ref_text (a b : string) : string :=
  "{{ ref('source_" ++ a ++ "__" ++ b ++ "') }}".

(** The piece with its call, if it is one, turned into a [ref]. *)
Definition to_ref (ch : chunk) : chunk :=
  match ch with
  | Text t => Text t
  | Call _ _ _ a b => Text (ref_text a b)
  end.

(** The match object [finditer] gives for a call. *)
Definition match_of (ch : chunk) : list Re.mtch :=
  match ch with
  | Text _ => []
  | Call _ _ _ a b => [ {| Re.text := chunk_text ch; Re.groups := [a; b] |} ]
  end.

(** One [replace]: the calls with the text [old] become the text [new]. *)
Definition swap (old new : string) (ch : chunk) : chunk :=
  match ch with
  | Text t => Text t
  | Call _ _ _ _ _ =>
      if String.eqb (chunk_text ch) old then Text new else ch
  end.

(** The rewriter's step for the match of the piece [c]. *)
Definition apply_call (c : chunk) (cs : list chunk) : list chunk :=
  match c with
  | Text _ => cs
  | Call _ _ _ a b => map (swap (chunk_text c) (ref_text a b)) cs
  end.

Definition same_call (ch c : chunk) : bool :=
  match c with
  | Text _ => false
  | Call _ _ _ _ _ => String.eqb (chunk_text c) (chunk_text ch)
  end.

(** The piece after the steps for the pieces [done]. *)
Definition mark (done : list chunk) (ch : chunk) : chunk :=
  match ch with
  | Text t => Text t
  | Call _ _ _ _ _ => if existsb (same_call ch) done then to_ref ch else ch
  end.

End Chunks.

(** ** A text in pieces, for the examples *)

Module Ex3.
Import Obs Chunks.

Definition tight : layout :=
  {| w1 := EmptyString; w2 := EmptyString; w3 := EmptyString;
     w4 := EmptyString; w5 := EmptyString;
     q1 := "'"; q2 := "'"; q3 := "'"; q4 := "'" |}.

Definition loose : layout :=
  {| w1 := " "; w2 := " "; w3 := EmptyString; w4 := " "; w5 := " ";
     q1 := Re.DQ; q2 := Re.DQ; q3 := "'"; q4 := Re.DQ |}.

(** Two calls written alike, one written with other quotes and spaces,
    between text with a [config] block, a bare call and a [ref]. *)
Definition pieces : list chunk :=
  [ Text "{{ config(materialized='view') }} select * from ";
    Call " " " " tight "sup" "orders";
    Text " o join source('sup','users') u join {{ ref('x') }} x join ";
    Call EmptyString "  " loose "sup" "clicks";
    Text " c union all select * from ";
    Call " " " " tight "sup" "orders";
    Text " }} where 1 = 1" ].

End Ex3.

(** ** Where the generator puts its files *)

Module Place.
Import Obs.

(** A write, if the event is one, is that of a model file of source [s]
    joined to the directory [out]. *)
Definition placed (out s : string) (e : event) : Prop :=
  match e with
  | WriteFile path _ => exists t, path = Py.path_join out (file_name s t)
  | _ => True
  end.

End Place.

(** ** The scanner on texts in pieces *)

Module Pieces.
Import Obs Chunks.

(** The word [source] occurs nowhere in [x]. *)
Definition wordless (x : string) : bool :=
  Nat.eqb (occurrences "source" x) 0.

(** What follows cannot complete a beginning of the word. *)
Definition stopped (rest : string) : bool :=
  match rest with
  | EmptyString => true
  | String c _ => negb (has_char c "ource")
  end.

(** No position inside [x] begins the word, [rest] following. *)
Definition no_start (x rest : string) : Prop :=
  forall u v, x = u ++ v -> v <> EmptyString ->
              Py.startswith (v ++ rest) "source" = false.

(** A character that does not begin the word. *)
Definition not_s (c : ascii) : bool := negb (Ascii.eqb c "s").

(** The word occurs in the piece only as the name of the call; a call of
    another source than [s] has no comma in its first argument. *)
Definition piece_ok (s : string) (ch : chunk) : bool :=
  match ch with
  | Text t => wordless t
  | Call _ _ _ a b =>
      String.eqb a s || (negb (has_char "," a) && wordless a && wordless b)
  end.

(** No text is followed by another text. *)
Fixpoint spaced (cs : list chunk) : bool :=
  match cs with
  | [] => true
  | ch :: rest =>
      match ch, rest with
      | Text _, Text _ :: _ => false
      | _, _ => true
      end && spaced rest
  end.

(** What [findall] gives for a piece: the groups of a call of [s]. *)
Definition found (s : string) (ch : chunk) : list (list string) :=
  match ch with
  | Text _ => []
  | Call _ _ _ a b => if String.eqb a s then [[a; b]] else []
  end.

End Pieces.

(** ** A project whose model calls two sources *)

Module Ex4.
Import Obs Chunks.

Definition pieces : list chunk :=
  [ Text "select o.id, c.name from ";
    Call " " " " Ex3.tight "sup" "orders";
    Text " o join ";
    Call EmptyString "  " Ex3.loose "crm" "contacts";
    Text " c on c.id = o.contact" ].

Definition project : Fs.dir :=
  Fs.Dir [("marts", Fs.Dir [] [("orders.sql", render pieces)])] [].

End Ex4.

(** ** A project that calls a table with a slash in its name *)

Module Ex5.

Definition tree : Fs.dir :=
  Fs.Dir []
    [ ("a.sql",
       "select * from {{ source('sup','users') }} u join {{ source('sup','raw/orders') }} o join {{ source('sup','clicks') }} c") ].

(** An operating system that has no directory [out/source_sup__raw]. *)
Definition flat (path : string) : bool :=
  negb (String.eqb path "out/source_sup__raw/orders.sql").

End Ex5.

(** ** Texts as the scanner reads them: calls, and text between them *)

Module Parts.
Import Obs.

(** A part of a file: a call [source('a','b')], in braces or not, or
    the text between two calls. *)
Inductive part : Type :=
| Gap (t : string)
| Use (l : layout) (a b : string).

Definition part_text (p : part) : string :=
  match p with
  | Gap t => t
  | Use l a b => call_text l a b
  end.

Fixpoint flat (ps : list part) : string :=
  match ps with
  | [] => EmptyString
  | p :: ps' => part_text p ++ flat ps'
  end.







End Parts.

(** ** A model with a [source] CTE and calls of two sources *)

Module Ex6.
Import Obs Parts.

Definition parts : list part :=
  [ Gap "with source as (select * from {{ ";
    Use Ex3.tight "sup" "orders";
    Gap " }}), crm as (select * from ";
    Use Ex3.loose "crm" "contacts";
    Gap "), clicks as (select * from {{ ";
    Use Ex3.loose "sup" "clicks";
    Gap " }}) select * from source" ].

Definition project : Fs.dir :=
  Fs.Dir [("staging", Fs.Dir [] [("stg.sql", flat parts)])] [].




End Ex6.

(** * Properties *)

Module PyFacts.
Import Py.

Lemma app_assoc (a b c : string) : (a ++ b) ++ c = a ++ (b ++ c).
Proof. induction a; simpl; congruence. Qed.

Lemma app_nil_r (a : string) : a ++ EmptyString = a.
Proof. induction a; simpl; congruence. Qed.

Lemma length_app (a b : string) :
  String.length (a ++ b) = String.length a + String.length b.
Proof. induction a; simpl; congruence. Qed.

Lemma strip_prefix_app (p t : string) : strip_prefix p (p ++ t) = Some t.
Proof.
  induction p as [|c p IH]; simpl; [reflexivity|].
  now rewrite Ascii.eqb_refl.
Qed.

Lemma strip_prefix_some (p s t : string) :
  strip_prefix p s = Some t -> s = p ++ t.
Proof.
  revert s; induction p as [|c p IH]; intros s H; simpl in *.
  - congruence.
  - destruct s as [|b s]; [discriminate|].
    destruct (Ascii.eqb c b) eqn:E; [|discriminate].
    apply Ascii.eqb_eq in E; subst b. f_equal. now apply IH.
Qed.

Lemma startswith_true (s p : string) :
  startswith s p = true <-> exists t, s = p ++ t.
Proof.
  unfold startswith; split.
  - destruct (strip_prefix p s) eqn:E; [|discriminate].
    intros _. exists s0. now apply strip_prefix_some.
  - intros [t ->]. now rewrite strip_prefix_app.
Qed.

Lemma startswith_app (p t : string) : startswith (p ++ t) p = true.
Proof. apply startswith_true. now exists t. Qed.

Lemma drop_app (w t : string) : drop (String.length w) (w ++ t) = t.
Proof. induction w; simpl; auto. Qed.

Lemma take_app (w t : string) : take (String.length w) (w ++ t) = w.
Proof. induction w; simpl; [now destruct t|congruence]. Qed.

Lemma take_suffix (w t : string) :
  take (String.length (w ++ t) - String.length t) (w ++ t) = w.
Proof.
  rewrite length_app.
  replace (String.length w + String.length t - String.length t)
    with (String.length w) by lia.
  apply take_app.
Qed.

(** [find] returns the first occurrence, or [-1] when there is none. *)
Lemma find_from_cases (sub s : string) (i : Z) :
  (exists pre post,
      s = pre ++ sub ++ post
      /\ (forall pre' post', s = pre' ++ sub ++ post' ->
                             String.length pre <= String.length pre')
      /\ find_from sub s i = (i + Z.of_nat (String.length pre))%Z)
  \/ ((forall pre post, s <> pre ++ sub ++ post)
      /\ find_from sub s i = (-1)%Z).
Proof.
  revert i; induction s as [|c s IH]; intros i.
  - simpl. destruct (startswith EmptyString sub) eqn:E.
    + left. apply startswith_true in E. destruct E as [t E].
      exists EmptyString, t. simpl. repeat split; auto.
      * intros; lia.
      * lia.
    + right. split; auto. intros pre post H.
      destruct pre; simpl in H; [|discriminate].
      assert (startswith EmptyString sub = true)
        by (apply startswith_true; now exists post).
      congruence.
  - simpl. destruct (startswith (String c s) sub) eqn:E.
    + left. apply startswith_true in E. destruct E as [t E].
      exists EmptyString, t. simpl. repeat split; auto.
      * intros; lia.
      * lia.
    + destruct (IH (i + 1)%Z) as [(pre & post & Hs & Hmin & Hf)|[Hno Hf]].
      * left. exists (String c pre), post. simpl. repeat split.
        -- now rewrite Hs.
        -- intros pre' post' H'. destruct pre' as [|c' pre'].
           ++ simpl in H'.
              assert (startswith (String c s) sub = true)
                by (apply startswith_true; now exists post').
              congruence.
           ++ simpl in H'. injection H' as _ H'.
              specialize (Hmin _ _ H'). simpl. lia.
        -- rewrite Hf. lia.
      * right. split; auto. intros pre post H'.
        destruct pre as [|c' pre].
        -- simpl in H'.
           assert (startswith (String c s) sub = true)
             by (apply startswith_true; now exists post).
           congruence.
        -- simpl in H'. injection H' as _ H'. now apply (Hno pre post).
Qed.

Lemma slice_from_nat (s : string) (n : nat) :
  slice_from s (Z.of_nat n) = drop n s.
Proof.
  unfold slice_from.
  destruct (Z.ltb_spec (Z.of_nat n) 0); [lia|].
  now rewrite Nat2Z.id.
Qed.

Lemma rstrip_cons_nonspace (c : ascii) (t : string) :
  isspace c = false -> rstrip (String c t) = String c (rstrip t).
Proof. intros H. simpl. rewrite H. now destruct (rstrip t). Qed.

Lemma rstrip_cons_nonempty (c : ascii) (t : string) :
  rstrip t <> EmptyString -> rstrip (String c t) = String c (rstrip t).
Proof. intros H. simpl. destruct (rstrip t); congruence. Qed.

Lemma rstrip_idem (s : string) : rstrip (rstrip s) = rstrip s.
Proof.
  induction s as [|c s IH]; [reflexivity|].
  simpl. destruct (rstrip s) as [|d r] eqn:E.
  - destruct (isspace c) eqn:Ec; [reflexivity|].
    simpl. now rewrite Ec.
  - rewrite rstrip_cons_nonempty; [now rewrite IH|].
    rewrite IH. discriminate.
Qed.

Lemma strip_marker (post : string) :
  strip ("with source" ++ post) = "with source" ++ rstrip post.
Proof.
  unfold strip. simpl lstrip.
  change ("with source" ++ post)
    with (String "w" (String "i" (String "t" (String "h" (String " "
           (String "s" (String "o" (String "u" (String "r" (String "c"
           (String "e" post))))))))))).
  repeat (rewrite rstrip_cons_nonspace by reflexivity).
  rewrite rstrip_cons_nonempty.
  2:{ rewrite rstrip_cons_nonspace by reflexivity. discriminate. }
  now repeat (rewrite rstrip_cons_nonspace by reflexivity).
Qed.

End PyFacts.

(** ** The matcher *)

Module ReFacts.
Import Py PyFacts Re.

(** *** Soundness: a successful run consumed a word of the pattern *)

Lemma star_sound (p : ascii -> bool) (s : string)
  (k : string -> option result) (res : result) :
  star p s k = Some res ->
  exists w t, s = w ++ t /\ all p w = true /\ k t = Some res.
Proof.
  induction s as [|c s IH]; simpl; intros H.
  - now exists EmptyString, EmptyString.
  - destruct (p c) eqn:Hc.
    + destruct (star p s k) as [r|] eqn:Hs.
      * injection H as ->. destruct (IH eq_refl) as (w & t & -> & Hw & Hk).
        exists (String c w), t. simpl. now rewrite Hc, Hw.
      * now exists EmptyString, (String c s).
    + now exists EmptyString, (String c s).
Qed.

Lemma run_sound (r : re) :
  forall s caps k res,
    run r s caps k = Some res ->
    exists w t gs,
      s = w ++ t /\ matches r w gs /\ k t (caps ++ gs)%list = Some res.
Proof.
  induction r as [l|p|p|p|p|r IH|r1 IH1 r2 IH2]; intros s caps k res H;
    simpl in H.
  - destruct (strip_prefix l s) as [t|] eqn:E; [|discriminate].
    apply strip_prefix_some in E. exists l, t, []. rewrite List.app_nil_r.
    repeat split; auto. constructor.
  - destruct s as [|c t]; [discriminate|].
    destruct (p c) eqn:Hc; [|discriminate].
    exists (String c EmptyString), t, []. rewrite List.app_nil_r.
    repeat split; auto. now constructor.
  - apply star_sound in H. destruct H as (w & t & -> & Hw & Hk).
    exists w, t, []. rewrite List.app_nil_r. repeat split; auto.
    now constructor.
  - destruct s as [|c s]; [discriminate|].
    destruct (p c) eqn:Hc; [|discriminate].
    apply star_sound in H. destruct H as (w & t & -> & Hw & Hk).
    exists (String c w), t, []. rewrite List.app_nil_r. repeat split; auto.
    now constructor.
  - assert (Hnone : k s caps = Some res ->
                    exists w t gs, s = w ++ t /\ matches (Opt p) w gs
                                   /\ k t (caps ++ gs)%list = Some res).
    { intros Hk. exists EmptyString, s, []. rewrite List.app_nil_r.
      repeat split; auto. constructor. }
    destruct s as [|c t]; [now apply Hnone|].
    destruct (p c) eqn:Hc; [|now apply Hnone].
    destruct (k t caps) as [r|] eqn:Hk; [|now apply Hnone].
    injection H as ->. exists (String c EmptyString), t, [].
    rewrite List.app_nil_r. repeat split; auto. now constructor.
  - apply IH in H. destruct H as (w & t & gs & -> & Hm & Hk).
    exists w, t, (gs ++ [w])%list. repeat split; auto.
    + now constructor.
    + rewrite take_suffix in Hk. now rewrite List.app_assoc.
  - apply IH1 in H. destruct H as (w1 & t1 & g1 & -> & Hm1 & Hk).
    apply IH2 in Hk. destruct Hk as (w2 & t2 & g2 & -> & Hm2 & Hk).
    exists (w1 ++ w2), t2, (g1 ++ g2)%list. repeat split.
    + now rewrite PyFacts.app_assoc.
    + now constructor.
    + now rewrite List.app_assoc.
Qed.

Lemma match_at_sound (r : re) (s : string) (res : result) :
  match_at r s = Some res ->
  exists w, s = w ++ fst res /\ matches r w (snd res).
Proof.
  unfold match_at. intros H. apply run_sound in H.
  destruct H as (w & t & gs & -> & Hm & Hk). injection Hk as <-.
  exists w. simpl. auto.
Qed.

Lemma mk_match_sound (r : re) (s : string) (res : result) :
  match_at r s = Some res ->
  matches r (text (mk_match s res)) (groups (mk_match s res)).
Proof.
  intros E. apply match_at_sound in E. destruct E as (w & E & Hm).
  unfold mk_match, text, groups. rewrite E. now rewrite take_suffix.
Qed.

(** Every match found by [finditer] is a word of the pattern, with the
    groups of that word. *)
Lemma scan_sound (r : re) (s : string) :
  forall skip m, In m (scan r s skip) -> matches r (text m) (groups m).
Proof.
  induction s as [|c s IH]; intros skip m; cbn [scan].
  - destruct skip; [|contradiction].
    destruct (match_at r EmptyString) as [res|] eqn:E; [|contradiction].
    intros [<-|[]]. now apply mk_match_sound.
  - destruct skip as [|k]; [|apply IH].
    destruct (match_at r (String c s)) as [res|] eqn:E; [|apply IH].
    intros [<-|H]; [|now apply IH in H].
    now apply mk_match_sound.
Qed.

(** *** Running the matcher forward

    A greedy operator that takes the whole run of its class, with the
    rest of the pattern succeeding behind it, is done at its first
    attempt. *)

Lemma star_stop (p : ascii -> bool) (rest : string)
  (k : string -> option result) :
  stops p rest = true -> star p rest k = k rest.
Proof.
  destruct rest as [|c t]; simpl; auto.
  intros H. apply negb_true_iff in H. now rewrite H.
Qed.

Lemma star_max (p : ascii -> bool) (w rest : string)
  (k : string -> option result) (res : result) :
  all p w = true -> stops p rest = true -> k rest = Some res ->
  star p (w ++ rest) k = Some res.
Proof.
  intros Hw Hs Hk. induction w as [|c w IH]; simpl in *.
  - now rewrite star_stop.
  - apply andb_true_iff in Hw. destruct Hw as [Hc Hw].
    now rewrite Hc, (IH Hw).
Qed.

Lemma run_lit (l rest : string) (caps : list string) (k : cont) :
  run (Lit l) (l ++ rest) caps k = k rest caps.
Proof. simpl. now rewrite strip_prefix_app. Qed.

Lemma run_chr (p : ascii -> bool) (c : ascii) (rest : string)
  (caps : list string) (k : cont) :
  p c = true -> run (Chr p) (String c rest) caps k = k rest caps.
Proof. intros H. simpl. now rewrite H. Qed.

Lemma run_star (p : ascii -> bool) (w rest : string)
  (caps : list string) (k : cont) (res : result) :
  all p w = true -> stops p rest = true -> k rest caps = Some res ->
  run (Star p) (w ++ rest) caps k = Some res.
Proof. intros. simpl. now apply star_max. Qed.

Lemma run_plus (p : ascii -> bool) (c : ascii) (w rest : string)
  (caps : list string) (k : cont) (res : result) :
  p c = true -> all p w = true -> stops p rest = true ->
  k rest caps = Some res ->
  run (Plus p) (String c (w ++ rest)) caps k = Some res.
Proof. intros Hc Hw Hs Hk. simpl. rewrite Hc. now apply star_max. Qed.

Lemma run_opt_take (p : ascii -> bool) (c : ascii) (rest : string)
  (caps : list string) (k : cont) (res : result) :
  p c = true -> k rest caps = Some res ->
  run (Opt p) (String c rest) caps k = Some res.
Proof. intros Hc Hk. simpl. now rewrite Hc, Hk. Qed.

Lemma run_opt_skip (p : ascii -> bool) (rest : string)
  (caps : list string) (k : cont) :
  stops p rest = true -> run (Opt p) rest caps k = k rest caps.
Proof.
  destruct rest as [|c t]; simpl; auto.
  intros H. apply negb_true_iff in H. now rewrite H.
Qed.

(** A group around a literal, and around a run of a class. *)
Lemma run_grp_lit (l rest : string) (caps : list string) (k : cont) :
  run (Grp (Lit l)) (l ++ rest) caps k = k rest (caps ++ [l])%list.
Proof.
  cbn [run]. rewrite strip_prefix_app. now rewrite take_suffix.
Qed.

Lemma run_grp_plus (p : ascii -> bool) (c : ascii) (w rest : string)
  (caps : list string) (k : cont) (res : result) :
  p c = true -> all p w = true -> stops p rest = true ->
  k rest (caps ++ [String c w])%list = Some res ->
  run (Grp (Plus p)) (String c (w ++ rest)) caps k = Some res.
Proof.
  intros Hc Hw Hs Hk. cbn [run]. rewrite Hc. apply star_max; auto.
  change (String c (w ++ rest)) with (String c w ++ rest).
  now rewrite take_suffix.
Qed.

(** *** A run that fails *)

Lemma run_lit_fails (l s : string) (caps : list string) (k : cont) :
  startswith s l = false -> run (Lit l) s caps k = None.
Proof.
  unfold startswith. simpl. now destruct (strip_prefix l s).
Qed.

(** Inversion of [matches] along a concatenation. *)
Ltac invert_matches :=
  repeat match goal with
         | H : matches (cat _) _ _ |- _ => simpl cat in H
         | H : matches (Seq _ _) _ _ |- _ => inversion H; clear H; subst
         | H : matches (Grp _) _ _ |- _ => inversion H; clear H; subst
         | H : matches (Lit _) _ _ |- _ => inversion H; clear H; subst
         | H : matches (Chr _) _ _ |- _ => inversion H; clear H; subst
         | H : matches (Star _) _ _ |- _ => inversion H; clear H; subst
         | H : matches (Plus _) _ _ |- _ => inversion H; clear H; subst
         | H : matches (Opt _) _ _ |- _ => inversion H; clear H; subst
         end.

End ReFacts.

(** ** The walk of the reference scanner *)

Module FsFacts.
Import Fs Gen Obs.

(** Induction on a tree, with the property available for every
    sub-directory. *)
Lemma dir_induction (P : dir -> Prop) :
  (forall subs fs, Forall (fun e => P (snd e)) subs -> P (Dir subs fs)) ->
  forall d, P d.
Proof.
  intros H. fix IH 1. intros [subs fs]. apply H.
  induction subs as [|[n d] subs IHs]; constructor; [apply IH|exact IHs].
Qed.

Lemma descend_comps (x : string)
  (rec : list string -> string -> dir -> list visit)
  (cs : list string) (top : string) (l : list (string * dir)) :
  ~ In x cs ->
  NoDup (map fst l) ->
  Forall (fun e => forall cs' top', ~ In x cs' ->
                   Forall (fun v => ~ In x (comps v)) (rec cs' top' (snd e))) l ->
  forall removed, (removed = true -> ~ In x (map fst l)) ->
  Forall (fun v => ~ In x (comps v)) (descend (Some x) rec cs top l removed).
Proof.
  intros Hcs. induction l as [|[n d] l IH]; intros Hnd Hall removed Hrem;
    simpl; [constructor|].
  inversion Hnd as [|? ? Hn Hnd']; subst.
  inversion Hall as [|? ? Hd Hall']; subst. simpl in *.
  destruct removed; simpl.
  - destruct (String.eqb_spec n x) as [->|Hne].
    + exfalso. apply (Hrem eq_refl). now left.
    + apply Forall_app. split.
      * apply Hd. intros Hin. apply in_app_or in Hin.
        destruct Hin as [Hin|[Hin|[]]]; [now apply Hcs|now apply Hne].
      * apply IH; auto. intros _ Hin. apply (Hrem eq_refl). now right.
  - destruct (String.eqb_spec n x) as [->|Hne].
    + apply IH; auto.
    + apply Forall_app. split.
      * apply Hd. intros Hin. apply in_app_or in Hin.
        destruct Hin as [Hin|[Hin|[]]]; [now apply Hcs|now apply Hne].
      * apply IH; auto. discriminate.
Qed.

Lemma walk_comps (x : string) (d : dir) :
  unique_names d ->
  forall cs top, ~ In x cs ->
  Forall (fun v => ~ In x (comps v)) (walk (Some x) cs top d).
Proof.
  induction d as [subs fs IH] using dir_induction.
  intros Hu cs top Hcs. inversion Hu as [? ? Hnd Hsub]; subst.
  simpl. constructor; [exact Hcs|].
  apply descend_comps; auto; [|discriminate].
  rewrite Forall_forall in *. intros e He cs' top' Hcs'.
  apply IH; auto.
Qed.

Lemma descend_prune (x : string) (cs : list string) (top : string)
  (l : list (string * dir)) :
  NoDup (map fst l) ->
  Forall (fun e => forall cs' top',
            walk (Some x) cs' top' (snd e)
            = walk None cs' top' (prune x (snd e))) l ->
  forall removed, (removed = true -> ~ In x (map fst l)) ->
  descend (Some x) (walk (Some x)) cs top l removed
  = descend None (walk None) cs top (prune_subs x (prune x) l) false.
Proof.
  induction l as [|[n d] l IH]; intros Hnd Hall removed Hrem;
    [reflexivity|].
  inversion Hnd as [|? ? Hn Hnd']; subst.
  inversion Hall as [|? ? Hd Hall']; subst. simpl in *.
  destruct (String.eqb_spec n x) as [->|Hne].
  - destruct removed; simpl.
    + exfalso. apply (Hrem eq_refl). now left.
    + apply IH; auto.
  - rewrite andb_false_r. simpl. rewrite Hd. f_equal.
    apply IH; auto. intros E Hin. apply (Hrem E). now right.
Qed.

Lemma walk_prune (x : string) (d : dir) :
  unique_names d ->
  forall cs top, walk (Some x) cs top d = walk None cs top (prune x d).
Proof.
  induction d as [subs fs IH] using dir_induction.
  intros Hu cs top. inversion Hu as [? ? Hnd Hsub]; subst.
  simpl. f_equal. apply descend_prune; auto; [|discriminate].
  rewrite Forall_forall in *. intros e He cs' top'. apply IH; auto.
Qed.

Lemma fold_left_inv {A B} (I : A -> Prop) (f : A -> B -> A) (l : list B) :
  (forall a b, In b l -> I a -> I (f a b)) ->
  forall a, I a -> I (fold_left f l a).
Proof.
  induction l as [|b l IH]; intros H a Ha; [exact Ha|].
  simpl. apply IH.
  - intros a' b' Hb'. apply H. now right.
  - apply H; [now left|exact Ha].
Qed.

Lemma lookup_paths (P : string -> Prop) (d : index) (key path : string) :
  paths_in P d -> In path (lookup key d) -> P path.
Proof.
  induction 1 as [|[k v] d Hv _ IH]; simpl; [contradiction|].
  destruct (String.eqb k key); [|exact IH].
  intros H. rewrite Forall_forall in Hv. now apply Hv.
Qed.

Lemma set_add_paths (P : string -> Prop) (x : string) (l : list string) :
  P x -> Forall P l -> Forall P (set_add x l).
Proof.
  intros Hx Hl. unfold set_add.
  destruct (existsb (String.eqb x) l); [exact Hl|].
  apply Forall_app. split; [exact Hl|]. now constructor.
Qed.

Lemma dict_add_paths (P : string -> Prop) (key path : string) (d : index) :
  P path -> paths_in P d -> paths_in P (dict_add key path d).
Proof.
  intros Hp. induction 1 as [|[k v] d Hv Hd IH]; simpl.
  - repeat constructor. exact Hp.
  - destruct (String.eqb k key); constructor; simpl; auto.
    now apply set_add_paths.
Qed.

Lemma add_matches_paths (P : string -> Prop) (s file_path : string)
  (ms : list (list string)) (d : index) :
  P file_path -> paths_in P d -> paths_in P (add_matches s file_path ms d).
Proof.
  intros Hp. unfold add_matches. apply fold_left_inv.
  intros a m _ Ha.
  destruct m as [|g1 [|g2 [|]]]; auto.
  destruct (String.eqb g1 s); auto. now apply dict_add_paths.
Qed.

Lemma index_of_paths (s : string) (visits : list visit) :
  paths_in (visited visits) (index_of s visits).
Proof.
  unfold index_of. apply fold_left_inv; [|constructor].
  intros acc v Hv Hacc. apply fold_left_inv; [|exact Hacc].
  intros acc' f Hf Hacc'. unfold scan_file.
  destruct (Py.endswith (fst f) ".sql"); [|exact Hacc'].
  apply add_matches_paths; [|exact Hacc'].
  now exists v, f.
Qed.

(** C7: with the names of the sub-directories of every directory
    distinct, the scanner visits no directory below one named [sources]:
    its walk is the full walk of the tree with every such directory cut
    out, and every path it records is a file of a directory it visited. *)
Theorem sources_directories_are_not_scanned
  (tree : dir) (directory s : string) :
  unique_names tree ->
  (forall v, In v (walk (Some "sources") [] directory tree) ->
             ~ In "sources" (comps v))
  /\ walk (Some "sources") [] directory tree
     = walk None [] directory (prune "sources" tree)
  /\ (forall table path,
        In path (lookup table
                   (get_sources_used_with_source_func tree directory s)) ->
        visited (walk (Some "sources") [] directory tree) path)
  /\ get_sources_used_with_source_func tree directory s
     = index_of s (walk None [] directory (prune "sources" tree)).
Proof.
  intros Hu. repeat split.
  - apply Forall_forall. apply walk_comps; auto.
  - now apply walk_prune.
  - intros table path. apply lookup_paths. apply index_of_paths.
  - unfold get_sources_used_with_source_func. now rewrite walk_prune.
Qed.

Lemma example_tree_unique_names : unique_names Ex.tree.
Proof.
  unfold Ex.tree.
  repeat (first [ apply Unique_names | apply NoDup_cons | apply NoDup_nil
                | apply Forall_cons | apply Forall_nil ]; simpl);
    intuition discriminate.
Qed.

Lemma sources_directories_are_not_scanned_witness :
  get_sources_used_with_source_func Ex.tree "models" "sup"
  = index_of "sup" (walk None [] "models" (prune "sources" Ex.tree)).
Proof.
  apply (sources_directories_are_not_scanned Ex.tree "models" "sup").
  exact example_tree_unique_names.
Defined.

End FsFacts.

(** ** The pattern of the reference scanner *)

Module ScanFacts.
Import Py PyFacts Re ReFacts Gen Obs.

Lemma run_seq (r1 r2 : re) (s : string) (caps : list string) (k : cont) :
  run (Seq r1 r2) s caps k = run r1 s caps (fun t c => run r2 t c k).
Proof. reflexivity. Qed.

Lemma quote_cases (q : ascii) : quote q = true -> q = "'"%char \/ q = DQ.
Proof.
  unfold quote, squote, dquote. intros H. apply orb_true_iff in H.
  destruct H as [H|H]; apply Ascii.eqb_eq in H; auto.
Qed.

Lemma quote_not_space (q : ascii) : quote q = true -> isspace q = false.
Proof. intros H. destruct (quote_cases q H) as [->| ->]; reflexivity. Qed.

Lemma stops_space_quote (q : ascii) (rest : string) :
  quote q = true -> stops isspace (String q rest) = true.
Proof. intros H. simpl. now rewrite quote_not_space. Qed.

Lemma stops_notquote_quote (q : ascii) (rest : string) :
  quote q = true -> stops notquote (String q rest) = true.
Proof. intros H. simpl. unfold notquote. now rewrite H. Qed.

Lemma well_laid_parts (l : layout) :
  well_laid l = true ->
  all isspace (w1 l) = true /\ all isspace (w2 l) = true
  /\ all isspace (w3 l) = true /\ all isspace (w4 l) = true
  /\ all isspace (w5 l) = true
  /\ quote (q1 l) = true /\ quote (q2 l) = true
  /\ quote (q3 l) = true /\ quote (q4 l) = true.
Proof.
  unfold well_laid. intros H.
  repeat (apply andb_true_iff in H; destruct H as [H ?]). auto 10.
Qed.

(** The scanner's pattern matches a well laid out call of its source, at
    the first attempt, and captures the two names. *)
Lemma match_call (l : layout) (s t post : string) :
  well_laid l = true -> t <> EmptyString -> all notquote t = true ->
  match_at (pattern s) (call_then l s t post) = Some (post, [s; t]).
Proof.
  intros Hl Ht Hq.
  destruct (well_laid_parts l Hl)
    as (H1 & H2 & H3 & H4 & H5 & Q1 & Q2 & Q3 & Q4).
  destruct t as [|c t]; [contradiction|]. simpl in Hq.
  apply andb_true_iff in Hq. destruct Hq as [Hc Hq].
  unfold match_at, pattern, call_then. cbn [cat].
  rewrite run_seq, run_lit.
  rewrite run_seq. apply run_star; [exact H1|reflexivity|].
  rewrite run_seq, run_lit.
  rewrite run_seq. apply run_star; [exact H2|now apply stops_space_quote|].
  rewrite run_seq, run_chr by exact Q1.
  rewrite run_seq, run_grp_lit.
  rewrite run_seq. apply run_opt_take; [exact Q2|].
  rewrite run_seq. apply run_star; [exact H3|reflexivity|].
  rewrite run_seq, run_lit.
  rewrite run_seq. apply run_star; [exact H4|now apply stops_space_quote|].
  rewrite run_seq, run_chr by exact Q3.
  rewrite run_seq.
  change (String c t ++ String (q4 l) (w5 l ++ ")" ++ post))
    with (String c (t ++ String (q4 l) (w5 l ++ ")" ++ post))).
  apply run_grp_plus; [exact Hc|exact Hq|now apply stops_notquote_quote|].
  rewrite run_seq. apply run_opt_take; [exact Q4|].
  rewrite run_seq. apply run_star; [exact H5|reflexivity|].
  rewrite run_seq, run_lit. reflexivity.
Qed.

(** *** [find] and the positions in front of the first occurrence *)

(** *** [finditer] passes over text in which no match begins *)

Lemma scan_skip (r : re) (w rest : string) :
  scan r (w ++ rest) (String.length w) = scan r rest 0.
Proof. induction w as [|c w IH]; [reflexivity|exact IH]. Qed.

Lemma scan_prefix (r : re) (pre rest : string) :
  (forall u v, pre = u ++ v -> v <> EmptyString ->
               match_at r (v ++ rest) = None) ->
  scan r (pre ++ rest) 0 = scan r rest 0.
Proof.
  induction pre as [|c pre IH]; intros H; [reflexivity|].
  cbn [append scan].
  assert (H0 : match_at r (String c pre ++ rest) = None)
    by (apply (H EmptyString (String c pre)); [reflexivity|discriminate]).
  cbn [append] in H0. rewrite H0.
  apply IH. intros u v -> Hv. apply (H (String c u)); auto.
Qed.

Lemma scan_hit (r : re) (c : ascii) (w rest : string) (gs : list string) :
  match_at r (String c w ++ rest) = Some (rest, gs) ->
  scan r (String c w ++ rest) 0
  = {| text := String c w; groups := gs |} :: scan r rest 0.
Proof.
  intros H. cbn [append scan]. cbn [append] in H. rewrite H.
  unfold mk_match. cbn [fst snd].
  change (String c (w ++ rest)) with (String c w ++ rest).
  rewrite take_suffix. f_equal.
  rewrite length_app.
  replace (String.length (String c w) + String.length rest
           - String.length rest - 1) with (String.length w)
    by (cbn [String.length]; lia).
  apply scan_skip.
Qed.

Lemma pattern_needs_source (s x : string) :
  startswith x "source" = false -> match_at (pattern s) x = None.
Proof.
  intros H. unfold match_at, pattern. cbn [cat].
  rewrite run_seq. now apply run_lit_fails.
Qed.

(** *** What is in the index stays there *)

Lemma set_add_mono (x y : string) (l : list string) :
  In y l -> In y (set_add x l).
Proof.
  unfold set_add. destruct (existsb (String.eqb x) l); auto.
  intros H. apply in_or_app. now left.
Qed.

Lemma set_add_same (x : string) (l : list string) : In x (set_add x l).
Proof.
  unfold set_add. destruct (existsb (String.eqb x) l) eqn:E.
  - apply existsb_exists in E. destruct E as (y & Hy & E).
    apply String.eqb_eq in E. now subst.
  - apply in_or_app. right. now left.
Qed.

Lemma dict_add_same (key path : string) (d : index) :
  In path (lookup key (dict_add key path d)).
Proof.
  induction d as [|[k v] d IH]; simpl.
  - rewrite String.eqb_refl. now left.
  - destruct (String.eqb_spec k key) as [->|Hne]; simpl.
    + rewrite String.eqb_refl. apply set_add_same.
    + destruct (String.eqb_spec k key); [contradiction|exact IH].
Qed.

Lemma dict_add_mono (key path k p : string) (d : index) :
  In p (lookup k d) -> In p (lookup k (dict_add key path d)).
Proof.
  induction d as [|[k' v] d IH]; simpl; [contradiction|].
  destruct (String.eqb_spec k' key) as [->|Hne]; simpl.
  - destruct (String.eqb key k); auto. apply set_add_mono.
  - destruct (String.eqb k' k); auto.
Qed.

Lemma fold_left_hit {A B} (I : A -> Prop) (f : A -> B -> A)
  (l : list B) (b : B) :
  In b l ->
  (forall a, I (f a b)) ->
  (forall a b', I a -> I (f a b')) ->
  forall a, I (fold_left f l a).
Proof.
  intros Hin Hb Hmono. induction l as [|x l IH]; [contradiction|].
  intros a. simpl. destruct Hin as [->|Hin].
  - apply (FsFacts.fold_left_inv I); auto.
  - now apply IH.
Qed.

Lemma add_step_mono (s file_path k p : string) (acc : index)
  (m : list string) :
  In p (lookup k acc) ->
  In p (lookup k
          match m with
          | [g1; g2] => if String.eqb g1 s
                        then dict_add g2 file_path acc else acc
          | _ => acc
          end).
Proof.
  intros H. destruct m as [|g1 [|g2 [|]]]; auto.
  destruct (String.eqb g1 s); auto. now apply dict_add_mono.
Qed.

Lemma add_matches_mono (s file_path k p : string)
  (ms : list (list string)) (acc : index) :
  In p (lookup k acc) -> In p (lookup k (add_matches s file_path ms acc)).
Proof.
  unfold add_matches.
  apply (FsFacts.fold_left_inv (fun a => In p (lookup k a))).
  intros a m _. apply add_step_mono.
Qed.

Lemma add_matches_hit (s t file_path : string)
  (ms : list (list string)) (acc : index) :
  In [s; t] ms -> In file_path (lookup t (add_matches s file_path ms acc)).
Proof.
  intros H. unfold add_matches.
  apply (fold_left_hit (fun a => In file_path (lookup t a)) _ ms [s; t]);
    auto.
  - intros a. rewrite String.eqb_refl. apply dict_add_same.
  - intros a m. apply add_step_mono.
Qed.

Lemma scan_file_mono (s root k p : string) (acc : index)
  (f : string * string) :
  In p (lookup k acc) -> In p (lookup k (scan_file s root acc f)).
Proof.
  intros H. unfold scan_file. destruct (endswith (fst f) ".sql"); auto.
  now apply add_matches_mono.
Qed.

Lemma index_of_hit (s t : string) (visits : list Fs.visit)
  (v : Fs.visit) (name content : string) :
  In v visits -> In (name, content) (Fs.files v) ->
  endswith name ".sql" = true ->
  In [s; t] (findall (pattern s) content) ->
  In (path_join (Fs.root v) name) (lookup t (index_of s visits)).
Proof.
  intros Hv Hf He Hm. unfold index_of.
  apply (fold_left_hit
           (fun a => In (path_join (Fs.root v) name) (lookup t a)) _
           visits v); auto.
  - intros a.
    apply (fold_left_hit
             (fun a => In (path_join (Fs.root v) name) (lookup t a)) _
             (Fs.files v) (name, content)); auto.
    + intros a'. unfold scan_file. cbn [fst snd]. rewrite He.
      now apply add_matches_hit.
    + intros a' f'. apply scan_file_mono.
  - intros a v' H.
    apply (FsFacts.fold_left_inv
             (fun a => In (path_join (Fs.root v) name) (lookup t a)));
      auto.
    intros a' f' _. apply scan_file_mono.
Qed.

Lemma call_then_app (l : layout) (s t rest : string) :
  call_then l s t rest = call_text l s t ++ rest.
Proof.
  unfold call_text, call_then. cbn [append].
  repeat (rewrite PyFacts.app_assoc; cbn [append]).
  reflexivity.
Qed.

(** Two texts that begin with a run of a class and leave it at a
    character outside the class agree run by run. *)
Lemma split_first (p : ascii -> bool) (u u' : string) (x x' : ascii)
  (r r' : string) :
  all p u = true -> all p u' = true -> p x = false -> p x' = false ->
  u ++ String x r = u' ++ String x' r' ->
  u = u' /\ x = x' /\ r = r'.
Proof.
  revert u'. induction u as [|c u IH]; intros u' Hu Hu' Hx Hx' E.
  - destruct u' as [|c' u']; simpl in *.
    + injection E as -> ->. auto.
    + injection E as -> _. apply andb_true_iff in Hu'. destruct Hu'.
      congruence.
  - destruct u' as [|c' u']; simpl in *.
    + injection E as -> _. apply andb_true_iff in Hu. destruct Hu.
      congruence.
    + injection E as -> E. apply andb_true_iff in Hu, Hu'.
      destruct Hu as [_ Hu], Hu' as [_ Hu'].
      destruct (IH u' Hu Hu' Hx Hx' E) as (-> & -> & ->). auto.
Qed.

Lemma all_app (p : ascii -> bool) (a b : string) :
  all p (a ++ b) = all p a && all p b.
Proof.
  induction a as [|c a IH]; simpl; [reflexivity|].
  now rewrite IH, andb_assoc.
Qed.

Lemma all_impl (p q : ascii -> bool) (s : string) :
  (forall c, p c = true -> q c = true) -> all p s = true -> all q s = true.
Proof.
  intros H. induction s as [|c s IH]; simpl; [reflexivity|].
  intros Hs. apply andb_true_iff in Hs. destruct Hs as [Hc Hs].
  now rewrite (H c Hc), IH.
Qed.

Lemma space_notquote (c : ascii) : isspace c = true -> notquote c = true.
Proof.
  intros H. unfold notquote. destruct (quote c) eqn:Q; [|reflexivity].
  apply quote_not_space in Q. congruence.
Qed.

Lemma has_char_mid (c : ascii) (a d : string) :
  has_char c (a ++ String c d) = true.
Proof.
  unfold has_char. rewrite all_app. cbn [all].
  rewrite Ascii.eqb_refl. cbn [negb andb].
  now rewrite andb_false_r.
Qed.

Ltac normalize_in H :=
  repeat first [ rewrite !PyFacts.app_assoc in H
               | progress cbn [append] in H ].

Lemma call_of_other_source (l : layout) (s s2 t post : string) :
  well_laid l = true ->
  all notquote s = true -> all notquote s2 = true ->
  has_char "," s2 = false -> s2 <> s ->
  match_at (pattern s) (call_then l s2 t post) = None.
Proof.
  intros Hl Hs Hs2 Hcomma Hne.
  destruct (well_laid_parts l Hl)
    as (H1 & H2 & H3 & H4 & H5 & Q1 & Q2 & Q3 & Q4).
  destruct (match_at (pattern s) (call_then l s2 t post)) as [res|] eqn:E;
    [exfalso|reflexivity].
  apply match_at_sound in E. destruct E as (W & E & Hm).
  unfold pattern in Hm. invert_matches.
  all: unfold call_then in E; normalize_in E.
  all: injection E as E.
  all: apply split_first with (p := isspace) in E;
    [destruct E as (_ & _ & E)|assumption|assumption
    |reflexivity|reflexivity].
  all: apply split_first with (p := isspace) in E;
    [destruct E as (_ & _ & E)|assumption|assumption
    |now apply quote_not_space|now apply quote_not_space].
  all: lazymatch type of E with
       | _ = _ ++ String _ _ =>
           apply split_first with (p := notquote) in E;
           [destruct E as (E & _ & _); now apply Hne
           |assumption|assumption
           |unfold notquote; now rewrite Q2
           |unfold notquote;
            match goal with H : quote ?c = true |- _ => now rewrite H end]
       | _ = ?a ++ ?b ++ String "," (?d ++ String ?q ?r) =>
           replace (a ++ b ++ String "," (d ++ String q r))
             with ((a ++ b ++ String "," d) ++ String q r) in E
             by (now rewrite !PyFacts.app_assoc);
           apply split_first with (p := notquote) in E;
           [destruct E as (E & _ & _);
            rewrite E, <- PyFacts.app_assoc, has_char_mid in Hcomma;
            discriminate
           | assumption
           | rewrite !all_app; cbn [all]; rewrite !andb_true_iff;
             repeat split;
             first [ assumption
                   | eapply all_impl; [apply space_notquote|assumption] ]
           | unfold notquote; now rewrite Q2
           | unfold notquote;
             match goal with H : quote q = true |- _ => now rewrite H end]
       end.
Qed.

(** *** A word that occurs once *)

Lemma occurrences_pos (sub u v : string) :
  startswith v sub = true -> 1 <= occurrences sub (u ++ v).
Proof.
  intros H. induction u as [|c u IH].
  - destruct v; simpl; rewrite H; lia.
  - cbn [append occurrences]. lia.
Qed.

Lemma scan_nil (r : re) (s : string) :
  (forall u v, s = u ++ v -> match_at r v = None) ->
  forall skip, scan r s skip = [].
Proof.
  induction s as [|c s IH]; intros H skip; cbn [scan].
  - rewrite (H EmptyString EmptyString eq_refl). now destruct skip.
  - assert (Hs : forall skip, scan r s skip = []).
    { apply IH. intros u v ->. apply (H (String c u) v). reflexivity. }
    destruct skip; [|apply Hs].
    rewrite (H EmptyString (String c s) eq_refl). apply Hs.
Qed.

End ScanFacts.

(** ** The index of the reference scanner *)

Module IndexFacts.
Import Py PyFacts Re ReFacts Gen Obs Idx FsFacts ScanFacts.

(** Every match of the scanner's pattern has the source name as its
    first group and a non-empty, quote-free second group. *)
Lemma scanner_groups (s c : string) (m : list string) :
  In m (findall (pattern s) c) ->
  exists t, m = [s; t] /\ t <> EmptyString /\ all notquote t = true.
Proof.
  unfold findall, finditer. intros H. apply in_map_iff in H.
  destruct H as (mt & <- & H). apply scan_sound in H.
  unfold pattern in H. invert_matches.
  all: simpl; eexists; split; [reflexivity|]; split; [discriminate|];
    simpl; apply andb_true_iff; auto.
Qed.

Lemma lookup_entries (P : string -> string -> Prop) (d : index)
  (key path : string) :
  entries_in P d -> In path (lookup key d) -> P key path.
Proof.
  induction 1 as [|[k v] d Hv _ IH]; simpl; [contradiction|].
  destruct (String.eqb_spec k key) as [->|_]; [|exact IH].
  intros H. rewrite Forall_forall in Hv. now apply Hv.
Qed.

Lemma dict_add_entries (P : string -> string -> Prop)
  (key path : string) (d : index) :
  P key path -> entries_in P d -> entries_in P (dict_add key path d).
Proof.
  intros Hp. induction 1 as [|[k v] d Hv Hd IH]; simpl.
  - repeat constructor. exact Hp.
  - destruct (String.eqb_spec k key) as [->|_]; constructor; simpl; auto.
    now apply set_add_paths.
Qed.

Lemma add_matches_entries (P : string -> string -> Prop)
  (s file_path : string) (ms : list (list string)) (d : index) :
  (forall t, In [s; t] ms -> P t file_path) ->
  entries_in P d -> entries_in P (add_matches s file_path ms d).
Proof.
  intros Hp. unfold add_matches.
  apply (fold_left_inv (entries_in P)).
  intros a m Hm Ha. destruct m as [|g1 [|g2 [|]]]; auto.
  destruct (String.eqb_spec g1 s) as [->|_]; auto.
  apply dict_add_entries; auto.
Qed.

Lemma index_of_entries (s : string) (visits : list Fs.visit) :
  entries_in (recorded s visits) (index_of s visits).
Proof.
  unfold index_of.
  apply (fold_left_inv (entries_in (recorded s visits))); [|constructor].
  intros acc v Hv Hacc.
  apply (fold_left_inv (entries_in (recorded s visits))); [|exact Hacc].
  intros acc' [name content] Hf Hacc'. unfold scan_file. cbn [fst snd].
  destruct (endswith name ".sql") eqn:He; [|exact Hacc'].
  apply add_matches_entries; [|exact Hacc'].
  intros t Ht. now exists v, name, content.
Qed.

(** *** The shape of the index *)

Lemma dict_add_keys_in (key path x : string) (d : index) :
  In x (keys (dict_add key path d)) -> x = key \/ In x (keys d).
Proof.
  induction d as [|[k v] d IH]; simpl.
  - intros [<-|[]]. now left.
  - destruct (String.eqb_spec k key) as [->|_]; simpl.
    + intros [<-|H]; auto.
    + intros [<-|H]; auto. destruct (IH H); auto.
Qed.

Lemma dict_add_keys_nodup (key path : string) (d : index) :
  NoDup (keys d) -> NoDup (keys (dict_add key path d)).
Proof.
  induction d as [|[k v] d IH]; simpl; intros H.
  - repeat constructor. intros [].
  - inversion H as [|? ? Hk Hd]; subst.
    destruct (String.eqb_spec k key) as [->|Hne]; simpl.
    + now constructor.
    + constructor; [|now apply IH].
      intros Hin. apply dict_add_keys_in in Hin.
      destruct Hin as [->|Hin]; [now apply Hne|now apply Hk].
Qed.

Lemma set_add_nodup (x : string) (l : list string) :
  NoDup l -> NoDup (set_add x l).
Proof.
  intros H. unfold set_add. destruct (existsb (String.eqb x) l) eqn:E; auto.
  apply NoDup_app; auto.
  - repeat constructor. intros [].
  - intros y Hy [Ey|[]]. subst y.
    assert (existsb (String.eqb x) l = true); [|congruence].
    apply existsb_exists. exists x. split; auto. apply String.eqb_refl.
Qed.

Lemma set_add_nonempty (x : string) (l : list string) : set_add x l <> [].
Proof.
  unfold set_add. destruct (existsb (String.eqb x) l) eqn:E.
  - destruct l; [discriminate|discriminate].
  - destruct l; discriminate.
Qed.

Lemma dict_add_tidy (key path : string) (d : index) :
  tidy d -> tidy (dict_add key path d).
Proof.
  intros [Hk Hs]. split; [now apply dict_add_keys_nodup|].
  clear Hk. induction Hs as [|[k v] d [Hv Hn] Hd IH]; simpl.
  - repeat constructor; [intros []|discriminate].
  - destruct (String.eqb_spec k key) as [->|_]; constructor; simpl; auto.
    split; [now apply set_add_nodup|apply set_add_nonempty].
Qed.

Lemma index_of_tidy (s : string) (visits : list Fs.visit) :
  tidy (index_of s visits).
Proof.
  unfold index_of. apply (fold_left_inv tidy).
  - intros acc v _ Hacc. apply (fold_left_inv tidy); [|exact Hacc].
    intros acc' f _ Hacc'. unfold scan_file.
    destruct (endswith (fst f) ".sql"); [|exact Hacc'].
    unfold add_matches. apply (fold_left_inv tidy); [|exact Hacc'].
    intros a m _ Ha. destruct m as [|g1 [|g2 [|]]]; auto.
    destruct (String.eqb g1 s); auto. now apply dict_add_tidy.
  - split; constructor.
Qed.

Lemma tidy_lookup (d : index) (t : string) :
  tidy d -> NoDup (lookup t d) /\ (In t (keys d) -> lookup t d <> []).
Proof.
  intros [_ Hs]. induction Hs as [|[k v] d [Hv Hn] Hd IH]; simpl.
  - split; [constructor|intros []].
  - destruct (String.eqb_spec k t) as [->|Hne].
    + split; auto.
    + destruct IH as [IH1 IH2]. split; auto.
      intros [E|H]; [contradiction|auto].
Qed.

(** *** Paths that end in [.sql] *)

Lemma take_drop (n : nat) (s : string) : take n s ++ drop n s = s.
Proof.
  revert n. induction s as [|c s IH]; intros [|n]; simpl; auto.
  now rewrite IH.
Qed.

Lemma endswith_true (s p : string) :
  endswith s p = true <-> exists x, s = x ++ p.
Proof.
  unfold endswith. split.
  - intros H. apply andb_true_iff in H. destruct H as [H Hl].
    apply String.eqb_eq in H. apply Nat.leb_le in Hl.
    exists (take (String.length s - String.length p) s).
    rewrite <- H at 2. symmetry. apply take_drop.
  - intros [x ->]. rewrite length_app.
    replace (String.length x + String.length p - String.length p)
      with (String.length x) by lia.
    rewrite drop_app, String.eqb_refl. apply Nat.leb_le. lia.
Qed.

Lemma endswith_join (root name p : string) :
  endswith name p = true -> endswith (path_join root name) p = true.
Proof.
  intros H. apply endswith_true in H. destruct H as [x ->].
  apply endswith_true. unfold path_join.
  destruct (startswith (x ++ p) "/"); [now exists x|].
  destruct (Nat.eqb (String.length root) 0 || endswith root "/").
  - exists (root ++ x). now rewrite PyFacts.app_assoc.
  - exists (root ++ "/" ++ x). now rewrite !PyFacts.app_assoc.
Qed.

(** X1: a path is recorded under a table exactly when it is the path of
    a visited file named [*.sql] whose text has a match of the pattern
    with that table as second group. *)
Theorem scanner_index_characterised
  (tree : Fs.dir) (directory s t path : string) :
  In path (lookup t (get_sources_used_with_source_func tree directory s))
  <-> recorded s (Fs.walk (Some "sources") [] directory tree) t path.
Proof.
  unfold get_sources_used_with_source_func. split.
  - apply lookup_entries. apply index_of_entries.
  - intros (v & name & content & Hv & Hf & He & -> & Hm).
    now apply (index_of_hit s t _ v name content).
Qed.

(** X2: the tables of the index are distinct, non-empty and free of
    quotes, each with at least one file; no file is listed twice under a
    table; and every path listed ends in [.sql]. *)
Theorem scanner_index_is_tidy (tree : Fs.dir) (directory s : string) :
  let idx := get_sources_used_with_source_func tree directory s in
  NoDup (keys idx)
  /\ (forall t, In t (keys idx) ->
                t <> EmptyString /\ all notquote t = true
                /\ lookup t idx <> [])
  /\ (forall t, NoDup (lookup t idx))
  /\ (forall t path, In path (lookup t idx) -> endswith path ".sql" = true).
Proof.
  intros idx.
  assert (Ht : tidy idx) by apply index_of_tidy.
  assert (Hr : forall t path, In path (lookup t idx) ->
                 recorded s (Fs.walk (Some "sources") [] directory tree)
                   t path)
    by (intros t path; apply lookup_entries; apply index_of_entries).
  split; [apply Ht|]. split; [|split].
  - intros t Hin.
    destruct (tidy_lookup idx t Ht) as [_ Hn]. specialize (Hn Hin).
    destruct (lookup t idx) as [|p ps] eqn:E; [contradiction|].
    assert (Hp : In p (lookup t idx)) by (rewrite E; now left).
    destruct (Hr t p Hp) as (v & name & content & _ & _ & _ & _ & Hm).
    apply scanner_groups in Hm. destruct Hm as (t' & Et & Hne & Hq).
    injection Et as <-. repeat split; auto; discriminate.
  - intros t. apply (tidy_lookup idx t Ht).
  - intros t path H.
    destruct (Hr t path H) as (v & name & content & _ & _ & He & -> & _).
    now apply endswith_join.
Qed.

End IndexFacts.

(** ** The staging SQL generator *)

Module GenFacts.
Import Py PyFacts Re Gen Obs.

(** *** White space at the end of a text *)

Lemma rstrip_app_spaces (x tail : string) :
  all isspace tail = true -> rstrip (x ++ tail) = rstrip x.
Proof.
  intros Ht. induction x as [|c x IH].
  - cbn [append rstrip]. induction tail as [|d tail IHt]; [reflexivity|].
    cbn [all] in Ht. apply andb_true_iff in Ht. destruct Ht as [Hd Ht].
    cbn [rstrip]. now rewrite (IHt Ht), Hd.
  - cbn [append rstrip]. now rewrite IH.
Qed.

Lemma rstrip_clean (x : string) : ends_clean x = true -> rstrip x = x.
Proof.
  induction x as [|c x IH]; [reflexivity|].
  cbn [ends_clean rstrip]. destruct x as [|d x].
  - cbn [rstrip]. intros H. apply negb_true_iff in H. now rewrite H.
  - intros H. now rewrite (IH H).
Qed.

Lemma rstrip_split (x : string) :
  exists tail,
    x = rstrip x ++ tail /\ all isspace tail = true
    /\ ends_clean (rstrip x) = true.
Proof.
  induction x as [|c x (tail & E & Ht & Hc)].
  - now exists EmptyString.
  - cbn [rstrip]. destruct (rstrip x) as [|d r] eqn:Er.
    + cbn [append] in E. subst tail. destruct (isspace c) eqn:Ec.
      * exists (String c x). cbn [append all]. now rewrite Ec, Ht.
      * exists x. cbn [append ends_clean]. now rewrite Ec.
    + exists tail. cbn [append]. repeat split.
      * now rewrite E at 1.
      * exact Ht.
      * exact Hc.
Qed.

Lemma same_prefix (a b x y : string) :
  a ++ x = b ++ y -> String.length a = String.length b ->
  a = b /\ x = y.
Proof.
  revert b. induction a as [|c a IH]; intros [|d b] E Hl;
    try discriminate; [now split|].
  cbn [append] in E. injection E as -> E. cbn [String.length] in Hl.
  destruct (IH b E) as [-> ->]; [lia|]. now split.
Qed.

Lemma first_by_find (out sub pre post : string) :
  out = pre ++ sub ++ post ->
  find out sub = Z.of_nat (String.length pre) ->
  forall pre' post', out = pre' ++ sub ++ post' ->
                     String.length pre <= String.length pre'.
Proof.
  intros E Hf.
  destruct (find_from_cases sub out 0)
    as [(pre0 & post0 & E0 & Hmin0 & Hf0)|[Hno _]].
  - fold (find out sub) in Hf0. rewrite Hf in Hf0.
    intros pre' post' E'. pose proof (Hmin0 _ _ E'). lia.
  - now destruct (Hno pre post).
Qed.

Lemma prints_model_by_find (out pre body tail : string) :
  out = pre ++ marker ++ body ++ tail ->
  find out marker = Z.of_nat (String.length pre) ->
  ends_clean body = true -> all isspace tail = true ->
  prints_model out (marker ++ body).
Proof.
  intros E Hf Hc Ht. exists pre, body, tail. repeat split; auto.
  now apply (first_by_find out marker pre (body ++ tail)).
Qed.

Lemma prints_nothing_by_find (out : string) :
  find out marker = (-1)%Z -> prints_nothing out.
Proof.
  intros Hf.
  destruct (find_from_cases marker out 0)
    as [(pre0 & post0 & _ & _ & Hf0)|[Hno _]]; [|exact Hno].
  fold (find out marker) in Hf0. lia.
Qed.

Section WithEnv.
Variable dbt : string -> string.
Variables can_make can_open : string -> bool.

(** *** What [build_sql_query] does, by what the command printed *)

Lemma build_found (s t : string) (n : nat) :
  find (dbt (command_of s t)) "with source" = Z.of_nat n ->
  build_sql_query dbt s t
  = ([RunCmd (command_of s t)],
     inl (Some (strip (drop n (dbt (command_of s t)))))).
Proof.
  intros H. unfold build_sql_query. rewrite H.
  destruct (Z.eqb_spec (Z.of_nat n) (-1)) as [E|_]; [lia|].
  simpl. now rewrite slice_from_nat.
Qed.

Lemma build_missing (s t : string) :
  find (dbt (command_of s t)) "with source" = (-1)%Z ->
  build_sql_query dbt s t
  = ([RunCmd (command_of s t);
      LogWarning ("Could not extract SQL content for " ++ t
                  ++ ". Check the dbt output.")],
     inl None).
Proof. intros H. unfold build_sql_query. now rewrite H. Qed.

Lemma build_model (s t q : string) :
  prints_model (dbt (command_of s t)) q ->
  build_sql_query dbt s t = ([RunCmd (command_of s t)], inl (Some q)).
Proof.
  intros (pre & body & tail & E & Hmin & Hc & Ht & ->).
  destruct (find_from_cases "with source" (dbt (command_of s t)) 0)
    as [(pre0 & post0 & E0 & Hmin0 & Hf)|[Hno _]].
  - assert (Hl : String.length pre0 = String.length pre).
    { pose proof (Hmin0 _ _ E). pose proof (Hmin _ _ E0). lia. }
    rewrite E in E0. symmetry in E0.
    destruct (same_prefix _ _ _ _ E0 Hl) as [-> E1].
    fold (find (dbt (command_of s t)) "with source") in Hf.
    rewrite Z.add_0_l in Hf. rewrite (build_found _ _ _ Hf).
    rewrite E, drop_app. unfold marker. rewrite strip_marker.
    now rewrite (rstrip_app_spaces _ _ Ht), (rstrip_clean _ Hc).
  - now destruct (Hno pre (body ++ tail)).
Qed.

Lemma build_nothing (s t : string) :
  prints_nothing (dbt (command_of s t)) ->
  build_sql_query dbt s t
  = ([RunCmd (command_of s t);
      LogWarning ("Could not extract SQL content for " ++ t
                  ++ ". Check the dbt output.")],
     inl None).
Proof.
  intros Hno.
  destruct (find_from_cases "with source" (dbt (command_of s t)) 0)
    as [(pre0 & post0 & E0 & _)|[_ Hf]].
  - now destruct (Hno pre0 post0).
  - now apply build_missing.
Qed.

(** Every output is of one of the two kinds. *)
Lemma output_kinds (out : string) :
  prints_nothing out \/ exists q, prints_model out q.
Proof.
  destruct (find_from_cases "with source" out 0)
    as [(pre & post & E & Hmin & _)|[Hno _]]; [right|now left].
  destruct (rstrip_split post) as (tail & Ep & Ht & Hc).
  exists (marker ++ rstrip post), pre, (rstrip post), tail.
  repeat split; auto. now rewrite <- Ep.
Qed.

Lemma sql_text_printed (s t : string) : printed dbt s t (sql_text dbt s t).
Proof.
  unfold sql_text.
  destruct (output_kinds (dbt (command_of s t))) as [H|[q H]].
  - now rewrite (build_nothing _ _ H).
  - now rewrite (build_model _ _ _ H).
Qed.

Lemma printed_sql_text (s t : string) (r : option string) :
  printed dbt s t r -> sql_text dbt s t = r.
Proof.
  unfold sql_text. destruct r as [q|]; cbn [printed]; intros H.
  - now rewrite (build_model _ _ _ H).
  - now rewrite (build_nothing _ _ H).
Qed.

Lemma printed_all_sql_text (s : string) (ts : list string)
  (rs : list (option string)) :
  Forall2 (printed dbt s) ts rs -> rs = map (sql_text dbt s) ts.
Proof.
  induction 1 as [|t r ts rs Hp _ IH]; [reflexivity|].
  cbn [map]. now rewrite (printed_sql_text _ _ _ Hp), IH.
Qed.

Lemma build_sql_text (s t : string) :
  build_sql_query dbt s t
  = (RunCmd (command_of s t)
     :: match sql_text dbt s t with
        | Some _ => []
        | None => [LogWarning ("Could not extract SQL content for " ++ t
                               ++ ". Check the dbt output.")]
        end,
     inl (sql_text dbt s t)).
Proof.
  unfold sql_text.
  destruct (output_kinds (dbt (command_of s t))) as [H|[q H]].
  - now rewrite (build_nothing _ _ H).
  - now rewrite (build_model _ _ _ H).
Qed.

Lemma sql_text_truthy (s t q : string) :
  sql_text dbt s t = Some q -> truthy (Some q) = true.
Proof.
  intros H. pose proof (sql_text_printed s t) as Hp. rewrite H in Hp.
  destruct Hp as (pre & body & tail & _ & _ & _ & _ & ->). reflexivity.
Qed.

(** *** One table *)

Lemma used_table_steps (output_dir s t : string) :
  can_open (model_path output_dir s t) = true ->
  used_table dbt can_open output_dir s t
  = (table_steps output_dir s t (sql_text dbt s t), inl tt).
Proof.
  intros Ho. unfold used_table. rewrite build_sql_text. unfold bind.
  destruct (sql_text dbt s t) as [q|] eqn:E; [|reflexivity].
  rewrite (sql_text_truthy _ _ _ E). unfold write_file.
  fold (file_name s t). fold (model_path output_dir s t).
  rewrite Ho. reflexivity.
Qed.

Lemma used_table_skips (output_dir s t : string) :
  sql_text dbt s t = None ->
  used_table dbt can_open output_dir s t
  = (table_steps output_dir s t None, inl tt).
Proof.
  intros E. unfold used_table. rewrite build_sql_text, E. reflexivity.
Qed.

Lemma used_table_refused (output_dir s t q : string) :
  sql_text dbt s t = Some q ->
  can_open (model_path output_dir s t) = false ->
  used_table dbt can_open output_dir s t
  = ([RunCmd (command_of s t)], inr (OSError (model_path output_dir s t))).
Proof.
  intros E Ho. unfold used_table. rewrite build_sql_text, E. unfold bind.
  rewrite (sql_text_truthy _ _ _ E). unfold write_file.
  fold (file_name s t). fold (model_path output_dir s t).
  rewrite Ho. reflexivity.
Qed.

(** *** A batch of tables *)

Lemma run_steps_cons (output_dir s t : string) (ts : list string) :
  run_steps dbt output_dir s (t :: ts)
  = (table_steps output_dir s t (sql_text dbt s t)
     ++ run_steps dbt output_dir s ts)%list.
Proof. reflexivity. Qed.

Lemma run_steps_app (output_dir s : string) (a b : list string) :
  run_steps dbt output_dir s (a ++ b)
  = (run_steps dbt output_dir s a ++ run_steps dbt output_dir s b)%list.
Proof.
  induction a as [|t a IH]; [reflexivity|].
  cbn [app]. rewrite !run_steps_cons, IH. now rewrite List.app_assoc.
Qed.

Lemma run_steps_batch (output_dir s : string) (ts : list string)
  (rs : list (option string)) :
  Forall2 (printed dbt s) ts rs ->
  run_steps dbt output_dir s ts = batch output_dir s ts rs.
Proof.
  intros H. unfold run_steps. now rewrite (printed_all_sql_text _ _ _ H).
Qed.

Lemma opens_all_cons (output_dir s t : string) (ts : list string) :
  opens_all can_open output_dir s (t :: ts) ->
  can_open (model_path output_dir s t) = true
  /\ opens_all can_open output_dir s ts.
Proof.
  intros H. split; [apply H; now left|]. intros x Hx. apply H. now right.
Qed.

Lemma opens_all_app (output_dir s : string) (a b : list string) :
  opens_all can_open output_dir s (a ++ b) ->
  opens_all can_open output_dir s a /\ opens_all can_open output_dir s b.
Proof.
  intros H. split; intros x Hx; apply H; apply in_or_app; auto.
Qed.

Lemma for_each_used (output_dir s : string) (ts : list string) :
  opens_all can_open output_dir s ts ->
  for_each ts (used_table dbt can_open output_dir s)
  = (run_steps dbt output_dir s ts, inl tt).
Proof.
  induction ts as [|t ts IH]; intros H; [reflexivity|].
  apply opens_all_cons in H. destruct H as [Ht H].
  cbn [for_each]. rewrite (used_table_steps _ _ _ Ht). unfold bind.
  now rewrite (IH H).
Qed.

Lemma for_each_refused (output_dir s : string)
  (before : list string) (t q : string) (after : list string) :
  opens_all can_open output_dir s before ->
  sql_text dbt s t = Some q ->
  can_open (model_path output_dir s t) = false ->
  for_each (before ++ t :: after) (used_table dbt can_open output_dir s)
  = ((run_steps dbt output_dir s before ++ [RunCmd (command_of s t)])%list,
     inr (OSError (model_path output_dir s t))).
Proof.
  intros Hb Hq Ho. induction before as [|x before IH].
  - cbn [app for_each]. now rewrite (used_table_refused _ _ _ _ Hq Ho).
  - apply opens_all_cons in Hb. destruct Hb as [Hx Hb].
    cbn [app for_each]. rewrite (used_table_steps _ _ _ Hx). unfold bind.
    rewrite (IH Hb). rewrite run_steps_cons. now rewrite List.app_assoc.
Qed.

Lemma makedirs_made (path : string) :
  path <> EmptyString -> can_make path = true ->
  makedirs can_make path = ([MakeDirs path], inl tt).
Proof.
  intros Hp Hm. unfold makedirs. rewrite Hm.
  destruct path; [contradiction|reflexivity].
Qed.

Lemma makedirs_refused (path : string) :
  path = EmptyString \/ can_make path = false ->
  makedirs can_make path = ([], inr (OSError path)).
Proof.
  intros [->|Hm]; [reflexivity|]. unfold makedirs.
  now rewrite Hm, andb_false_r.
Qed.

Lemma used_run (tree : Fs.dir) (directory s output_dir : string) :
  output_dir <> EmptyString -> can_make output_dir = true ->
  opens_all can_open output_dir s
    (keys (get_sources_used_with_source_func tree directory s)) ->
  generate_sql_files_from_used_sources dbt can_make can_open
    tree directory s output_dir
  = (MakeDirs output_dir
     :: (run_steps dbt output_dir s
           (keys (get_sources_used_with_source_func tree directory s))
         ++ [count_line
               (List.length
                  (get_sources_used_with_source_func tree directory s))])
        %list,
     inl tt).
Proof.
  intros Hp Hm Ho. unfold generate_sql_files_from_used_sources.
  cbv zeta. rewrite (makedirs_made _ Hp Hm), (for_each_used _ _ _ Ho).
  reflexivity.
Qed.

(** *** The tables of a document *)

Lemma bind_ret {A B} (a : A) (f : A -> M B) : bind (ret a) f = f a.
Proof. unfold bind, ret. now destruct (f a). Qed.

Lemma yml_table_entry (output_dir s : string) (y : yaml) (t : string) :
  table_entry y t ->
  yml_table dbt can_open output_dir s y
  = used_table dbt can_open output_dir s t.
Proof.
  intros (kv & -> & Hn). unfold yml_table, used_table, subscript.
  rewrite Hn. unfold format. now rewrite !bind_ret.
Qed.

Lemma for_each_entries (output_dir s : string) (tbls : list yaml)
  (ts : list string) :
  Forall2 table_entry tbls ts ->
  for_each tbls (yml_table dbt can_open output_dir s)
  = for_each ts (used_table dbt can_open output_dir s).
Proof.
  induction 1 as [|y t tbls ts Hy _ IH]; [reflexivity|].
  cbn [for_each]. now rewrite (yml_table_entry _ _ _ _ Hy), IH.
Qed.

Lemma yml_tables (output_dir s : string) (tbls : list yaml)
  (ts : list string) :
  Forall2 table_entry tbls ts ->
  opens_all can_open output_dir s ts ->
  for_each tbls (yml_table dbt can_open output_dir s)
  = (run_steps dbt output_dir s ts, inl tt).
Proof.
  intros H Ho. rewrite (for_each_entries _ _ _ _ H). now apply for_each_used.
Qed.

Lemma yml_source_entry (output_dir s : string) (y : yaml)
  (e : string * list string) :
  source_entry y e ->
  opens_all can_open output_dir s
    (if String.eqb (fst e) s then snd e else []) ->
  yml_source dbt can_open output_dir s y
  = (run_steps dbt output_dir s
       (if String.eqb (fst e) s then snd e else []), inl tt).
Proof.
  intros (kv & tbls & -> & Hn & Ht & Hall) Ho.
  unfold yml_source, subscript. rewrite Hn. simpl.
  destruct (String.eqb (fst e) s); [|reflexivity].
  rewrite Ht. simpl. now rewrite (yml_tables _ _ _ _ Hall Ho).
Qed.

Lemma yml_sources (output_dir s : string) (srcs : list yaml) (d : declared) :
  Forall2 source_entry srcs d ->
  opens_all can_open output_dir s (tables_of d s) ->
  for_each srcs (yml_source dbt can_open output_dir s)
  = (run_steps dbt output_dir s (tables_of d s), inl tt).
Proof.
  induction 1 as [|y e srcs d Hy _ IH]; intros Ho; [reflexivity|].
  unfold tables_of in Ho. cbn [flat_map] in Ho.
  apply opens_all_app in Ho. destruct Ho as [Ho1 Ho2].
  cbn [for_each]. rewrite (yml_source_entry _ _ _ _ Hy Ho1). unfold bind.
  rewrite (IH Ho2).
  change (tables_of (e :: d) s)
    with ((if String.eqb (fst e) s then snd e else [])
          ++ tables_of d s)%list.
  now rewrite run_steps_app.
Qed.

Lemma yml_run (yaml_path s : string) (y : yaml) (d : declared) :
  document y d ->
  dirname yaml_path <> EmptyString -> can_make (dirname yaml_path) = true ->
  opens_all can_open (dirname yaml_path) s (tables_of d s) ->
  generate_source_models_from_yml dbt can_make can_open yaml_path y s
  = (MakeDirs (dirname yaml_path)
     :: run_steps dbt (dirname yaml_path) s (tables_of d s),
     inl tt).
Proof.
  intros (kv & srcs & -> & Hs & Hall) Hp Hm Ho.
  unfold generate_source_models_from_yml. cbv zeta.
  rewrite (makedirs_made _ Hp Hm). unfold subscript. rewrite Hs. simpl.
  now rewrite (yml_sources _ _ _ _ Hall Ho).
Qed.

(** *** What a batch writes and runs *)

Lemma written_app (a b : list event) :
  written (a ++ b) = (written a ++ written b)%list.
Proof. apply flat_map_app. Qed.

Lemma commands_app (a b : list event) :
  commands (a ++ b) = (commands a ++ commands b)%list.
Proof. apply flat_map_app. Qed.

Lemma commands_run_steps (output_dir s : string) (ts : list string) :
  commands (run_steps dbt output_dir s ts) = map (command_of s) ts.
Proof.
  induction ts as [|t ts IH]; [reflexivity|].
  rewrite run_steps_cons, commands_app, IH.
  now destruct (sql_text dbt s t).
Qed.

Lemma written_run_steps (output_dir s : string) (ts : list string) :
  written (run_steps dbt output_dir s ts)
  = flat_map (fun t => match sql_text dbt s t with
                       | Some q => [(model_path output_dir s t, q)]
                       | None => []
                       end) ts.
Proof.
  induction ts as [|t ts IH]; [reflexivity|].
  rewrite run_steps_cons, written_app, IH. cbn [flat_map].
  destruct (sql_text dbt s t); reflexivity.
Qed.

Lemma written_in_run_steps (output_dir s : string) (ts : list string)
  (p c : string) :
  In (p, c) (written (run_steps dbt output_dir s ts)) <->
  exists t, In t ts /\ p = model_path output_dir s t
            /\ prints_model (dbt (command_of s t)) c.
Proof.
  rewrite written_run_steps, in_flat_map. split.
  - intros (t & Ht & Hin). exists t. split; [exact Ht|].
    pose proof (sql_text_printed s t) as Hp.
    destruct (sql_text dbt s t) as [q|]; [|contradiction].
    destruct Hin as [E|[]]. injection E as <- <-. now split.
  - intros (t & Ht & -> & Hp). exists t. split; [exact Ht|].
    rewrite (printed_sql_text s t (Some c) Hp). now left.
Qed.

Lemma tables_of_absent (d : declared) (s : string) :
  ~ In s (map fst d) -> tables_of d s = [].
Proof.
  induction d as [|e d IH]; intros H; [reflexivity|].
  unfold tables_of. simpl.
  destruct (String.eqb_spec (fst e) s) as [E|_].
  - exfalso. apply H. now left.
  - apply IH. intros Hin. apply H. now right.
Qed.

Lemma tables_of_unique (d : declared) (s : string) (ts : list string) :
  NoDup (map fst d) -> In (s, ts) d -> tables_of d s = ts.
Proof.
  induction d as [|e d IH]; intros Hnd Hin; [contradiction|].
  simpl in Hnd. inversion Hnd as [|? ? Hnot Hnd']; subst.
  unfold tables_of. simpl. destruct Hin as [->|Hin].
  - simpl. rewrite String.eqb_refl.
    fold (tables_of d s). rewrite tables_of_absent by exact Hnot.
    apply List.app_nil_r.
  - destruct (String.eqb_spec (fst e) s) as [E|_].
    + exfalso. apply Hnot. rewrite E.
      change s with (fst (s, ts)). now apply in_map.
    + now apply IH.
Qed.

Lemma for_each_app_ok {A} (body : A -> M unit) (a b : list A)
  (tr : list event) :
  for_each a body = (tr, inl tt) ->
  for_each (a ++ b) body
  = ((tr ++ fst (for_each b body))%list, snd (for_each b body)).
Proof.
  revert tr. induction a as [|x a IH]; intros tr H.
  - cbn [for_each] in H. injection H as <-. cbn [app].
    now destruct (for_each b body).
  - cbn [app for_each] in *. unfold bind in *.
    destruct (body x) as [tx [[]|e]]; [|discriminate].
    destruct (for_each a body) as [ta [[]|e]] eqn:Ea; [|discriminate].
    injection H as <-. rewrite (IH ta eq_refl).
    now rewrite List.app_assoc.
Qed.

(** C3: when the marker occurs in the output of the command, the
    generator returns the text from the first occurrence of the marker
    to the end of the output without the white space that ends it, a
    text that begins with the marker; when the marker does not occur it
    logs the warning and returns [None]; and every output is of one of
    these two kinds. *)
Theorem build_sql_query_extracts (s t : string) :
  let out := dbt (command_of s t) in
  (forall pre body tail,
      out = pre ++ "with source" ++ body ++ tail ->
      (forall pre' post', out = pre' ++ "with source" ++ post' ->
                          String.length pre <= String.length pre') ->
      ends_clean body = true -> all isspace tail = true ->
      build_sql_query dbt s t
      = ([RunCmd (command_of s t)], inl (Some ("with source" ++ body))))
  /\ ((forall pre post, out <> pre ++ "with source" ++ post) ->
      build_sql_query dbt s t
      = ([RunCmd (command_of s t);
          LogWarning ("Could not extract SQL content for " ++ t
                      ++ ". Check the dbt output.")],
         inl None))
  /\ ((forall pre post, out <> pre ++ "with source" ++ post)
      \/ exists pre body tail,
           out = pre ++ "with source" ++ body ++ tail
           /\ (forall pre' post', out = pre' ++ "with source" ++ post' ->
                                  String.length pre <= String.length pre')
           /\ ends_clean body = true /\ all isspace tail = true).
Proof.
  intros out. split; [|split].
  - intros pre body tail E Hmin Hc Ht. apply build_model.
    exists pre, body, tail. now repeat split.
  - intros Hno. now apply build_nothing.
  - destruct (output_kinds out)
      as [H|(q & pre & body & tail & E & Hmin & Hc & Ht & _)];
      [now left|right].
    now exists pre, body, tail.
Qed.

(** C5: in a used-sources batch, a table for which the output of the
    command lacks the marker gets its command and the warning that names
    it, and no file; the tables before and after it get their command
    and, where the output holds the marker, their file, written with the
    text behind the marker; and the run ends normally with its closing
    line. *)
Theorem missing_marker_skips_table
  (tree : Fs.dir) (directory s output_dir : string)
  (before : list string) (t : string) (after : list string)
  (rb ra : list (option string)) :
  let idx := get_sources_used_with_source_func tree directory s in
  let run := generate_sql_files_from_used_sources dbt can_make can_open
               tree directory s output_dir in
  keys idx = (before ++ t :: after)%list ->
  output_dir <> EmptyString -> can_make output_dir = true ->
  opens_all can_open output_dir s (before ++ after)%list ->
  Forall2 (printed dbt s) before rb -> Forall2 (printed dbt s) after ra ->
  prints_nothing (dbt (command_of s t)) ->
  run = (MakeDirs output_dir
         :: (batch output_dir s before rb
             ++ [RunCmd (command_of s t);
                 LogWarning ("Could not extract SQL content for " ++ t
                             ++ ". Check the dbt output.")]
             ++ batch output_dir s after ra
             ++ [count_line (List.length idx)])%list,
         inl tt)
  /\ written (trace run)
     = (written (batch output_dir s before rb)
        ++ written (batch output_dir s after ra))%list
  /\ (forall t' q,
        In t' (before ++ after)%list ->
        prints_model (dbt (command_of s t')) q ->
        In (model_path output_dir s t', q) (written (trace run))).
Proof.
  intros idx run Hk Hp Hm Ho Hrb Hra Hno.
  apply opens_all_app in Ho. destruct Ho as [Hob Hoa].
  assert (Ht : sql_text dbt s t = None)
    by now apply (printed_sql_text s t None).
  assert (E : run
              = (MakeDirs output_dir
                 :: (run_steps dbt output_dir s before
                     ++ table_steps output_dir s t None
                     ++ run_steps dbt output_dir s after
                     ++ [count_line (List.length idx)])%list,
                 inl tt)).
  { unfold run, generate_sql_files_from_used_sources. cbv zeta.
    rewrite (makedirs_made _ Hp Hm). fold idx. rewrite Hk.
    rewrite (for_each_app_ok _ _ _ _ (for_each_used _ _ _ Hob)).
    cbn [for_each]. rewrite (used_table_skips _ _ _ Ht). unfold bind.
    rewrite (for_each_used _ _ _ Hoa). cbn [fst snd emit count_line].
    now rewrite <- !List.app_assoc. }
  rewrite E, (run_steps_batch _ _ _ _ Hrb), (run_steps_batch _ _ _ _ Hra).
  split; [reflexivity|]. unfold trace. cbn [fst].
  assert (Ew : written
                 (MakeDirs output_dir
                  :: (batch output_dir s before rb
                      ++ table_steps output_dir s t None
                      ++ batch output_dir s after ra
                      ++ [count_line (List.length idx)])%list)
               = (written (batch output_dir s before rb)
                  ++ written (batch output_dir s after ra))%list).
  { change (MakeDirs output_dir :: ?l) with ([MakeDirs output_dir] ++ l)%list.
    rewrite !written_app. cbn. now rewrite List.app_nil_r. }
  split; [exact Ew|]. intros t' q Hin Hq. rewrite Ew.
  rewrite <- (run_steps_batch _ _ _ _ Hrb), <- (run_steps_batch _ _ _ _ Hra).
  apply in_or_app. apply in_app_or in Hin.
  destruct Hin as [Hin|Hin]; [left|right];
    apply written_in_run_steps; now exists t'.
Qed.

(** C6: on a well-formed document, with its directory made and the
    files of the tables opened, the definition-document pipeline ends
    normally and runs the generator for exactly the tables declared
    under the requested source, in document order; for a source the
    document does not declare it does nothing but make the directory. *)
Theorem yml_enumerates_declared_tables
  (yaml_path s : string) (y : yaml) (d : declared) :
  let run := generate_source_models_from_yml dbt can_make can_open
               yaml_path y s in
  document y d ->
  dirname yaml_path <> EmptyString -> can_make (dirname yaml_path) = true ->
  opens_all can_open (dirname yaml_path) s (tables_of d s) ->
  snd run = inl tt
  /\ commands (trace run) = map (command_of s) (tables_of d s)
  /\ (forall ts, NoDup (map fst d) -> In (s, ts) d -> tables_of d s = ts)
  /\ (~ In s (map fst d) -> run = ([MakeDirs (dirname yaml_path)], inl tt)).
Proof.
  intros run Hd Hp Hm Ho. unfold run.
  rewrite (yml_run _ _ _ _ Hd Hp Hm Ho). unfold trace. cbn [fst snd].
  repeat split.
  - change (MakeDirs (dirname yaml_path) :: ?l)
      with ([MakeDirs (dirname yaml_path)] ++ l)%list.
    rewrite commands_app. apply commands_run_steps.
  - intros ts. apply tables_of_unique.
  - intros Hs. now rewrite tables_of_absent.
Qed.

(** C8: both pipelines name the file of table [t] of source [s]
    [source_<s>__<t>.sql] and put it in their output directory: every
    file either of them writes has such a name, for a table of its
    enumeration, and a table for which the command prints a model is
    written under that name by the pipeline that enumerates it. *)
Theorem both_pipelines_name_files_alike
  (tree : Fs.dir) (directory s output_dir yaml_path : string)
  (y : yaml) (d : declared) :
  let idx := get_sources_used_with_source_func tree directory s in
  let used := trace (generate_sql_files_from_used_sources
                       dbt can_make can_open tree directory s output_dir) in
  let yml := trace (generate_source_models_from_yml
                      dbt can_make can_open yaml_path y s) in
  document y d ->
  output_dir <> EmptyString -> can_make output_dir = true ->
  opens_all can_open output_dir s (keys idx) ->
  dirname yaml_path <> EmptyString -> can_make (dirname yaml_path) = true ->
  opens_all can_open (dirname yaml_path) s (tables_of d s) ->
  (forall p c, In (p, c) (written used) ->
               exists t, In t (keys idx)
                         /\ p = path_join output_dir
                                  ("source_" ++ s ++ "__" ++ t ++ ".sql"))
  /\ (forall p c, In (p, c) (written yml) ->
                  exists t, In t (tables_of d s)
                            /\ p = path_join (dirname yaml_path)
                                     ("source_" ++ s ++ "__" ++ t ++ ".sql"))
  /\ (forall t q,
        prints_model (dbt (command_of s t)) q ->
        (In t (keys idx) ->
         In (path_join output_dir ("source_" ++ s ++ "__" ++ t ++ ".sql"), q)
            (written used))
        /\ (In t (tables_of d s) ->
            In (path_join (dirname yaml_path)
                  ("source_" ++ s ++ "__" ++ t ++ ".sql"), q)
               (written yml))).
Proof.
  intros idx used yml Hd Hp Hm Ho Hp' Hm' Ho'.
  assert (Eu : written used = written (run_steps dbt output_dir s (keys idx))).
  { unfold used, trace. rewrite (used_run _ _ _ _ Hp Hm Ho). cbn [fst].
    fold idx.
    change (MakeDirs output_dir :: ?l) with ([MakeDirs output_dir] ++ l)%list.
    rewrite !written_app. cbn. now rewrite List.app_nil_r. }
  assert (Ey : written yml
               = written (run_steps dbt (dirname yaml_path) s
                            (tables_of d s))).
  { unfold yml, trace. now rewrite (yml_run _ _ _ _ Hd Hp' Hm' Ho'). }
  rewrite Eu, Ey. split; [|split].
  - intros p c H. apply written_in_run_steps in H.
    destruct H as (t & Ht & -> & _). now exists t.
  - intros p c H. apply written_in_run_steps in H.
    destruct H as (t & Ht & -> & _). now exists t.
  - intros t q Hq. split; intros Ht; apply written_in_run_steps;
      now exists t.
Qed.

End WithEnv.

Lemma example_document : document Ex.doc Ex.doc_declares.
Proof.
  unfold document, Ex.doc, Ex.doc_declares.
  eexists _, _. split; [reflexivity|]. split; [reflexivity|].
  repeat (constructor;
          [first [ eexists _, _; repeat (split; [reflexivity|])
                 | eexists; split; reflexivity ]|]).
  all: repeat constructor.
  all: try (eexists; split; reflexivity).
Qed.

Lemma willing_opens (output_dir s : string) (ts : list string) :
  opens_all Ex.willing output_dir s ts.
Proof. intros t _. reflexivity. Qed.

(** What the command of the examples prints. *)
Lemma example_model (t : string) :
  String.eqb (command_of "sup" t) (command_of "sup" "bad") = false ->
  prints_model (Ex.dbt (command_of "sup" t)) Ex.model.
Proof.
  intros H. unfold Ex.dbt. rewrite H.
  apply (prints_model_by_find (Ex.banner ++ Ex.model ++ Ex.newline)
           Ex.banner " as (select * from raw) select * from source"
           Ex.newline);
    vm_compute; reflexivity.
Qed.

Lemma example_nothing : prints_nothing (Ex.dbt (command_of "sup" "bad")).
Proof. apply prints_nothing_by_find. vm_compute. reflexivity. Qed.

Lemma build_sql_query_extracts_witness :
  build_sql_query Ex.dbt "sup" "orders"
  = ([RunCmd (command_of "sup" "orders")],
     inl (Some ("with source"
                ++ " as (select * from raw) select * from source"))).
Proof.
  apply (proj1 (build_sql_query_extracts Ex.dbt "sup" "orders")
           Ex.banner " as (select * from raw) select * from source"
           Ex.newline).
  - vm_compute. reflexivity.
  - apply (first_by_find _ "with source" Ex.banner
             (" as (select * from raw) select * from source" ++ Ex.newline));
      vm_compute; reflexivity.
  - vm_compute. reflexivity.
  - vm_compute. reflexivity.
Defined.

Lemma missing_marker_skips_table_witness :
  written
    (trace (generate_sql_files_from_used_sources
              Ex.dbt Ex.willing Ex.willing
              Ex.tree "models" "sup" "models/sources/sup"))
  = [ ("models/sources/sup/source_sup__orders.sql", Ex.model);
      ("models/sources/sup/source_sup__clicks.sql", Ex.model) ].
Proof.
  destruct (missing_marker_skips_table Ex.dbt Ex.willing Ex.willing
              Ex.tree "models" "sup" "models/sources/sup"
              ["orders"] "bad" ["clicks"] [Some Ex.model] [Some Ex.model])
    as (_ & H & _).
  - vm_compute. reflexivity.
  - discriminate.
  - reflexivity.
  - apply willing_opens.
  - constructor; [|constructor]. apply example_model.
    vm_compute. reflexivity.
  - constructor; [|constructor]. apply example_model.
    vm_compute. reflexivity.
  - exact example_nothing.
  - etransitivity; [exact H|]. vm_compute. reflexivity.
Defined.

Lemma yml_enumerates_declared_tables_witness :
  commands
    (trace (generate_source_models_from_yml
              Ex.dbt Ex.willing Ex.willing
              "models/sources/sup/sup.yml" Ex.doc "sup"))
  = map (command_of "sup") ["orders"; "bad"; "clicks"].
Proof.
  destruct (yml_enumerates_declared_tables Ex.dbt Ex.willing Ex.willing
              "models/sources/sup/sup.yml" "sup" Ex.doc Ex.doc_declares
              example_document)
    as (_ & H & _).
  - vm_compute. discriminate.
  - reflexivity.
  - apply willing_opens.
  - etransitivity; [exact H|]. vm_compute. reflexivity.
Defined.

Lemma both_pipelines_name_files_alike_witness :
  In ("models/sources/sup/source_sup__orders.sql", Ex.model)
     (written
        (trace (generate_sql_files_from_used_sources
                  Ex.dbt Ex.willing Ex.willing
                  Ex.tree "models" "sup" "models/sources/sup")))
  /\ In ("models/sources/sup/source_sup__orders.sql", Ex.model)
        (written
           (trace (generate_source_models_from_yml
                     Ex.dbt Ex.willing Ex.willing
                     "models/sources/sup/sup.yml" Ex.doc "sup"))).
Proof.
  assert (H : prints_model (Ex.dbt (command_of "sup" "orders")) Ex.model)
    by (apply example_model; vm_compute; reflexivity).
  destruct (both_pipelines_name_files_alike Ex.dbt Ex.willing Ex.willing
              Ex.tree "models" "sup" "models/sources/sup"
              "models/sources/sup/sup.yml" Ex.doc Ex.doc_declares
              example_document)
    as (_ & _ & Hw).
  - discriminate.
  - reflexivity.
  - apply willing_opens.
  - vm_compute. discriminate.
  - reflexivity.
  - apply willing_opens.
  - destruct (Hw "orders" Ex.model H) as [Hu Hy]. split.
    + apply Hu. vm_compute. left. reflexivity.
    + apply Hy. vm_compute. left. reflexivity.
Defined.

End GenFacts.

(** ** Runs of the generator *)

Module RunFacts.
Import Py PyFacts Re Gen Obs Run GenFacts.

Section WithEnv.
Variable dbt : string -> string.
Variables can_make can_open : string -> bool.

Lemma warned_app (a b : list event) :
  warned (a ++ b) = (warned a ++ warned b)%list.
Proof. apply flat_map_app. Qed.

Lemma batch_outcome (output_dir s : string) (ts : list string) :
  List.length (written (run_steps dbt output_dir s ts))
  + List.length (warned (run_steps dbt output_dir s ts))
  = List.length ts.
Proof.
  induction ts as [|t ts IH]; [reflexivity|].
  rewrite run_steps_cons, written_app, warned_app, !List.length_app.
  cbn [List.length]. destruct (sql_text dbt s t); cbn; lia.
Qed.

(** X3: when the output directory is made and the files of the tables
    are opened, a used-sources run ends normally; it runs the command
    once for every table of the index, in the order of the index; every
    table ends in one file written or in one warning; and the closing
    log line counts the tables, written or not. *)
Theorem used_sources_run_shape
  (tree : Fs.dir) (directory s output_dir : string) :
  let idx := get_sources_used_with_source_func tree directory s in
  let run := generate_sql_files_from_used_sources dbt can_make can_open
               tree directory s output_dir in
  output_dir <> EmptyString -> can_make output_dir = true ->
  opens_all can_open output_dir s (keys idx) ->
  snd run = inl tt
  /\ commands (trace run) = map (command_of s) (keys idx)
  /\ List.length (written (trace run)) + List.length (warned (trace run))
     = List.length idx
  /\ last (trace run) (MakeDirs output_dir)
     = LogInfo ("Generated SQL files for "
                ++ str_of_nat (List.length idx)
                ++ " tables used in the project.").
Proof.
  intros idx run Hp Hm Ho. unfold run.
  rewrite (used_run dbt can_make can_open _ _ _ _ Hp Hm Ho).
  unfold trace. cbn [fst snd]. fold idx. repeat split.
  - change (MakeDirs output_dir :: ?l) with ([MakeDirs output_dir] ++ l)%list.
    rewrite !commands_app, commands_run_steps. cbn. apply List.app_nil_r.
  - change (MakeDirs output_dir :: ?l) with ([MakeDirs output_dir] ++ l)%list.
    rewrite !written_app, !warned_app, !List.length_app. cbn.
    pose proof (batch_outcome output_dir s (keys idx)) as H.
    unfold keys in H at 3. rewrite length_map in H. lia.
  - change (MakeDirs output_dir :: ?l ++ ?x)%list
      with ((MakeDirs output_dir :: l) ++ x)%list.
    apply last_last.
Qed.

Lemma refusal_stops_used_run
  (tree : Fs.dir) (directory s output_dir : string) :
  let idx := get_sources_used_with_source_func tree directory s in
  let run := generate_sql_files_from_used_sources dbt can_make can_open
               tree directory s output_dir in
  (output_dir = EmptyString \/ can_make output_dir = false ->
   run = ([], inr (OSError output_dir)))
  /\ (forall before t q after,
        keys idx = (before ++ t :: after)%list ->
        output_dir <> EmptyString -> can_make output_dir = true ->
        opens_all can_open output_dir s before ->
        prints_model (dbt (command_of s t)) q ->
        can_open (model_path output_dir s t) = false ->
        run = (MakeDirs output_dir
               :: (run_steps dbt output_dir s before
                   ++ [RunCmd (command_of s t)])%list,
               inr (OSError (model_path output_dir s t)))).
Proof.
  intros idx run. unfold run, generate_sql_files_from_used_sources.
  cbv zeta. fold idx. split.
  - intros H. now rewrite (makedirs_refused _ _ H).
  - intros before t q after Hk Hp Hm Hb Hq Ho.
    rewrite (makedirs_made _ _ Hp Hm), Hk.
    now rewrite (for_each_refused dbt can_open _ _ _ _ q _ Hb
                   (printed_sql_text dbt s t (Some q) Hq) Ho).
Qed.

(** X19: a refusal of the operating system stops a used-sources run.
    When the output directory is not made, nothing is done at all; when
    the file of a table with a model cannot be opened, the tables before
    it have been generated, its own command has been run, and neither a
    later table nor the closing line follows. *)
Theorem used_sources_run_stops_at_refusal
  (tree : Fs.dir) (directory s output_dir : string)
  (before : list string) (t q : string) (after : list string)
  (rb : list (option string)) :
  let idx := get_sources_used_with_source_func tree directory s in
  let run := generate_sql_files_from_used_sources dbt can_make can_open
               tree directory s output_dir in
  (output_dir = EmptyString \/ can_make output_dir = false ->
   run = ([], inr (OSError output_dir)))
  /\ (keys idx = (before ++ t :: after)%list ->
      output_dir <> EmptyString -> can_make output_dir = true ->
      opens_all can_open output_dir s before ->
      Forall2 (printed dbt s) before rb ->
      prints_model (dbt (command_of s t)) q ->
      can_open (model_path output_dir s t) = false ->
      run = (MakeDirs output_dir
             :: (batch output_dir s before rb
                 ++ [RunCmd (command_of s t)])%list,
             inr (OSError (model_path output_dir s t)))).
Proof.
  intros idx run.
  destruct (refusal_stops_used_run
              tree directory s output_dir) as [E1 E2].
  split; [exact E1|]. intros Hk Hp Hm Hb Hrb Hq Ho. unfold run.
  rewrite (E2 before t q after Hk Hp Hm Hb Hq Ho).
  now rewrite (run_steps_batch dbt _ _ _ _ Hrb).
Qed.

(** *** Runs over documents *)

Lemma yml_entry_for (output_dir s : string) (y : yaml) (ts : list string) :
  entry_for s y ts ->
  opens_all can_open output_dir s ts ->
  yml_source dbt can_open output_dir s y
  = (run_steps dbt output_dir s ts, inl tt).
Proof.
  intros [kv tbls ts' Hn Ht Hall|kv v Hn Hv] Ho;
    unfold yml_source, subscript; rewrite Hn; simpl.
  - rewrite String.eqb_refl, Ht. simpl.
    now rewrite (yml_tables dbt can_open _ _ _ _ Hall Ho).
  - now rewrite Hv.
Qed.

Lemma yml_entries_for (output_dir s : string) (srcs : list yaml)
  (tss : list (list string)) :
  Forall2 (entry_for s) srcs tss ->
  opens_all can_open output_dir s (concat tss) ->
  for_each srcs (yml_source dbt can_open output_dir s)
  = (run_steps dbt output_dir s (concat tss), inl tt).
Proof.
  induction 1 as [|y ts srcs tss Hy _ IH]; intros Ho; [reflexivity|].
  cbn [concat] in Ho. apply opens_all_app in Ho. destruct Ho as [Ho1 Ho2].
  cbn [for_each concat]. rewrite (yml_entry_for _ _ _ _ Hy Ho1).
  unfold bind. rewrite (IH Ho2). now rewrite run_steps_app.
Qed.

(** X4: with the directory of the document made and the files of the
    tables opened, the run for source [s] reads the tables of the
    entries named [s] only: an entry with another name, of whatever
    kind, may lack its tables.  The run ends normally and generates the
    tables of the entries named [s], in document order. *)
Theorem yml_reads_only_the_named_source
  (yaml_path s : string) (kv : list (string * yaml))
  (srcs : list yaml) (tss : list (list string))
  (rs : list (option string)) :
  assoc "sources" kv = Some (YSeq srcs) ->
  Forall2 (entry_for s) srcs tss ->
  dirname yaml_path <> EmptyString -> can_make (dirname yaml_path) = true ->
  opens_all can_open (dirname yaml_path) s (concat tss) ->
  Forall2 (printed dbt s) (concat tss) rs ->
  generate_source_models_from_yml dbt can_make can_open yaml_path (YMap kv) s
  = (MakeDirs (dirname yaml_path)
     :: batch (dirname yaml_path) s (concat tss) rs,
     inl tt).
Proof.
  intros Hs Hall Hp Hm Ho Hrs.
  unfold generate_source_models_from_yml. cbv zeta.
  rewrite (makedirs_made _ _ Hp Hm). unfold subscript. rewrite Hs. simpl.
  rewrite (yml_entries_for _ _ _ _ Hall Ho).
  now rewrite (run_steps_batch dbt _ _ _ _ Hrs).
Qed.

(** X5: a table entry without a name stops the run with [KeyError]: the
    tables in front of it, in the entries before and in its own entry,
    have been generated, and nothing behind it is. *)
Theorem yml_stops_at_unnamed_table
  (yaml_path s : string) (kv : list (string * yaml))
  (srcs1 : list yaml) (tss1 : list (list string))
  (kvs : list (string * yaml)) (srcs2 : list yaml)
  (tbls1 : list yaml) (ts1 : list string)
  (kvb : list (string * yaml)) (tbls2 : list yaml)
  (rs : list (option string)) :
  assoc "sources" kv = Some (YSeq (srcs1 ++ YMap kvs :: srcs2)) ->
  Forall2 (entry_for s) srcs1 tss1 ->
  assoc "name" kvs = Some (YStr s) ->
  assoc "tables" kvs = Some (YSeq (tbls1 ++ YMap kvb :: tbls2)) ->
  Forall2 table_entry tbls1 ts1 ->
  assoc "name" kvb = None ->
  dirname yaml_path <> EmptyString -> can_make (dirname yaml_path) = true ->
  opens_all can_open (dirname yaml_path) s (concat tss1 ++ ts1)%list ->
  Forall2 (printed dbt s) (concat tss1 ++ ts1)%list rs ->
  generate_source_models_from_yml dbt can_make can_open yaml_path (YMap kv) s
  = (MakeDirs (dirname yaml_path)
     :: batch (dirname yaml_path) s (concat tss1 ++ ts1)%list rs,
     inr (KeyError "name")).
Proof.
  intros Hs Hall1 Hn Ht Htb Hb Hp Hm Ho Hrs.
  apply opens_all_app in Ho. destruct Ho as [Ho1 Ho2].
  assert (Hbad : yml_source dbt can_open (dirname yaml_path) s (YMap kvs)
                 = (run_steps dbt (dirname yaml_path) s ts1,
                    inr (KeyError "name"))).
  { unfold yml_source, subscript. rewrite Hn. simpl.
    rewrite String.eqb_refl, Ht. simpl.
    assert (E : for_each (tbls1 ++ YMap kvb :: tbls2)
                  (yml_table dbt can_open (dirname yaml_path) s)
                = ((run_steps dbt (dirname yaml_path) s ts1 ++ [])%list,
                   inr (KeyError "name"))).
    { clear -Htb Hb Ho2. induction Htb as [|y t tbls ts Hy _ IH].
      - cbn [app for_each]. unfold yml_table at 1, subscript.
        now rewrite Hb.
      - apply opens_all_cons in Ho2. destruct Ho2 as [Hot Ho2].
        cbn [app for_each].
        rewrite (yml_table_entry dbt can_open _ _ _ _ Hy).
        rewrite (used_table_steps dbt can_open _ _ _ Hot). unfold bind.
        rewrite (IH Ho2). rewrite run_steps_cons.
        now rewrite !List.app_nil_r. }
    rewrite E. now rewrite List.app_nil_r. }
  unfold generate_source_models_from_yml. cbv zeta.
  rewrite (makedirs_made _ _ Hp Hm). unfold subscript. rewrite Hs. simpl.
  assert (E : for_each (srcs1 ++ YMap kvs :: srcs2)
                (yml_source dbt can_open (dirname yaml_path) s)
              = ((run_steps dbt (dirname yaml_path) s (concat tss1)
                  ++ run_steps dbt (dirname yaml_path) s ts1)%list,
                 inr (KeyError "name"))).
  { clear -Hall1 Hbad Ho1. induction Hall1 as [|y ts srcs tss Hy _ IH].
    - cbn [app for_each concat]. now rewrite Hbad.
    - cbn [concat] in Ho1. apply opens_all_app in Ho1.
      destruct Ho1 as [Hoa Hob]. cbn [app for_each concat].
      rewrite (yml_entry_for _ _ _ _ Hy Hoa). unfold bind. rewrite (IH Hob).
      now rewrite run_steps_app, List.app_assoc. }
  rewrite E, <- run_steps_app.
  now rewrite (run_steps_batch dbt _ _ _ _ Hrs).
Qed.

(** X6: with its directory made, a document that is not a mapping with
    a list under [sources] stops the run before any table is looked at:
    an empty document and a list raise [TypeError], a mapping without
    the key raises [KeyError], and so does a first entry without a name;
    an empty list of sources ends the run normally. *)
Theorem yml_unusable_document (yaml_path s : string) :
  let dir := dirname yaml_path in
  let run := generate_source_models_from_yml dbt can_make can_open
               yaml_path in
  dir <> EmptyString -> can_make dir = true ->
  run YNull s = ([MakeDirs dir], inr TypeError)
  /\ (forall l, run (YSeq l) s = ([MakeDirs dir], inr TypeError))
  /\ (forall kv, assoc "sources" kv = None ->
                 run (YMap kv) s = ([MakeDirs dir], inr (KeyError "sources")))
  /\ (forall kv, assoc "sources" kv = Some YNull ->
                 run (YMap kv) s = ([MakeDirs dir], inr TypeError))
  /\ (forall kv kv1 rest,
        assoc "sources" kv = Some (YSeq (YMap kv1 :: rest)) ->
        assoc "name" kv1 = None ->
        run (YMap kv) s = ([MakeDirs dir], inr (KeyError "name")))
  /\ (forall kv,
        assoc "sources" kv = Some (YSeq []) ->
        run (YMap kv) s = ([MakeDirs dir], inl tt)).
Proof.
  intros dir run Hp Hm. unfold run, generate_source_models_from_yml.
  cbv zeta. fold dir. rewrite (makedirs_made _ _ Hp Hm).
  repeat split; try reflexivity.
  - intros kv H. unfold subscript. now rewrite H.
  - intros kv H. unfold subscript. now rewrite H.
  - intros kv kv1 rest H H1. unfold subscript. rewrite H. simpl.
    unfold yml_source at 1, subscript. now rewrite H1.
  - intros kv H. unfold subscript. now rewrite H.
Qed.

End WithEnv.

Lemma used_sources_run_shape_witness :
  commands
    (trace (generate_sql_files_from_used_sources
              Ex.dbt Ex.willing Ex.willing
              Ex.tree "models" "sup" "models/sources/sup"))
  = map (command_of "sup") ["orders"; "bad"; "clicks"].
Proof.
  destruct (used_sources_run_shape Ex.dbt Ex.willing Ex.willing
              Ex.tree "models" "sup" "models/sources/sup")
    as (_ & H & _).
  - discriminate.
  - reflexivity.
  - apply willing_opens.
  - etransitivity; [exact H|]. vm_compute. reflexivity.
Defined.

Lemma used_sources_run_stops_at_refusal_witness :
  generate_sql_files_from_used_sources Ex.dbt Ex.willing Ex5.flat
    Ex5.tree "models" "sup" "out"
  = ([MakeDirs "out";
      RunCmd (command_of "sup" "users");
      WriteFile "out/source_sup__users.sql" Ex.model;
      LogInfo "Created out/source_sup__users.sql";
      RunCmd (command_of "sup" "raw/orders")],
     inr (OSError "out/source_sup__raw/orders.sql")).
Proof.
  etransitivity.
  - apply (proj2 (used_sources_run_stops_at_refusal
                    Ex.dbt Ex.willing Ex5.flat Ex5.tree "models" "sup" "out"
                    ["users"] "raw/orders" Ex.model ["clicks"]
                    [Some Ex.model])).
    + vm_compute. reflexivity.
    + discriminate.
    + reflexivity.
    + intros t [<-|[]]. vm_compute. reflexivity.
    + constructor; [|constructor]. apply example_model.
      vm_compute. reflexivity.
    + apply example_model. vm_compute. reflexivity.
    + vm_compute. reflexivity.
  - vm_compute. reflexivity.
Defined.

Lemma yml_reads_only_the_named_source_witness :
  generate_source_models_from_yml Ex.dbt Ex.willing Ex.willing
    "models/sources/sup/sup.yml" Ex2.doc_mixed "sup"
  = ([MakeDirs "models/sources/sup";
      RunCmd (command_of "sup" "orders");
      WriteFile "models/sources/sup/source_sup__orders.sql" Ex.model;
      LogInfo "Created models/sources/sup/source_sup__orders.sql"],
     inl tt).
Proof.
  etransitivity.
  - unfold Ex2.doc_mixed.
    eapply (yml_reads_only_the_named_source Ex.dbt Ex.willing Ex.willing
              "models/sources/sup/sup.yml" "sup" _ _
              [[]; ["orders"]; []] [Some Ex.model]).
    + reflexivity.
    + constructor; [now apply Entry_other with (v := YStr "other")|].
      constructor.
      * eapply Entry_named; [reflexivity|reflexivity|].
        constructor; [|constructor]. eexists. split; reflexivity.
      * constructor; [now apply Entry_other with (v := YNull)|constructor].
    + vm_compute. discriminate.
    + reflexivity.
    + apply willing_opens.
    + constructor; [|constructor]. apply example_model.
      vm_compute. reflexivity.
  - vm_compute. reflexivity.
Defined.

Lemma yml_stops_at_unnamed_table_witness :
  generate_source_models_from_yml Ex.dbt Ex.willing Ex.willing
    "models/sources/sup/sup.yml" Ex2.doc_unnamed "sup"
  = ([MakeDirs "models/sources/sup";
      RunCmd (command_of "sup" "orders");
      WriteFile "models/sources/sup/source_sup__orders.sql" Ex.model;
      LogInfo "Created models/sources/sup/source_sup__orders.sql"],
     inr (KeyError "name")).
Proof.
  etransitivity.
  - unfold Ex2.doc_unnamed.
    apply (yml_stops_at_unnamed_table Ex.dbt Ex.willing Ex.willing
             "models/sources/sup/sup.yml" "sup" _ [] []
             [ ("name", YStr "sup");
               ("tables", YSeq [ YMap [("name", YStr "orders")];
                                 YMap [("description", YStr "raw")];
                                 YMap [("name", YStr "clicks")] ]) ]
             []
             [ YMap [("name", YStr "orders")] ] ["orders"]
             [("description", YStr "raw")]
             [ YMap [("name", YStr "clicks")] ]
             [Some Ex.model]).
    + reflexivity.
    + constructor.
    + reflexivity.
    + reflexivity.
    + constructor; [|constructor]. eexists. split; reflexivity.
    + reflexivity.
    + vm_compute. discriminate.
    + reflexivity.
    + apply willing_opens.
    + constructor; [|constructor]. apply example_model.
      vm_compute. reflexivity.
  - vm_compute. reflexivity.
Defined.

Lemma yml_unusable_document_witness :
  generate_source_models_from_yml Ex.dbt Ex.willing Ex.willing
    "models/sources/sup/sup.yml" YNull "sup"
  = ([MakeDirs "models/sources/sup"], inr TypeError).
Proof.
  etransitivity.
  - apply (yml_unusable_document Ex.dbt Ex.willing Ex.willing
             "models/sources/sup/sup.yml" "sup").
    + vm_compute. discriminate.
    + reflexivity.
  - vm_compute. reflexivity.
Defined.

End RunFacts.

(** ** [main] of the generator *)

Module MainFacts.
Import Py PyFacts Gen Obs GenFacts RunFacts GenMain.

Section WithEnv.
Variable dbt : string -> string.
Variables can_make can_open : string -> bool.
Variable tree_at : string -> Fs.dir.
Variable load : string -> yaml.

Lemma finish_ending (m : M unit) (closing : string) :
  (forall c, snd (finish m closing) <> SystemExit c)
  /\ (forall msg, ~ In (LogError msg) (fst (finish m closing))).
Proof.
  destruct m as [tr [u|e]]; simpl; split; try discriminate.
  - intros msg H. apply in_app_or in H. destruct H as [H|[H|[]]].
    + apply in_map_iff in H. destruct H as (x & Hx & _). discriminate.
    + discriminate.
  - intros msg H. apply in_map_iff in H. destruct H as (x & Hx & _).
    discriminate.
Qed.

(** The two outcomes of [main]. *)
Lemma main_cases (argv : list string) :
  (accepted argv
   /\ exists m closing,
        main dbt can_make can_open tree_at load argv = finish m closing)
  \/ (~ accepted argv
      /\ exists msg, main dbt can_make can_open tree_at load argv
                     = ([LogError msg], SystemExit 1)).
Proof.
  unfold main, fail.
  destruct argv as [|a0 [|a1 [|a2 rest]]];
    try (right; split; [intros H; inversion H|eexists; reflexivity]).
  cbn [List.length Nat.ltb Nat.leb arg nth].
  destruct (String.eqb_spec a1 "used_sources") as [->|Hu].
  - destruct rest as [|a3 [|a4 [|a5 rest]]]; cbn [List.length Nat.eqb negb];
      try (right; split; [intros H; inversion H|eexists; reflexivity]).
    left. split; [constructor|]. eexists _, _. reflexivity.
  - destruct (String.eqb_spec a1 "yaml") as [->|Hy]; cbn [orb].
    + destruct rest as [|a3 [|a4 rest]]; cbn [List.length Nat.eqb negb];
        try (right; split; [intros H; inversion H|eexists; reflexivity]).
      left. split; [constructor|]. eexists _, _. reflexivity.
    + destruct (String.eqb_spec a1 "yml") as [->|Hm].
      * destruct rest as [|a3 [|a4 rest]]; cbn [List.length Nat.eqb negb];
          try (right; split; [intros H; inversion H|eexists; reflexivity]).
        left. split; [constructor|]. eexists _, _. reflexivity.
      * right. split; [|eexists; reflexivity].
        intros H. inversion H; subst; congruence.
Qed.

(** X7: [main] accepts exactly the command lines of its two modes
    ([yml] standing for [yaml]); on any other it logs one error line,
    does nothing else and exits with status 1; and on an accepted one it
    never exits through [sys.exit] nor logs an error of its own. *)
Theorem main_validates_before_acting (argv : list string) :
  (accepted argv <->
   forall c, snd (main dbt can_make can_open tree_at load argv)
             <> SystemExit c)
  /\ (forall c, snd (main dbt can_make can_open tree_at load argv)
                = SystemExit c ->
                c = 1%Z
                /\ exists msg,
                     fst (main dbt can_make can_open tree_at load argv)
                     = [LogError msg])
  /\ (forall msg,
        In (LogError msg)
           (fst (main dbt can_make can_open tree_at load argv)) ->
        snd (main dbt can_make can_open tree_at load argv) = SystemExit 1).
Proof.
  destruct (main_cases argv) as [[Ha (m & closing & E)]|[Hn (msg & E)]];
    rewrite E.
  - destruct (finish_ending m closing) as [H1 H2]. repeat split.
    + intros _. exact H1.
    + intros _. exact Ha.
    + now apply H1 in H.
    + now apply H1 in H.
    + intros msg H. now apply H2 in H.
  - cbn [fst snd]. repeat split.
    + intros H. contradiction.
    + intros H. exfalso. now apply (H 1%Z).
    + now injection H.
    + now exists msg.
Qed.

(** X8: [main] catches nothing.  In [used_sources] mode it returns,
    with the count of the tables and the closing line as its last two
    lines, when the output directory is made and the files are opened;
    when the directory is refused it ends at once with the error of the
    operating system; and when the file of a table is refused it ends
    with that error right behind the command of the table, with neither
    of the two lines. *)
Theorem main_modes (script s dir out : string) :
  let idx := get_sources_used_with_source_func (tree_at dir) dir s in
  let run := main dbt can_make can_open tree_at load
               [script; "used_sources"; s; dir; out] in
  (out <> EmptyString -> can_make out = true ->
   opens_all can_open out s (keys idx) ->
   snd run = Returned
   /\ exists tr,
        fst run
        = (tr ++ [Act (LogInfo
                         ("Generated SQL files for "
                          ++ str_of_nat (List.length idx)
                          ++ " tables used in the project."));
                  Act (LogInfo
                         "All SQL files have been generated from used sources.")])
          %list)
  /\ (out = EmptyString \/ can_make out = false ->
      run = ([], Uncaught (OSError out)))
  /\ (forall before t q after,
        keys idx = (before ++ t :: after)%list ->
        out <> EmptyString -> can_make out = true ->
        opens_all can_open out s before ->
        prints_model (dbt (command_of s t)) q ->
        can_open (model_path out s t) = false ->
        snd run = Uncaught (OSError (model_path out s t))
        /\ exists tr, fst run = (tr ++ [Act (RunCmd (command_of s t))])%list).
Proof.
  intros idx run.
  assert (Eu : run
               = finish (generate_sql_files_from_used_sources
                           dbt can_make can_open (tree_at dir) dir s out)
                   "All SQL files have been generated from used sources.")
    by reflexivity.
  rewrite Eu. split; [|split].
  - intros Hp Hm Ho.
    rewrite (used_run dbt can_make can_open _ _ _ _ Hp Hm Ho).
    cbn [finish fst snd]. split; [reflexivity|]. fold idx.
    exists (Act (MakeDirs out) :: map Act (run_steps dbt out s (keys idx))).
    rewrite map_cons, map_app. cbn [map app count_line].
    now rewrite <- List.app_assoc.
  - intros H.
    destruct (refusal_stops_used_run dbt can_make can_open
                (tree_at dir) dir s out) as [E _].
    now rewrite (E H).
  - intros before t q after Hk Hp Hm Hb Hq Ho.
    destruct (refusal_stops_used_run dbt can_make can_open
                (tree_at dir) dir s out) as [_ E].
    rewrite (E before t q after Hk Hp Hm Hb Hq Ho).
    cbn [finish fst snd]. split; [reflexivity|].
    exists (Act (MakeDirs out) :: map Act (run_steps dbt out s before)).
    rewrite map_cons, map_app. reflexivity.
Qed.

End WithEnv.

Lemma main_modes_witness :
  main Ex.dbt Ex.willing Ex5.flat (fun _ => Ex5.tree) (fun _ => YNull)
    ["gen.py"; "used_sources"; "sup"; "models"; "out"]
  = ([Act (MakeDirs "out");
      Act (RunCmd (command_of "sup" "users"));
      Act (WriteFile "out/source_sup__users.sql" Ex.model);
      Act (LogInfo "Created out/source_sup__users.sql");
      Act (RunCmd (command_of "sup" "raw/orders"))],
     Uncaught (OSError "out/source_sup__raw/orders.sql")).
Proof.
  destruct (main_modes Ex.dbt Ex.willing Ex5.flat (fun _ => Ex5.tree)
              (fun _ => YNull) "gen.py" "sup" "models" "out")
    as (_ & _ & H).
  destruct (H ["users"] "raw/orders" Ex.model ["clicks"]) as [H1 [tr H2]].
  - vm_compute. reflexivity.
  - discriminate.
  - reflexivity.
  - intros t [<-|[]]. vm_compute. reflexivity.
  - apply example_model. vm_compute. reflexivity.
  - vm_compute. reflexivity.
  - vm_compute. reflexivity.
Defined.

End MainFacts.

(** ** The rewriter *)

Module RwFacts.
Import Py PyFacts Re ReFacts Rw Obs ScanFacts.

Lemma ends_app (x y e : string) :
  (exists b, y = b ++ e) -> exists b, x ++ y = b ++ e.
Proof. intros [b ->]. exists (x ++ b). now rewrite PyFacts.app_assoc. Qed.

Lemma ends_cons (c : ascii) (y e : string) :
  (exists b, y = b ++ e) -> exists b, String c y = b ++ e.
Proof. intros [b ->]. now exists (String c b). Qed.

Lemma opt_inv (p : ascii -> bool) (w : string) (gs : list string) :
  matches (Opt p) w gs -> gs = [] /\ all p w = true.
Proof.
  intros H. inversion H as [| | | | |? c Hc| |]; subst; simpl; auto.
  now rewrite Hc.
Qed.

(** Inversion along a concatenation that leaves the optional items
    undecided. *)
Ltac invert_light :=
  repeat match goal with
         | H : matches (cat _) _ _ |- _ => simpl cat in H
         | H : matches (Seq _ _) _ _ |- _ => inversion H; clear H; subst
         | H : matches (Grp _) _ _ |- _ => inversion H; clear H; subst
         | H : matches (Lit _) _ _ |- _ => inversion H; clear H; subst
         | H : matches (Chr _) _ _ |- _ => inversion H; clear H; subst
         | H : matches (Star _) _ _ |- _ => inversion H; clear H; subst
         | H : matches (Plus _) _ _ |- _ => inversion H; clear H; subst
         | H : matches (Opt _) _ _ |- _ =>
             apply opt_inv in H; destruct H as [-> H]
         end.

Lemma pattern_shape (w : string) (gs : list string) :
  matches pattern w gs ->
  (exists body, w = "{{" ++ body ++ "}}")
  /\ exists a b, gs = [a; b]
                 /\ a <> EmptyString /\ b <> EmptyString
                 /\ all notquote a = true /\ all notquote b = true.
Proof.
  unfold pattern. intros H. invert_light. split.
  - cbn [append].
    match goal with
    | |- exists body, String _ (String _ ?x) = _ =>
        assert (E : exists b, x = b ++ "}}")
          by (repeat first [ now (exists EmptyString)
                           | apply ends_app | apply ends_cons ]);
        destruct E as [b ->]; now exists b
    end.
  - simpl. eexists _, _. split; [reflexivity|].
    repeat split; try discriminate; simpl; rewrite andb_true_iff; auto.
Qed.

(** *** The store *)

Lemma read_write_same (st : store) (p x : string) :
  read (write st p x) p = x.
Proof.
  induction st as [|[q c] st IH]; simpl.
  - now rewrite String.eqb_refl.
  - destruct (String.eqb_spec q p) as [->|Hne]; simpl.
    + now rewrite String.eqb_refl.
    + destruct (String.eqb_spec q p); [contradiction|exact IH].
Qed.

Lemma read_write_other (st : store) (p q x : string) :
  p <> q -> read (write st p x) q = read st q.
Proof.
  intros Hne. induction st as [|[r c] st IH]; simpl.
  - destruct (String.eqb_spec p q); [contradiction|reflexivity].
  - destruct (String.eqb_spec r p) as [->|Hrp]; simpl.
    + destruct (String.eqb_spec p q); [contradiction|reflexivity].
    + destruct (String.eqb r q); auto.
Qed.

Lemma rewritten_no_match (c : string) :
  finditer pattern c = [] -> rewritten c = c.
Proof. intros H. unfold rewritten. now rewrite H. Qed.

(** The run over the selected files, one file at a time. *)
Lemma process_keeps (path c0 : string) (fs : list string) :
  rewritten c0 = c0 ->
  forall st, read (fst st) path = c0 ->
  read (fst (fold_left replace_sources_with_refs fs st)) path = c0.
Proof.
  intros Hc. induction fs as [|f fs IH]; intros st Hst; [exact Hst|].
  simpl. apply IH. unfold replace_sources_with_refs. cbn [fst].
  destruct (String.eqb_spec f path) as [->|Hne].
  - now rewrite read_write_same, Hst.
  - now rewrite read_write_other.
Qed.

Lemma process_writes (fs : list string) :
  forall st path c',
    In (WriteFile path c')
       (snd (fold_left replace_sources_with_refs fs st)) ->
    In (WriteFile path c') (snd st) \/ In path fs.
Proof.
  induction fs as [|f fs IH]; intros st path c' H; [now left|].
  simpl in H. apply IH in H. destruct H as [H|H]; [|right; now right].
  unfold replace_sources_with_refs in H. cbn [snd] in H.
  apply in_app_or in H. destruct H as [H|[H|[H|[]]]]; auto.
  - injection H as -> _. right. now left.
  - discriminate.
Qed.

Lemma process_written (fs : list string) :
  forall st path, In path fs ->
    exists c', In (WriteFile path c')
                  (snd (fold_left replace_sources_with_refs fs st)).
Proof.
  assert (Hmono : forall fs st e, In e (snd st) ->
            In e (snd (fold_left replace_sources_with_refs fs st))).
  { clear. induction fs as [|f fs IH]; intros st e H; [exact H|].
    simpl. apply IH. unfold replace_sources_with_refs. cbn [snd].
    apply in_or_app. now left. }
  induction fs as [|f fs IH]; intros st path H; [contradiction|].
  simpl. destruct H as [->|H]; [|now apply IH].
  eexists. apply Hmono. unfold replace_sources_with_refs. cbn [snd].
  apply in_or_app. right. left. reflexivity.
Qed.

Lemma selected_files (tree : Fs.dir) (dir path : string) :
  In path (find_files_with_source_refs tree dir) ->
  exists v f, In v (Fs.walk None [] dir tree) /\ In f (Fs.files v)
              /\ path = path_join (Fs.root v) (fst f)
              /\ endswith (fst f) ".sql" = true
              /\ search source_pattern (snd f) = true.
Proof.
  unfold find_files_with_source_refs. intros H.
  apply in_flat_map in H. destruct H as (v & Hv & H).
  apply in_flat_map in H. destruct H as (f & Hf & H).
  destruct (endswith (fst f) ".sql" && search source_pattern (snd f)) eqn:E;
    [|contradiction].
  destruct H as [<-|[]]. apply andb_true_iff in E.
  exists v, f. tauto.
Qed.

Lemma selected_complete (tree : Fs.dir) (dir : string)
  (v : Fs.visit) (f : string * string) :
  In v (Fs.walk None [] dir tree) -> In f (Fs.files v) ->
  endswith (fst f) ".sql" = true ->
  search source_pattern (snd f) = true ->
  In (path_join (Fs.root v) (fst f)) (find_files_with_source_refs tree dir).
Proof.
  intros Hv Hf He Hs. unfold find_files_with_source_refs.
  apply in_flat_map. exists v. split; [exact Hv|].
  apply in_flat_map. exists f. split; [exact Hf|].
  rewrite He, Hs. now left.
Qed.

(** C10: every match the rewriter processes has two groups, both
    non-empty and free of quote characters, and its replacement text is
    [{{ ref('source_<A>__<B>') }}] built from them: the only quotes of
    the replacement are the two that delimit the argument of [ref]. *)
Theorem rewriter_groups_are_plain (content : string) (m : mtch) :
  In m (finditer pattern content) ->
  exists a b,
    groups m = [a; b]
    /\ a <> EmptyString /\ b <> EmptyString
    /\ all notquote a = true /\ all notquote b = true
    /\ (forall c, rewrite_step c m
                  = replace c (text m)
                      ("{{ ref('source_" ++ a ++ "__" ++ b ++ "') }}")).
Proof.
  intros H. apply scan_sound in H. apply pattern_shape in H.
  destruct H as (_ & a & b & Hg & Ha & Hb & Hqa & Hqb).
  exists a, b. repeat split; auto.
  intros c. unfold rewrite_step. now rewrite Hg.
Qed.

Lemma rewriter_groups_are_plain_witness :
  exists a b,
    groups {| text := "{{ source('sup','clicks') }}";
              groups := ["sup"; "clicks"] |} = [a; b]
    /\ a <> EmptyString /\ b <> EmptyString
    /\ all notquote a = true /\ all notquote b = true
    /\ (forall c, rewrite_step c
                    {| text := "{{ source('sup','clicks') }}";
                       groups := ["sup"; "clicks"] |}
                  = replace c "{{ source('sup','clicks') }}"
                      ("{{ ref('source_" ++ a ++ "__" ++ b ++ "') }}")).
Proof.
  apply (rewriter_groups_are_plain
           "SELECT * FROM {{ source('sup','clicks') }}").
  vm_compute. left. reflexivity.
Defined.

Lemma occurrences_zero (sub s : string) :
  occurrences sub s = 0 ->
  forall u v, s = u ++ v -> startswith v sub = false.
Proof.
  intros H u v ->. destruct (startswith v sub) eqn:E; [|reflexivity].
  pose proof (occurrences_pos sub u v E). lia.
Qed.

(** C4, as the code has it: a file whose text holds no match of the
    pattern keeps its text through the run, and a text without a match
    is returned as it is; and the files written are exactly those named
    [*.sql] in which the selection pattern occurs, whether the pattern
    matches in them or not. *)
Theorem unmatched_files_keep_their_text (tree : Fs.dir) (dir : string) :
  (forall c, finditer pattern c = [] -> rewritten c = c)
  /\ (forall path,
        finditer pattern (read (files_of tree dir) path) = [] ->
        read (fst (main tree dir)) path = read (files_of tree dir) path)
  /\ (forall path,
        (exists c', In (WriteFile path c') (snd (main tree dir)))
        <-> exists v f, In v (Fs.walk None [] dir tree) /\ In f (Fs.files v)
                        /\ path = path_join (Fs.root v) (fst f)
                        /\ endswith (fst f) ".sql" = true
                        /\ search source_pattern (snd f) = true).
Proof.
  repeat split.
  - apply rewritten_no_match.
  - intros path H. unfold main. cbn [fst].
    apply process_keeps; [now apply rewritten_no_match|reflexivity].
  - intros [c' H]. unfold main in H. cbn [snd] in H.
    apply in_app_or in H. destruct H as [H|[H|[]]]; [|discriminate].
    apply process_writes in H. destruct H as [[]|H].
    now apply selected_files.
  - intros (v & f & Hv & Hf & -> & He & Hs).
    assert (H : In (path_join (Fs.root v) (fst f))
                  (find_files_with_source_refs tree dir))
      by now apply selected_complete.
    unfold main. cbn [snd].
    destruct (process_written _ (files_of tree dir, []) _ H) as [c' Hc].
    exists c'. apply in_or_app. now left.
Qed.

(** The statement of C4 fails twice: a file that opens a call without
    completing it is selected and written back, with no match in it; and
    a second pass changes a rewritten text in which a call was nested in
    an argument. *)
Lemma unmatched_file_is_written :
  ~ writes_only_on_match /\ ~ second_pass_is_identity.
Proof.
  split.
  - intros H.
    apply (H Ex.broken "models" "models/broken.sql"
             "select * from {{ source('sup') }}").
    + vm_compute. left. reflexivity.
    + vm_compute. reflexivity.
  - intros H. specialize (H "{{ source('a','x{{ source(p,q') }}").
    vm_compute in H. discriminate.
Qed.

(** C1 fails on calls without quotes: two of them in one text are taken
    as one match, whose first group runs from the first argument of the
    first call to the first argument of the second. *)
Theorem unquoted_calls_are_merged :
  finditer pattern "{{ source(a,b) }} and {{ source(c,d) }}"
  = [ {| text := "{{ source(a,b) }} and {{ source(c,d) }}";
         groups := ["a,b) }} and {{ source(c"; "d"] |} ]
  /\ rewritten "{{ source(a,b) }} and {{ source(c,d) }}"
     = "{{ ref('source_a,b) }} and {{ source(c__d') }}".
Proof. split; vm_compute; reflexivity. Qed.

(** The scenarios of the specification, on quoted calls. *)
Example round_trip :
  rewritten "SELECT * FROM {{ source('sup','clicks') }}"
  = "SELECT * FROM {{ ref('source_sup__clicks') }}".
Proof. vm_compute. reflexivity. Qed.

Example several_calls :
  rewritten
    "{{ source('a','b') }} x {{ source('a', 'c') }} y {{ source('a','b') }}"
  = "{{ ref('source_a__b') }} x {{ ref('source_a__c') }} y {{ ref('source_a__b') }}".
Proof. vm_compute. reflexivity. Qed.

End RwFacts.

(** ** The run of the rewriter *)

Module SelectFacts.
Import Py PyFacts Re ReFacts Rw Obs Sel ScanFacts RwFacts.

Lemma descend_all (rec : list string -> string -> Fs.dir -> list Fs.visit)
  (cs : list string) (top : string) (l : list (string * Fs.dir))
  (n : string) (d : Fs.dir) (v : Fs.visit) :
  In (n, d) l ->
  In v (rec (cs ++ [n])%list (path_join top n) d) ->
  forall removed, In v (Fs.descend None rec cs top l removed).
Proof.
  intros Hin Hv. induction l as [|[n' d'] l IH]; [contradiction|].
  intros removed. simpl. rewrite andb_false_r. apply in_or_app.
  destruct Hin as [E|Hin].
  - injection E as -> ->. now left.
  - right. now apply IH.
Qed.

(** X9: the rewriter selects exactly the files named [*.sql], anywhere
    below the project directory, in whose text the opening of a call
    occurs; its walk leaves no sub-directory out, one named [sources]
    no more than another. *)
Theorem rewriter_selects_everywhere (tree : Fs.dir) (dir : string) :
  (forall path,
     In path (find_files_with_source_refs tree dir)
     <-> exists v f,
           In v (Fs.walk None [] dir tree) /\ In f (Fs.files v)
           /\ path = path_join (Fs.root v) (fst f)
           /\ endswith (fst f) ".sql" = true
           /\ search source_pattern (snd f) = true)
  /\ (forall subs fs n d cs top v,
        In (n, d) subs ->
        In v (Fs.walk None (cs ++ [n])%list (path_join top n) d) ->
        In v (Fs.walk None cs top (Fs.Dir subs fs))).
Proof.
  split.
  - intros path. split; [apply selected_files|].
    intros (v & f & Hv & Hf & -> & He & Hs). now apply selected_complete.
  - intros subs fs n d cs top v Hin Hv. simpl. right.
    now apply (descend_all _ cs top subs n d).
Qed.

(** *** The run, file by file *)

Lemma files_of_entries (tree : Fs.dir) (dir : string) :
  files_of tree dir = map before (entries tree dir).
Proof.
  unfold files_of, entries.
  induction (Fs.walk None [] dir tree) as [|v vs IH]; [reflexivity|].
  simpl. rewrite map_app, IH. f_equal.
  rewrite map_map. reflexivity.
Qed.

Lemma selected_entries (tree : Fs.dir) (dir : string) :
  find_files_with_source_refs tree dir
  = map fst (filter (fun e => fst (snd e)) (entries tree dir)).
Proof.
  unfold find_files_with_source_refs, entries.
  induction (Fs.walk None [] dir tree) as [|v vs IH]; [reflexivity|].
  simpl. rewrite filter_app, map_app, IH. f_equal.
  induction (Fs.files v) as [|f fs IHf]; [reflexivity|].
  simpl. destruct (endswith (fst f) ".sql" && search source_pattern (snd f));
    simpl; now rewrite IHf.
Qed.

Lemma read_skip (a b : store) (p : string) :
  ~ In p (map fst a) -> read (a ++ b)%list p = read b p.
Proof.
  induction a as [|[q c] a IH]; intros H; [reflexivity|].
  simpl. destruct (String.eqb_spec q p) as [->|_].
  - exfalso. apply H. now left.
  - apply IH. intros Hin. apply H. now right.
Qed.

Lemma write_skip (a b : store) (p x : string) :
  ~ In p (map fst a) -> write (a ++ b)%list p x = (a ++ write b p x)%list.
Proof.
  induction a as [|[q c] a IH]; intros H; [reflexivity|].
  simpl. destruct (String.eqb_spec q p) as [->|_].
  - exfalso. apply H. now left.
  - f_equal. apply IH. intros Hin. apply H. now right.
Qed.

Lemma map_fst_after (es : list entry) : map fst (map after es) = map fst es.
Proof. rewrite map_map. reflexivity. Qed.

(** With the files [done] behind it, the run goes through the entries
    [es] in order. *)
Lemma process_entries (es : list entry) :
  forall (done : list entry) (ev : list event),
    NoDup (map fst (done ++ es)%list) ->
    fold_left replace_sources_with_refs
      (map fst (filter (fun e => fst (snd e)) es))
      ((map after done ++ map before es)%list, ev)
    = (map after (done ++ es)%list, (ev ++ flat_map logged es)%list).
Proof.
  induction es as [|[p [sel c]] es IH]; intros done ev Hnd.
  - simpl. now rewrite !List.app_nil_r.
  - assert (Hp : ~ In p (map fst (map after done))).
    { rewrite map_fst_after. rewrite map_app in Hnd.
      apply NoDup_remove_2 in Hnd. intros Hin. apply Hnd.
      apply in_or_app. now left. }
    assert (Hnd' : NoDup (map fst ((done ++ [(p, (sel, c))]) ++ es)%list))
      by now rewrite <- List.app_assoc.
    specialize (IH (done ++ [(p, (sel, c))])%list).
    rewrite <- List.app_assoc in IH. cbn [app] in IH.
    destruct sel; cbn [filter fst snd map fold_left].
    + unfold replace_sources_with_refs at 2. cbn [fst snd].
      rewrite (read_skip _ _ _ Hp), (write_skip _ _ _ _ Hp).
      cbn [read write map before fst snd]. rewrite String.eqb_refl.
      specialize (IH (ev ++ [WriteFile p (rewritten c);
                             LogInfo ("Processed: " ++ p)])%list Hnd).
      rewrite map_app in IH. cbn [map] in IH.
      change (after (p, (true, c))) with (p, rewritten c) in IH.
      rewrite <- List.app_assoc in IH. cbn [app] in IH.
      etransitivity; [exact IH|]. f_equal.
      cbn [flat_map]. unfold logged at 1. cbn [fst snd].
      now rewrite <- List.app_assoc.
    + specialize (IH ev Hnd).
      rewrite map_app in IH. cbn [map] in IH.
      change (after (p, (false, c))) with (p, c) in IH.
      rewrite <- List.app_assoc in IH. cbn [app] in IH.
      etransitivity; [exact IH|]. reflexivity.
Qed.

(** X10: when the paths of the files are distinct, a run leaves every
    selected file with its rewritten text and every other file as it
    was, writes each selected file once, in the order of the walk, and
    closes with the number of selected files. *)
Theorem rewriter_run_file_by_file (tree : Fs.dir) (dir : string) :
  NoDup (map fst (entries tree dir)) ->
  fst (main tree dir) = map after (entries tree dir)
  /\ snd (main tree dir)
     = (flat_map logged (entries tree dir)
        ++ [LogInfo ("Processed "
                     ++ str_of_nat
                          (List.length
                             (filter (fun e => fst (snd e))
                                (entries tree dir)))
                     ++ " files with source references.")])%list.
Proof.
  intros Hnd. unfold main. cbv zeta.
  rewrite selected_entries, files_of_entries.
  pose proof (process_entries (entries tree dir) [] [] Hnd) as H.
  cbn [map app] in H. cbn [fst snd].
  match goal with
  | |- context [fold_left ?f ?l ?a] =>
      assert (E : fold_left f l a
                  = (map after (entries tree dir),
                     flat_map logged (entries tree dir))) by exact H;
      rewrite E
  end.
  cbn [fst snd]. now rewrite length_map.
Qed.

Lemma rewriter_run_file_by_file_witness :
  fst (main Ex.tree "models") = map after (entries Ex.tree "models").
Proof.
  apply (rewriter_run_file_by_file Ex.tree "models").
  vm_compute.
  repeat (apply NoDup_cons; [simpl; intuition discriminate|]).
  apply NoDup_nil.
Defined.

End SelectFacts.

(** ** The selection pattern and the pattern *)

Module PrefilterFacts.
Import Py PyFacts Re ReFacts Rw Obs ScanFacts RwFacts.

(** *** Completeness: backtracking finds a match when there is one *)

Lemma star_complete (p : ascii -> bool) (w t : string)
  (k : string -> option result) (res : result) :
  all p w = true -> k t = Some res ->
  exists res', star p (w ++ t) k = Some res'.
Proof.
  intros Hw Hk. induction w as [|c w IH]; simpl in *.
  - destruct t as [|c t]; simpl; [eauto|].
    destruct (p c); [|eauto].
    destruct (star p t k); eauto.
  - apply andb_true_iff in Hw. destruct Hw as [Hc Hw]. rewrite Hc.
    destruct (IH Hw) as [r ->]. eauto.
Qed.

Lemma run_complete (r : re) :
  forall w gs, matches r w gs ->
  forall t caps k res,
    k t (caps ++ gs)%list = Some res ->
    exists res', run r (w ++ t) caps k = Some res'.
Proof.
  induction 1 as [l|p c Hc|p w Hw|p c w Hc Hw|p|p c Hc|r w gs _ IH
                  |r1 r2 w1 w2 g1 g2 _ IH1 _ IH2];
    intros t caps k res Hk; rewrite ?List.app_nil_r in Hk.
  - rewrite run_lit. eauto.
  - simpl. rewrite Hc. eauto.
  - simpl. now apply (star_complete p w t _ res).
  - simpl. rewrite Hc. now apply (star_complete p w t _ res).
  - simpl. destruct t as [|c t]; [eauto|].
    destruct (p c); [|eauto]. destruct (k t caps); eauto.
  - simpl. rewrite Hc, Hk. eauto.
  - cbn [run]. apply (IH t caps _ res).
    rewrite take_suffix. now rewrite <- List.app_assoc.
  - cbn [run]. rewrite PyFacts.app_assoc.
    destruct (IH2 t (caps ++ g1)%list k res) as [res2 H2].
    { now rewrite <- List.app_assoc. }
    now apply (IH1 (w2 ++ t) caps _ res2).
Qed.

Lemma search_some (r : re) (u v : string) (res : result) :
  match_at r v = Some res -> search r (u ++ v) = true.
Proof.
  intros H. induction u as [|c u IH].
  - destruct v; simpl; now rewrite H.
  - cbn [append search]. now destruct (match_at r (String c (u ++ v))).
Qed.

Lemma scan_in (r : re) (s : string) :
  forall skip m, In m (scan r s skip) ->
  exists u v res, s = u ++ v /\ match_at r v = Some res.
Proof.
  induction s as [|c s IH]; intros skip m; cbn [scan].
  - destruct skip; [|contradiction].
    destruct (match_at r EmptyString) as [res|] eqn:E; [|contradiction].
    intros _. now exists EmptyString, EmptyString, res.
  - assert (Hs : forall skip, In m (scan r s skip) ->
              exists u v res, String c s = u ++ v
                              /\ match_at r v = Some res).
    { intros k H. destruct (IH k m H) as (u & v & res & -> & Hm).
      now exists (String c u), v, res. }
    destruct skip as [|k]; [|apply Hs].
    destruct (match_at r (String c s)) as [res|] eqn:E; [|apply Hs].
    intros [_|H]; [|now apply Hs in H].
    now exists EmptyString, (String c s), res.
Qed.

(** A word of the whole pattern begins with a word of the selection
    pattern. *)
Lemma pattern_begins (w : string) (gs : list string) :
  matches pattern w gs ->
  exists w1 w2, w = w1 ++ w2 /\ matches source_pattern w1 [].
Proof.
  unfold pattern. cbn [cat]. intros H.
  inversion H as [| | | | | | |r1 r2 x1 y1 g1 h1 H1 H1']; subst; clear H.
  inversion H1' as [| | | | | | |r1 r2 x2 y2 g2 h2 H2 H2']; subst; clear H1'.
  inversion H2' as [| | | | | | |r1 r2 x3 y3 g3 h3 H3 H3']; subst; clear H2'.
  inversion H3' as [| | | | | | |r1 r2 x4 y4 g4 h4 H4 H4']; subst; clear H3'.
  inversion H4' as [| | | | | | |r1 r2 x5 y5 g5 h5 H5 H5']; subst; clear H4'.
  exists (x1 ++ x2 ++ x3 ++ x4 ++ x5 ++ EmptyString), y5. split.
  - now rewrite !PyFacts.app_assoc.
  - inversion H1; inversion H2; inversion H3; inversion H4; inversion H5;
      subst.
    exact (M_Seq _ _ _ _ [] [] H1
             (M_Seq _ _ _ _ [] [] H2
                (M_Seq _ _ _ _ [] [] H3
                   (M_Seq _ _ _ _ [] [] H4
                      (M_Seq _ _ _ _ [] [] H5 (M_Lit EmptyString)))))).
Qed.

(** X11: no file in which the rewriter would replace something is left
    unselected: wherever the pattern matches, the selection pattern
    matches too. *)
Theorem match_implies_selection (content : string) :
  finditer pattern content <> [] ->
  search source_pattern content = true.
Proof.
  intros H. destruct (finditer pattern content) as [|m ms] eqn:E;
    [contradiction|].
  assert (Hm : In m (scan pattern content 0))
    by (unfold finditer in E; rewrite E; now left).
  apply scan_in in Hm. destruct Hm as (u & v & res & -> & Hv).
  apply match_at_sound in Hv. destruct Hv as (w & Ev & Hw).
  apply pattern_begins in Hw. destruct Hw as (w1 & w2 & -> & Hw1).
  destruct (run_complete source_pattern w1 [] Hw1 (w2 ++ fst res) []
              (fun t caps => Some (t, caps)) (w2 ++ fst res, []) eq_refl)
    as [res' Hr].
  rewrite Ev, PyFacts.app_assoc. now apply (search_some _ u _ res').
Qed.

Lemma match_implies_selection_witness :
  search source_pattern "SELECT * FROM {{ source('sup','clicks') }}" = true.
Proof.
  apply (match_implies_selection
           "SELECT * FROM {{ source('sup','clicks') }}").
  vm_compute. discriminate.
Defined.

End PrefilterFacts.

(** ** The rewriter on texts in pieces *)

Module ChunkFacts.
Import Py PyFacts Re ReFacts Rw Obs Chunks ScanFacts RwFacts.

(** *** Text that opens no call *)

Lemma lstrip_app (r rest : string) (c : ascii) (r2 : string) :
  lstrip r = String c r2 -> lstrip (r ++ rest) = String c (r2 ++ rest).
Proof.
  induction r as [|d r IH]; simpl; [discriminate|].
  destruct (isspace d); [exact IH|].
  intros H. injection H as -> ->. reflexivity.
Qed.

Lemma lstrip_run (w : string) (c : ascii) (r : string) :
  all isspace w = true -> isspace c = false ->
  lstrip (w ++ String c r) = String c r.
Proof.
  intros Hw Hc. induction w as [|d w IH]; simpl in *.
  - now rewrite Hc.
  - apply andb_true_iff in Hw. destruct Hw as [Hd Hw]. rewrite Hd. auto.
Qed.

Lemma startswith_s (c : ascii) (r : string) :
  startswith (String c r) "s" = Ascii.eqb "s" c.
Proof.
  unfold startswith. cbn [strip_prefix].
  now destruct (Ascii.eqb "s" c).
Qed.

Lemma blocked_opens (v rest : string) :
  v <> EmptyString -> blocked v = true -> opens (v ++ rest) = false.
Proof.
  intros Hv Hb. destruct v as [|c1 v]; [contradiction|]. simpl in *.
  destruct (Ascii.eqb c1 "{"); simpl.
  - destruct v as [|c2 v]; [discriminate|]. simpl.
    destruct (Ascii.eqb c2 "{"); simpl; [|now destruct (v ++ rest)].
    destruct (lstrip v) as [|c r2] eqn:E; [discriminate|].
    rewrite (lstrip_app _ rest _ _ E), startswith_s.
    apply negb_true_iff in Hb. rewrite Ascii.eqb_sym. now rewrite Hb.
  - now destruct (v ++ rest).
Qed.

Lemma blocked_app (v rest : string) :
  v <> EmptyString -> blocked v = true -> blocked (v ++ rest) = true.
Proof.
  intros Hv Hb. destruct v as [|c1 v]; [contradiction|]. simpl in *.
  destruct (Ascii.eqb c1 "{"); [|reflexivity].
  destruct v as [|c2 v]; [discriminate|]. simpl.
  destruct (Ascii.eqb c2 "{"); [|reflexivity].
  destruct (lstrip v) as [|c r2] eqn:E; [discriminate|].
  now rewrite (lstrip_app _ rest _ _ E).
Qed.

Lemma quiet_app (a b : string) :
  quiet a = true -> quiet b = true -> quiet (a ++ b) = true.
Proof.
  intros Ha Hb. induction a as [|c a IH]; [exact Hb|].
  cbn [quiet] in Ha. apply andb_true_iff in Ha. destruct Ha as [Hc Ha].
  cbn [append quiet]. rewrite (IH Ha), andb_true_r.
  change (String c (a ++ b)) with (String c a ++ b).
  apply blocked_app; [discriminate|exact Hc].
Qed.

Lemma quiet_suffix (u v : string) :
  quiet (u ++ v) = true -> quiet v = true.
Proof.
  induction u as [|c u IH]; [auto|].
  cbn [append quiet]. intros H. apply andb_true_iff in H. now apply IH.
Qed.

Lemma quiet_blocked (v : string) : quiet v = true -> blocked v = true.
Proof.
  destruct v as [|c v]; [reflexivity|].
  cbn [quiet]. intros H. now apply andb_true_iff in H.
Qed.

(** In a quiet text followed by anything, no position of the text
    opens. *)
Lemma quiet_never_opens (t rest u v : string) :
  quiet t = true -> t = u ++ v -> v <> EmptyString ->
  opens (v ++ rest) = false.
Proof.
  intros Hq -> Hv. apply blocked_opens; [exact Hv|].
  apply quiet_blocked. now apply (quiet_suffix u).
Qed.

Lemma nobrace_quiet (t : string) : all nobrace t = true -> quiet t = true.
Proof.
  induction t as [|c t IH]; [reflexivity|].
  cbn [all quiet]. intros H. apply andb_true_iff in H.
  destruct H as [Hc Ht]. rewrite (IH Ht), andb_true_r.
  unfold nobrace in Hc. apply negb_true_iff in Hc. simpl. now rewrite Hc.
Qed.

(** *** The text of a call *)

Lemma space_nobrace (c : ascii) : isspace c = true -> nobrace c = true.
Proof.
  intros H. unfold nobrace. destruct (Ascii.eqb_spec c "{") as [->|_];
    [discriminate|reflexivity].
Qed.

Lemma space_noclose (c : ascii) : isspace c = true -> noclose c = true.
Proof.
  intros H. unfold noclose. destruct (Ascii.eqb_spec c "}") as [->|_];
    [discriminate|reflexivity].
Qed.

Lemma quote_nobrace (c : ascii) : quote c = true -> nobrace c = true.
Proof. intros H. destruct (quote_cases c H) as [->| ->]; reflexivity. Qed.

Lemma quote_noclose (c : ascii) : quote c = true -> noclose c = true.
Proof. intros H. destruct (quote_cases c H) as [->| ->]; reflexivity. Qed.

Lemma plain_parts (a : string) :
  plain a = true ->
  a <> EmptyString /\ all notquote a = true
  /\ all nobrace a = true /\ all noclose a = true.
Proof.
  unfold plain. intros H. apply andb_true_iff in H. destruct H as [Hn Ha].
  split; [now destruct a|].
  repeat split; apply (all_impl plain_char); auto;
    intros c Hc; unfold plain_char in Hc;
    repeat (apply andb_true_iff in Hc; destruct Hc as [Hc ?]); auto.
Qed.

Lemma call_ok_facts (v0 v6 : string) (l : layout) (a b : string) :
  chunk_ok (Call v0 v6 l a b) = true -> call_facts v0 v6 l a b.
Proof.
  simpl. intros H.
  repeat (apply andb_true_iff in H; destruct H as [H ?]).
  now constructor.
Qed.

(** The text of a call is an opening brace followed by text without
    another one. *)
Lemma call_text_shape (v0 v6 : string) (l : layout) (a b : string) :
  call_facts v0 v6 l a b ->
  exists x, chunk_text (Call v0 v6 l a b) = String "{" (String "{" x)
            /\ all nobrace x = true
            /\ startswith (lstrip x) "s" = true.
Proof.
  intros [H0 H6 Hl Ha Hb].
  destruct (well_laid_parts l Hl)
    as (H1 & H2 & H3 & H4 & H5 & Q1 & Q2 & Q3 & Q4).
  destruct (plain_parts a Ha) as (_ & _ & Na & _).
  destruct (plain_parts b Hb) as (_ & _ & Nb & _).
  exists (v0 ++ call_then l a b (v6 ++ "}}")). split; [reflexivity|].
  split.
  - unfold call_then.
    repeat first [ rewrite all_app | progress cbn [all append] ].
    rewrite (all_impl _ _ _ space_nobrace H0),
      (all_impl _ _ _ space_nobrace H1), (all_impl _ _ _ space_nobrace H2),
      (all_impl _ _ _ space_nobrace H3), (all_impl _ _ _ space_nobrace H4),
      (all_impl _ _ _ space_nobrace H5), (all_impl _ _ _ space_nobrace H6),
      (quote_nobrace _ Q1), (quote_nobrace _ Q2), (quote_nobrace _ Q3),
      (quote_nobrace _ Q4), Na, Nb.
    reflexivity.
  - unfold call_then. cbn [append].
    now rewrite lstrip_run.
Qed.

Lemma call_opens (v0 v6 : string) (l : layout) (a b rest : string) :
  call_facts v0 v6 l a b ->
  forall x, startswith x (chunk_text (Call v0 v6 l a b)) = true ->
            opens x = true.
Proof.
  intros Hc x Hx. apply startswith_true in Hx. destruct Hx as [y ->].
  unfold chunk_text, call_then. cbn [append opens].
  rewrite !Ascii.eqb_refl. cbn [andb].
  destruct Hc as [H0 _ _ _ _].
  rewrite PyFacts.app_assoc. cbn [append].
  now rewrite lstrip_run.
Qed.

Lemma call_tail_quiet (v0 v6 : string) (l : layout) (a b : string) :
  call_facts v0 v6 l a b ->
  exists q, chunk_text (Call v0 v6 l a b) = String "{" q
            /\ quiet q = true /\ q <> EmptyString.
Proof.
  intros Hc. destruct (call_text_shape _ _ _ _ _ Hc) as (x & E & Hn & Hs).
  exists (String "{" x). split; [exact E|]. split; [|discriminate].
  cbn [quiet]. rewrite (nobrace_quiet x Hn), andb_true_r.
  destruct x as [|c x]; [discriminate|].
  cbn [all] in Hn. apply andb_true_iff in Hn. destruct Hn as [Hc1 _].
  unfold nobrace in Hc1. apply negb_true_iff in Hc1.
  simpl. now rewrite Hc1.
Qed.

Lemma ref_quiet (a b : string) :
  plain a = true -> plain b = true -> quiet (ref_text a b) = true.
Proof.
  intros Ha Hb.
  destruct (plain_parts a Ha) as (_ & _ & Na & _).
  destruct (plain_parts b Hb) as (_ & _ & Nb & _).
  unfold ref_text.
  change ("{{ ref('source_" ++ a ++ "__" ++ b ++ "') }}")
    with (String "{" (String "{" (" ref('source_" ++ a ++ "__" ++ b
                                   ++ "') }}"))).
  assert (Hn : all nobrace (" ref('source_" ++ a ++ "__" ++ b ++ "') }}")
               = true).
  { repeat first [ rewrite all_app | progress cbn [all append] ].
    now rewrite Na, Nb. }
  cbn [quiet]. rewrite (nobrace_quiet _ Hn), !andb_true_r.
  reflexivity.
Qed.

(** *** The pattern on a call *)

Lemma match_opens (x : string) (res : result) :
  match_at pattern x = Some res -> opens x = true.
Proof.
  intros H. apply match_at_sound in H. destruct H as (w & -> & Hm).
  unfold pattern in Hm. invert_light.
  cbn [append opens]. rewrite !Ascii.eqb_refl. cbn [andb].
  rewrite PyFacts.app_assoc. cbn [append].
  now rewrite lstrip_run.
Qed.

Lemma stops_quote_run (w : string) (c : ascii) (r : string) :
  all isspace w = true -> quote c = false ->
  stops quote (w ++ String c r) = true.
Proof.
  intros Hw Hc. destruct w as [|d w]; simpl.
  - now rewrite Hc.
  - simpl in Hw. apply andb_true_iff in Hw. destruct Hw as [Hd _].
    apply space_notquote in Hd. unfold notquote in Hd.
    apply negb_true_iff in Hd. now rewrite Hd.
Qed.

Lemma run_quote_slot (q : ascii) (rest : string) (caps : list string)
  (r2 : re) (k : cont) (res : result) :
  quote q = true -> stops quote rest = true ->
  run r2 rest caps k = Some res ->
  run (Seq (Opt dquote) (Seq (Opt squote) r2)) (String q rest) caps k
  = Some res.
Proof.
  intros Hq Hs Hk.
  assert (Hsq : stops squote rest = true).
  { destruct rest as [|c r]; [reflexivity|]. simpl in *.
    unfold quote in Hs. apply negb_true_iff in Hs.
    apply orb_false_iff in Hs. destruct Hs as [Hs _]. now rewrite Hs. }
  rewrite run_seq.
  destruct (quote_cases q Hq) as [->| ->].
  - rewrite run_opt_skip by reflexivity.
    rewrite run_seq. now apply run_opt_take.
  - apply run_opt_take; [reflexivity|].
    rewrite run_seq. now rewrite run_opt_skip.
Qed.

Lemma chunk_text_app (v0 v6 : string) (l : layout) (a b rest : string) :
  chunk_text (Call v0 v6 l a b) ++ rest
  = "{{" ++ v0 ++ call_then l a b (v6 ++ "}}" ++ rest).
Proof.
  unfold chunk_text, call_then. cbn [append].
  repeat (rewrite PyFacts.app_assoc; cbn [append]).
  reflexivity.
Qed.

(** The pattern matches a well formed call at the first attempt, up to
    its closing braces, and captures its two arguments. *)
Lemma match_wrapped (v0 v6 : string) (l : layout) (a b rest : string) :
  call_facts v0 v6 l a b ->
  match_at pattern (chunk_text (Call v0 v6 l a b) ++ rest)
  = Some (rest, [a; b]).
Proof.
  intros [H0 H6 Hl Ha Hb].
  destruct (well_laid_parts l Hl)
    as (H1 & H2 & H3 & H4 & H5 & Q1 & Q2 & Q3 & Q4).
  destruct (plain_parts a Ha) as (Hane & Haq & _ & _).
  destruct (plain_parts b Hb) as (Hbne & Hbq & _ & _).
  destruct a as [|ca a]; [contradiction|].
  destruct b as [|cb b]; [contradiction|].
  cbn [all] in Haq, Hbq.
  apply andb_true_iff in Haq, Hbq.
  destruct Haq as [Hca Haq], Hbq as [Hcb Hbq].
  rewrite chunk_text_app.
  unfold match_at, pattern, call_then. cbn [cat].
  rewrite run_seq, run_lit.
  rewrite run_seq. apply run_star; [exact H0|reflexivity|].
  rewrite run_seq, run_lit.
  rewrite run_seq. apply run_star; [exact H1|reflexivity|].
  rewrite run_seq, run_lit.
  rewrite run_seq. apply run_star; [exact H2|now apply stops_space_quote|].
  apply run_quote_slot; [exact Q1|simpl; exact Hca|].
  rewrite run_seq.
  change (String ca a ++ ?r) with (String ca (a ++ r)).
  apply run_grp_plus; [exact Hca|exact Haq|now apply stops_notquote_quote|].
  apply run_quote_slot; [exact Q2|now apply stops_quote_run|].
  rewrite run_seq. apply run_star; [exact H3|reflexivity|].
  rewrite run_seq, run_lit.
  rewrite run_seq. apply run_star; [exact H4|now apply stops_space_quote|].
  apply run_quote_slot; [exact Q3|simpl; exact Hcb|].
  rewrite run_seq.
  change (String cb b ++ ?r) with (String cb (b ++ r)).
  apply run_grp_plus; [exact Hcb|exact Hbq|now apply stops_notquote_quote|].
  apply run_quote_slot; [exact Q4|now apply stops_quote_run|].
  rewrite run_seq. apply run_star; [exact H5|reflexivity|].
  rewrite run_seq, run_lit.
  rewrite run_seq. apply run_star; [exact H6|reflexivity|].
  rewrite run_seq, run_lit. reflexivity.
Qed.

(** *** [finditer] over the pieces *)

Lemma scan_quiet (t rest : string) :
  quiet t = true -> scan pattern (t ++ rest) 0 = scan pattern rest 0.
Proof.
  intros Hq. apply scan_prefix. intros u v E Hv.
  destruct (match_at pattern (v ++ rest)) as [res|] eqn:Hm; [|reflexivity].
  apply match_opens in Hm.
  now rewrite (quiet_never_opens t rest u v Hq E Hv) in Hm.
Qed.

Lemma finditer_render (cs : list chunk) :
  forallb chunk_ok cs = true ->
  finditer pattern (render cs) = flat_map match_of cs.
Proof.
  unfold finditer. induction cs as [|ch cs IH]; intros Hok; [reflexivity|].
  cbn [forallb] in Hok. apply andb_true_iff in Hok.
  destruct Hok as [Hch Hcs]. cbn [render flat_map].
  destruct ch as [t|v0 v6 l a b].
  - cbn [chunk_text match_of app]. cbn [chunk_ok] in Hch.
    rewrite (scan_quiet _ _ Hch). now apply IH.
  - apply call_ok_facts in Hch.
    destruct (call_tail_quiet _ _ _ _ _ Hch) as (q & E & _ & _).
    pose proof (match_wrapped _ _ _ _ _ (render cs) Hch) as Hm.
    cbn [match_of app]. rewrite E in Hm |- *.
    rewrite (scan_hit _ _ _ _ _ Hm). f_equal. now apply IH.
Qed.

(** *** [replace] over the pieces *)

Lemma replace_go_skip (old new w rest : string) :
  replace_go old new (w ++ rest) (String.length w)
  = replace_go old new rest 0.
Proof. induction w as [|c w IH]; [reflexivity|exact IH]. Qed.

Lemma replace_go_copy (old new pre rest : string) :
  (forall u v, pre = u ++ v -> v <> EmptyString ->
               startswith (v ++ rest) old = false) ->
  replace_go old new (pre ++ rest) 0 = pre ++ replace_go old new rest 0.
Proof.
  induction pre as [|c pre IH]; intros H; [reflexivity|].
  cbn [append replace_go].
  assert (H0 : startswith (String c pre ++ rest) old = false)
    by (apply (H EmptyString (String c pre)); [reflexivity|discriminate]).
  cbn [append] in H0. rewrite H0. f_equal.
  apply IH. intros u v -> Hv. apply (H (String c u)); auto.
Qed.

Lemma replace_go_hit (new rest : string) (c : ascii) (w : string) :
  replace_go (String c w) new (String c w ++ rest) 0
  = new ++ replace_go (String c w) new rest 0.
Proof.
  cbn [append replace_go].
  change (String c (w ++ rest)) with (String c w ++ rest).
  rewrite startswith_app. f_equal.
  replace (String.length (String c w) - 1) with (String.length w)
    by (cbn [String.length]; lia).
  apply replace_go_skip.
Qed.

(** The text of a call ends at its first closing brace. *)
Lemma call_closed (v0 v6 : string) (l : layout) (a b : string) :
  call_facts v0 v6 l a b ->
  exists body, chunk_text (Call v0 v6 l a b) = body ++ "}}"
               /\ all noclose body = true.
Proof.
  intros [H0 H6 Hl Ha Hb].
  destruct (well_laid_parts l Hl)
    as (H1 & H2 & H3 & H4 & H5 & Q1 & Q2 & Q3 & Q4).
  destruct (plain_parts a Ha) as (_ & _ & _ & Na).
  destruct (plain_parts b Hb) as (_ & _ & _ & Nb).
  exists ("{{" ++ v0 ++ call_then l a b v6). split.
  - unfold chunk_text, call_then. cbn [append].
    repeat (rewrite PyFacts.app_assoc; cbn [append]). reflexivity.
  - unfold call_then.
    repeat first [ rewrite all_app | progress cbn [all append] ].
    rewrite (all_impl _ _ _ space_noclose H0),
      (all_impl _ _ _ space_noclose H1), (all_impl _ _ _ space_noclose H2),
      (all_impl _ _ _ space_noclose H3), (all_impl _ _ _ space_noclose H4),
      (all_impl _ _ _ space_noclose H5), (all_impl _ _ _ space_noclose H6),
      (quote_noclose _ Q1), (quote_noclose _ Q2), (quote_noclose _ Q3),
      (quote_noclose _ Q4), Na, Nb.
    reflexivity.
Qed.

Lemma call_prefix_eq (c c' : chunk) (rest : string) :
  (exists v0 v6 l a b, c = Call v0 v6 l a b /\ call_facts v0 v6 l a b) ->
  (exists v0 v6 l a b, c' = Call v0 v6 l a b /\ call_facts v0 v6 l a b) ->
  startswith (chunk_text c' ++ rest) (chunk_text c) = true ->
  chunk_text c' = chunk_text c.
Proof.
  intros (v0 & v6 & l & a & b & -> & Hc)
         (v0' & v6' & l' & a' & b' & -> & Hc') H.
  destruct (call_closed _ _ _ _ _ Hc) as (body & E & Hb).
  destruct (call_closed _ _ _ _ _ Hc') as (body' & E' & Hb').
  rewrite E, E' in *. apply startswith_true in H. destruct H as [y H].
  rewrite !PyFacts.app_assoc in H. cbn [append] in H.
  apply split_first with (p := noclose) in H; auto.
  destruct H as (-> & _). reflexivity.
Qed.

Lemma quiet_copy (c0 : chunk) (new t rest : string) :
  (exists v0 v6 l a b, c0 = Call v0 v6 l a b /\ call_facts v0 v6 l a b) ->
  quiet t = true ->
  replace_go (chunk_text c0) new (t ++ rest) 0
  = t ++ replace_go (chunk_text c0) new rest 0.
Proof.
  intros (v0 & v6 & l & a & b & -> & Hc) Hq.
  apply replace_go_copy. intros u v E Hv.
  destruct (startswith (v ++ rest) (chunk_text (Call v0 v6 l a b)))
    eqn:Hs; [|reflexivity].
  apply (call_opens _ _ _ _ _ EmptyString Hc) in Hs.
  now rewrite (quiet_never_opens t rest u v Hq E Hv) in Hs.
Qed.

Lemma replace_render (c0 : chunk) (new : string) (cs : list chunk) :
  (exists v0 v6 l a b, c0 = Call v0 v6 l a b /\ call_facts v0 v6 l a b) ->
  forallb chunk_ok cs = true ->
  replace_go (chunk_text c0) new (render cs) 0
  = render (map (swap (chunk_text c0) new) cs).
Proof.
  intros Hc0. induction cs as [|ch cs IH]; intros Hok; [reflexivity|].
  cbn [forallb] in Hok. apply andb_true_iff in Hok.
  destruct Hok as [Hch Hcs]. cbn [render map].
  destruct ch as [t|v0 v6 l a b].
  - cbn [swap chunk_text]. cbn [chunk_ok] in Hch.
    rewrite (quiet_copy c0 new t _ Hc0 Hch). now rewrite IH.
  - apply call_ok_facts in Hch.
    destruct (call_tail_quiet _ _ _ _ _ Hch) as (q & E & Hq & _).
    cbn [swap].
    destruct (String.eqb_spec (chunk_text (Call v0 v6 l a b))
                (chunk_text c0)) as [Heq|Hne].
    + specialize (IH Hcs). rewrite <- Heq in IH |- *.
      rewrite E in IH |- *. rewrite replace_go_hit.
      cbn [render chunk_text]. now rewrite IH.
    + assert (Hs : startswith (chunk_text (Call v0 v6 l a b) ++ render cs)
                     (chunk_text c0) = false).
      { destruct (startswith (chunk_text (Call v0 v6 l a b) ++ render cs)
                    (chunk_text c0)) eqn:Hs; [|reflexivity].
        exfalso. apply Hne.
        apply (call_prefix_eq c0 (Call v0 v6 l a b) (render cs)); auto.
        now exists v0, v6, l, a, b. }
      rewrite E in Hs |- *. cbn [append replace_go].
      cbn [append] in Hs. rewrite Hs. f_equal.
      rewrite (quiet_copy c0 new q _ Hc0 Hq). now rewrite IH.
Qed.

(** *** The steps of the rewriter over the pieces *)

Lemma swap_ok (old a b : string) (cs : list chunk) :
  plain a = true -> plain b = true ->
  forallb chunk_ok cs = true ->
  forallb chunk_ok (map (swap old (ref_text a b)) cs) = true.
Proof.
  intros Ha Hb. induction cs as [|ch cs IH]; [reflexivity|].
  cbn [forallb map]. intros H. apply andb_true_iff in H.
  destruct H as [Hch Hcs]. rewrite (IH Hcs), andb_true_r.
  destruct ch as [t|v0 v6 l a' b']; [exact Hch|].
  cbn [swap]. destruct (String.eqb _ old); [|exact Hch].
  cbn [chunk_ok]. now apply ref_quiet.
Qed.

Lemma apply_call_ok (c : chunk) (cs : list chunk) :
  chunk_ok c = true -> forallb chunk_ok cs = true ->
  forallb chunk_ok (apply_call c cs) = true.
Proof.
  intros Hc Hcs. destruct c as [t|v0 v6 l a b]; [exact Hcs|].
  cbn [apply_call]. apply call_ok_facts in Hc. destruct Hc.
  now apply swap_ok.
Qed.

Lemma step_render (c : chunk) (cs : list chunk) :
  chunk_ok c = true -> forallb chunk_ok cs = true ->
  fold_left rewrite_step (match_of c) (render cs)
  = render (apply_call c cs).
Proof.
  intros Hc Hcs. destruct c as [t|v0 v6 l a b]; [reflexivity|].
  apply call_ok_facts in Hc.
  cbn [match_of fold_left apply_call]. unfold rewrite_step.
  cbn [groups text].
  destruct (call_tail_quiet _ _ _ _ _ Hc) as (q & E & _ & _).
  fold (ref_text a b).
  rewrite <- (replace_render (Call v0 v6 l a b) (ref_text a b) cs); auto.
  now exists v0, v6, l, a, b.
Qed.

Lemma steps_render (pending : list chunk) :
  forallb chunk_ok pending = true ->
  forall cs, forallb chunk_ok cs = true ->
  fold_left rewrite_step (flat_map match_of pending) (render cs)
  = render (fold_left (fun cs c => apply_call c cs) pending cs).
Proof.
  induction pending as [|c pending IH]; intros Hp cs Hcs; [reflexivity|].
  cbn [forallb] in Hp. apply andb_true_iff in Hp. destruct Hp as [Hc Hp].
  cbn [flat_map fold_left]. rewrite fold_left_app.
  rewrite (step_render c cs Hc Hcs).
  apply IH; [exact Hp|]. now apply apply_call_ok.
Qed.

(** *** All the steps *)

Lemma call_args_of_text (v0 v6 : string) (l : layout) (a b : string)
  (v0' v6' : string) (l' : layout) (a' b' : string) :
  call_facts v0 v6 l a b -> call_facts v0' v6' l' a' b' ->
  chunk_text (Call v0 v6 l a b) = chunk_text (Call v0' v6' l' a' b') ->
  a = a' /\ b = b'.
Proof.
  intros Hc Hc' E.
  pose proof (match_wrapped _ _ _ _ _ EmptyString Hc) as H.
  pose proof (match_wrapped _ _ _ _ _ EmptyString Hc') as H'.
  rewrite E, H' in H. injection H as -> ->. auto.
Qed.

Lemma mark_nil (cs : list chunk) : map (mark []) cs = cs.
Proof.
  induction cs as [|ch cs IH]; [reflexivity|].
  cbn [map]. rewrite IH. now destruct ch.
Qed.

Lemma apply_mark (c : chunk) (done cs0 : list chunk) :
  chunk_ok c = true -> forallb chunk_ok cs0 = true ->
  apply_call c (map (mark done) cs0) = map (mark (c :: done)) cs0.
Proof.
  intros Hc Hcs. destruct c as [t|v0 v6 l a b].
  - cbn [apply_call]. apply map_ext. intros [t'|]; reflexivity.
  - cbn [apply_call]. rewrite map_map. apply map_ext_in.
    intros ch Hin. rewrite forallb_forall in Hcs. specialize (Hcs ch Hin).
    destruct ch as [t'|v0' v6' l' a' b']; [reflexivity|].
    cbn [mark existsb].
    destruct (existsb (same_call (Call v0' v6' l' a' b')) done).
    + now rewrite orb_true_r.
    + rewrite orb_false_r. cbn [swap same_call].
      rewrite (String.eqb_sym (chunk_text (Call v0 v6 l a b))).
      destruct (String.eqb_spec (chunk_text (Call v0' v6' l' a' b'))
                  (chunk_text (Call v0 v6 l a b))) as [E|_];
        [|reflexivity].
      apply call_ok_facts in Hc, Hcs.
      destruct (call_args_of_text _ _ _ _ _ _ _ _ _ _ Hcs Hc E)
        as [-> ->].
      reflexivity.
Qed.

Lemma apply_all (pending cs0 : list chunk) :
  forallb chunk_ok pending = true -> forallb chunk_ok cs0 = true ->
  forall done,
    fold_left (fun cs c => apply_call c cs) pending (map (mark done) cs0)
    = map (mark (rev pending ++ done)%list) cs0.
Proof.
  intros Hp Hcs. induction pending as [|c pending IH]; intros done;
    [reflexivity|].
  cbn [forallb] in Hp. apply andb_true_iff in Hp. destruct Hp as [Hc Hp].
  cbn [fold_left rev]. rewrite (apply_mark c done cs0 Hc Hcs).
  rewrite (IH Hp). now rewrite <- List.app_assoc.
Qed.

Lemma mark_all (cs : list chunk) :
  map (mark (rev cs ++ [])%list) cs = map to_ref cs.
Proof.
  apply map_ext_in. intros ch Hin. destruct ch as [t|v0 v6 l a b];
    [reflexivity|].
  cbn [mark].
  assert (E : existsb (same_call (Call v0 v6 l a b)) (rev cs ++ [])%list
              = true); [|now rewrite E].
  apply existsb_exists. exists (Call v0 v6 l a b). split.
  - rewrite List.app_nil_r. now apply in_rev in Hin.
  - cbn [same_call]. apply String.eqb_refl.
Qed.

Lemma to_ref_ok (cs : list chunk) :
  forallb chunk_ok cs = true -> forallb chunk_ok (map to_ref cs) = true.
Proof.
  induction cs as [|ch cs IH]; [reflexivity|].
  cbn [forallb map]. intros H. apply andb_true_iff in H.
  destruct H as [Hch Hcs]. rewrite (IH Hcs), andb_true_r.
  destruct ch as [t|v0 v6 l a b]; [exact Hch|].
  apply call_ok_facts in Hch. destruct Hch. cbn [to_ref chunk_ok].
  now apply ref_quiet.
Qed.

Lemma to_ref_no_match (cs : list chunk) :
  flat_map match_of (map to_ref cs) = [].
Proof.
  induction cs as [|ch cs IH]; [reflexivity|].
  cbn [map flat_map]. rewrite IH. now destruct ch.
Qed.

Lemma calls_become_refs_lemma (cs : list chunk) :
  forallb chunk_ok cs = true ->
  rewritten (render cs) = render (map to_ref cs).
Proof.
  intros Hok. unfold rewritten. rewrite (finditer_render cs Hok).
  rewrite (steps_render cs Hok cs Hok).
  rewrite <- (mark_nil cs) at 2.
  rewrite (apply_all cs cs Hok Hok []). now rewrite mark_all.
Qed.

(** X12: in a text made of well formed calls between double braces,
    with quoted arguments free of quotes and braces, and of text that
    opens no call, the rewriter turns every call into the [ref] of its
    own arguments and leaves the rest of the text as it is. *)
Theorem calls_become_refs (cs : list chunk) :
  forallb chunk_ok cs = true ->
  rewritten (render cs) = render (map to_ref cs).
Proof. apply calls_become_refs_lemma. Qed.

Lemma calls_become_refs_witness :
  forallb chunk_ok Ex3.pieces = true
  /\ rewritten (render Ex3.pieces) = render (map to_ref Ex3.pieces).
Proof.
  split; [reflexivity|]. apply (calls_become_refs Ex3.pieces). reflexivity.
Defined.

(** X13: on such a text a second pass changes nothing: the rewritten
    text holds no match of the pattern. *)
Theorem second_pass_changes_nothing (cs : list chunk) :
  forallb chunk_ok cs = true ->
  finditer pattern (rewritten (render cs)) = []
  /\ rewritten (rewritten (render cs)) = rewritten (render cs).
Proof.
  intros Hok.
  assert (H : finditer pattern (rewritten (render cs)) = []).
  { rewrite (calls_become_refs_lemma cs Hok).
    rewrite (finditer_render _ (to_ref_ok cs Hok)).
    apply to_ref_no_match. }
  split; [exact H|]. now apply rewritten_no_match.
Qed.

Lemma second_pass_changes_nothing_witness :
  forallb chunk_ok Ex3.pieces = true
  /\ finditer pattern (rewritten (render Ex3.pieces)) = []
  /\ rewritten (rewritten (render Ex3.pieces))
     = rewritten (render Ex3.pieces).
Proof.
  split; [reflexivity|].
  apply (second_pass_changes_nothing Ex3.pieces). reflexivity.
Defined.

End ChunkFacts.

(** ** The name check of the scanner *)

Module FilterFacts.
Import Py Re Gen Obs IndexFacts.

Lemma add_matches_unfiltered (s path : string) (ms : list (list string)) :
  (forall m, In m ms -> exists t, m = [s; t]) ->
  forall acc,
    add_matches s path ms acc
    = fold_left (fun acc m => dict_add (nth 1 m EmptyString) path acc) ms acc.
Proof.
  unfold add_matches. induction ms as [|m ms IH]; intros H acc;
    [reflexivity|].
  cbn [fold_left]. destruct (H m (or_introl eq_refl)) as [t ->].
  rewrite String.eqb_refl. cbn [nth].
  apply IH. intros m' Hm'. apply H. now right.
Qed.

(** X14: the comparison of the first group with the source name never
    drops a match: the pattern holds the name as a literal, so every
    match of a file is entered in the index under its second group. *)
Theorem name_check_never_filters (s path content : string) (acc : index) :
  add_matches s path (findall (pattern s) content) acc
  = fold_left (fun acc m => dict_add (nth 1 m EmptyString) path acc)
      (findall (pattern s) content) acc.
Proof.
  apply add_matches_unfiltered. intros m Hm.
  destruct (scanner_groups s content m Hm) as (t & -> & _). now exists t.
Qed.

End FilterFacts.

(** ** Where the generated files lie *)

Module PlaceFacts.
Import Py PyFacts Re Gen Obs Place IndexFacts GenFacts.

(** *** [dirname] and [join] *)

Lemma has_slash_app (a b : string) :
  has_slash (a ++ b) = has_slash a || has_slash b.
Proof.
  induction a as [|c a IH]; [reflexivity|].
  cbn [append has_slash]. now rewrite IH, orb_assoc.
Qed.

Lemma upto_noslash (n : string) :
  has_slash n = false -> upto_last_slash n = EmptyString.
Proof.
  induction n as [|c n IH]; [reflexivity|].
  cbn [has_slash upto_last_slash]. intros H.
  apply orb_false_iff in H. destruct H as [Hc Hn]. now rewrite Hn, Hc.
Qed.

Lemma upto_app (a n : string) :
  has_slash n = false -> upto_last_slash (a ++ n) = upto_last_slash a.
Proof.
  intros Hn. induction a as [|c a IH]; [now apply upto_noslash|].
  cbn [append upto_last_slash].
  now rewrite has_slash_app, Hn, orb_false_r, IH.
Qed.

Lemma upto_slash (x : string) : upto_last_slash (x ++ "/") = x ++ "/".
Proof.
  induction x as [|c x IH]; [reflexivity|].
  cbn [append upto_last_slash]. rewrite has_slash_app, orb_true_r.
  now rewrite IH.
Qed.

Lemma all_slashes_app (a b : string) :
  all_slashes (a ++ b) = all_slashes a && all_slashes b.
Proof.
  induction a as [|c a IH]; [reflexivity|].
  cbn [append all_slashes]. now rewrite IH, andb_assoc.
Qed.

Lemma all_slashes_end (d : string) :
  all_slashes d = true -> d = EmptyString \/ exists x, d = x ++ "/".
Proof.
  induction d as [|c d IH]; [now left|].
  cbn [all_slashes]. intros H. apply andb_true_iff in H.
  destruct H as [Hc Hd]. apply Ascii.eqb_eq in Hc. subst c. right.
  destruct (IH Hd) as [->|[x ->]]; [now exists EmptyString|].
  now exists (String "/" x).
Qed.

Lemma rstrip_slash_open (h x : string) : rstrip_slash h <> x ++ "/".
Proof.
  revert x. induction h as [|c h IH]; intros x.
  - now destruct x.
  - cbn [rstrip_slash]. destruct (rstrip_slash h) as [|c' r] eqn:E.
    + destruct (Ascii.eqb_spec c "/") as [->|Hc].
      * now destruct x.
      * destruct x as [|c2 x]; cbn [append]; [congruence|].
        intros H. injection H as _ H. now destruct x.
    + destruct x as [|c2 x]; cbn [append]; [congruence|].
      intros H. injection H as _ H. exact (IH x H).
Qed.

Lemma rstrip_slash_empty (h : string) :
  rstrip_slash h = EmptyString -> all_slashes h = true.
Proof.
  induction h as [|c h IH]; [reflexivity|].
  cbn [rstrip_slash all_slashes].
  destruct (rstrip_slash h); [|discriminate].
  destruct (Ascii.eqb c "/"); [|discriminate]. intros _. now apply IH.
Qed.

Lemma rstrip_slash_app_slash (h : string) :
  rstrip_slash (h ++ "/") = rstrip_slash h.
Proof.
  induction h as [|c h IH]; [reflexivity|].
  cbn [append rstrip_slash]. now rewrite IH.
Qed.

Lemma rstrip_slash_fixed (d : string) :
  (forall x, d <> x ++ "/") -> rstrip_slash d = d.
Proof.
  induction d as [|c d IH]; intros H; [reflexivity|].
  cbn [rstrip_slash]. destruct d as [|c' d].
  - cbn [rstrip_slash]. destruct (Ascii.eqb_spec c "/") as [->|_];
      [|reflexivity].
    now destruct (H EmptyString).
  - rewrite IH; [reflexivity|].
    intros x E. apply (H (String c x)). cbn [append]. now rewrite E.
Qed.

Lemma noslash_start (n : string) :
  has_slash n = false -> startswith n "/" = false.
Proof.
  destruct n as [|c n]; [reflexivity|]. cbn [has_slash]. intros H.
  apply orb_false_iff in H. destruct H as [Hc _].
  unfold startswith. cbn [strip_prefix].
  rewrite Ascii.eqb_sym, Hc. reflexivity.
Qed.

Lemma dirname_cases (p : string) :
  all_slashes (dirname p) = true \/ forall x, dirname p <> x ++ "/".
Proof.
  unfold dirname. set (h := upto_last_slash p).
  destruct (Nat.eqb (String.length h) 0) eqn:E0; cbn [negb andb].
  - left. now destruct h.
  - destruct (all_slashes h) eqn:Ea; cbn [negb]; [now left|].
    right. intros x. apply rstrip_slash_open.
Qed.

Lemma dirname_join (d name : string) :
  has_slash name = false ->
  all_slashes d = true \/ (forall x, d <> x ++ "/") ->
  dirname (path_join d name) = d.
Proof.
  intros Hn Hd. unfold path_join. rewrite (noslash_start name Hn).
  destruct (Nat.eqb (String.length d) 0) eqn:E0.
  { destruct d; [|discriminate].
    cbn. unfold dirname. now rewrite (upto_noslash name Hn). }
  assert (Hne : d <> EmptyString) by (intros ->; discriminate).
  cbn [orb]. destruct Hd as [Ha|Hopen].
  - destruct (all_slashes_end _ Ha) as [E|[x E]]; [contradiction|].
    assert (E1 : endswith d "/" = true)
      by (apply endswith_true; now exists x).
    rewrite E1. unfold dirname.
    rewrite (upto_app _ _ Hn), E, upto_slash, <- E, Ha.
    now rewrite andb_false_r.
  - assert (E1 : endswith d "/" = false).
    { destruct (endswith d "/") eqn:E; [|reflexivity].
      apply endswith_true in E. destruct E as [x E]. now destruct (Hopen x). }
    assert (E2 : all_slashes d = false).
    { destruct (all_slashes d) eqn:E; [|reflexivity].
      apply all_slashes_end in E. destruct E as [E|[x E]];
        [contradiction|now destruct (Hopen x)]. }
    rewrite E1. unfold dirname.
    rewrite <- PyFacts.app_assoc, (upto_app _ _ Hn).
    rewrite upto_slash, all_slashes_app, E2.
    replace (Nat.eqb (String.length (d ++ "/")) 0) with false
      by (destruct d; reflexivity).
    cbn [negb andb]. rewrite rstrip_slash_app_slash.
    now apply rstrip_slash_fixed.
Qed.

(** A file joined to the directory of a path has that directory. *)
Lemma dirname_beside (p name : string) :
  has_slash name = false ->
  dirname (path_join (dirname p) name) = dirname p.
Proof. intros Hn. apply dirname_join; [exact Hn|apply dirname_cases]. Qed.

Lemma file_name_noslash (s t : string) :
  has_slash s = false -> has_slash t = false ->
  has_slash (file_name s t) = false.
Proof.
  intros Hs Ht. unfold file_name.
  now rewrite !has_slash_app, Hs, Ht.
Qed.

(** *** The writes of a run over any document *)

Section Placed.
Variable dbt : string -> string.
Variables can_make can_open : string -> bool.
Variables out s : string.

Lemma bind_all {A B} (P : event -> Prop) (m : M A) (f : A -> M B) :
  Forall P (fst m) -> (forall a, Forall P (fst (f a))) ->
  Forall P (fst (bind m f)).
Proof.
  intros Hm Hf. unfold bind. destruct m as [tr [a|e]]; [|exact Hm].
  specialize (Hf a). destruct (f a) as [tr' r]. cbn [fst] in *.
  apply Forall_app. now split.
Qed.

Lemma for_each_all {A} (P : event -> Prop) (body : A -> M unit)
  (l : list A) :
  (forall a, Forall P (fst (body a))) -> Forall P (fst (for_each l body)).
Proof.
  intros H. induction l as [|a l IH]; [constructor|].
  cbn [for_each]. apply bind_all; auto.
Qed.

Lemma subscript_silent (v : yaml) (key : string) :
  Forall (placed out s) (fst (subscript v key)).
Proof.
  destruct v as [| | |kv]; try constructor.
  cbn [subscript]. destruct (assoc key kv); constructor.
Qed.

Lemma iter_silent (v : yaml) : Forall (placed out s) (fst (iter v)).
Proof. destruct v; constructor. Qed.

Lemma format_silent (v : yaml) : Forall (placed out s) (fst (format v)).
Proof. destruct v; constructor. Qed.

Lemma build_placed (t : string) :
  Forall (placed out s) (fst (build_sql_query dbt s t)).
Proof.
  unfold build_sql_query. apply bind_all; [repeat constructor|].
  intros _. destruct (negb _); [constructor|].
  apply bind_all; [repeat constructor|]. intros _. constructor.
Qed.

Lemma yml_table_placed (table : yaml) :
  Forall (placed out s) (fst (yml_table dbt can_open out s table)).
Proof.
  unfold yml_table. apply bind_all; [apply subscript_silent|]. intros v.
  apply bind_all; [apply format_silent|]. intros t.
  apply bind_all; [apply build_placed|]. intros q.
  destruct (truthy q); [|constructor]. destruct q as [q|]; [|constructor].
  apply bind_all; [|intros _; repeat constructor].
  unfold write_file. destruct (can_open _); [|constructor].
  constructor; [|constructor]. now exists t.
Qed.

Lemma yml_source_placed (source : yaml) :
  Forall (placed out s) (fst (yml_source dbt can_open out s source)).
Proof.
  unfold yml_source. apply bind_all; [apply subscript_silent|]. intros v.
  destruct (eq_str v s); [|constructor].
  apply bind_all; [apply subscript_silent|]. intros tables.
  apply bind_all; [apply iter_silent|]. intros l.
  apply for_each_all. apply yml_table_placed.
Qed.

End Placed.

Lemma yml_run_placed (dbt : string -> string)
  (can_make can_open : string -> bool) (yaml_path s : string) (y : yaml) :
  Forall (placed (dirname yaml_path) s)
    (trace (generate_source_models_from_yml dbt can_make can_open
              yaml_path y s)).
Proof.
  unfold trace, generate_source_models_from_yml.
  apply bind_all.
  { unfold makedirs. destruct (_ && _); repeat constructor. }
  intros _.
  apply bind_all; [apply subscript_silent|]. intros v.
  apply bind_all; [apply iter_silent|]. intros l.
  apply for_each_all. apply yml_source_placed.
Qed.

Lemma written_placed (out s : string) (tr : list event) (path q : string) :
  Forall (placed out s) tr -> In (path, q) (written tr) ->
  exists t, path = path_join out (file_name s t).
Proof.
  intros H Hin. unfold written in Hin. apply in_flat_map in Hin.
  destruct Hin as (e & He & Hin). rewrite Forall_forall in H.
  specialize (H e He). destruct e; try contradiction.
  destruct Hin as [E|[]]. injection E as -> ->. exact H.
Qed.

(** X15: whatever the document holds, every file a definition-document
    run writes is a model file of the requested source joined to the
    directory of the document; when neither the source name nor the
    table name holds a slash, the file lies in the very directory of the
    document. *)
Theorem yml_files_lie_beside_the_document (dbt : string -> string)
  (can_make can_open : string -> bool)
  (yaml_path s : string) (y : yaml) (path q : string) :
  has_slash s = false ->
  In (path, q)
     (written (trace (generate_source_models_from_yml dbt can_make can_open
                        yaml_path y s))) ->
  exists t,
    path = path_join (dirname yaml_path) (file_name s t)
    /\ (has_slash t = false -> dirname path = dirname yaml_path).
Proof.
  intros Hs Hin.
  destruct (written_placed _ _ _ _ _
              (yml_run_placed dbt can_make can_open yaml_path s y) Hin)
    as [t ->].
  exists t. split; [reflexivity|]. intros Ht.
  apply dirname_beside. now apply file_name_noslash.
Qed.

Lemma yml_files_lie_beside_the_document_witness :
  exists t,
    "models/sources/sup/source_sup__orders.sql"
    = path_join (dirname "models/sources/sup/sup.yml") (file_name "sup" t)
    /\ (has_slash t = false ->
        dirname "models/sources/sup/source_sup__orders.sql"
        = dirname "models/sources/sup/sup.yml").
Proof.
  apply (yml_files_lie_beside_the_document Ex.dbt Ex.willing Ex.willing
           "models/sources/sup/sup.yml" "sup" Ex.doc
           "models/sources/sup/source_sup__orders.sql"
           "with source as (select * from raw) select * from source");
    [reflexivity|].
  vm_compute. left. reflexivity.
Defined.

(** X16: for a document named without a directory part the run stops
    at [os.makedirs]: the directory of the path is the empty path, which
    no system makes, so that the run raises the error of the operating
    system, runs no command and writes no file, whatever the document
    holds; and [main] lets the error pass, without a closing line. *)
Theorem bare_document_name (dbt : string -> string)
  (can_make can_open : string -> bool)
  (tree_at : string -> Fs.dir) (load : string -> yaml)
  (script yaml_path s : string) (y : yaml) :
  has_slash yaml_path = false ->
  generate_source_models_from_yml dbt can_make can_open yaml_path y s
  = ([], inr (OSError EmptyString))
  /\ GenMain.main dbt can_make can_open tree_at load
       [script; "yaml"; s; yaml_path]
     = ([], GenMain.Uncaught (OSError EmptyString)).
Proof.
  intros Hp.
  assert (Hd : dirname yaml_path = EmptyString)
    by (unfold dirname; now rewrite (upto_noslash _ Hp)).
  assert (E : forall y,
             generate_source_models_from_yml dbt can_make can_open
               yaml_path y s
             = ([], inr (OSError EmptyString))).
  { intros y'. unfold generate_source_models_from_yml. cbv zeta.
    now rewrite Hd. }
  split; [apply E|].
  unfold GenMain.main. cbn [List.length Nat.ltb Nat.leb GenMain.arg nth].
  cbn [String.eqb Ascii.eqb Bool.eqb orb negb Nat.eqb].
  now rewrite E.
Qed.

Lemma bare_document_name_witness :
  generate_source_models_from_yml Ex.dbt Ex.willing Ex.willing
    "sup.yml" Ex.doc "sup"
  = ([], inr (OSError EmptyString))
  /\ GenMain.main Ex.dbt Ex.willing Ex.willing
       (fun _ => Ex.tree) (fun _ => Ex.doc) ["gen.py"; "yaml"; "sup"; "sup.yml"]
     = ([], GenMain.Uncaught (OSError EmptyString)).
Proof.
  apply (bare_document_name Ex.dbt Ex.willing Ex.willing
           (fun _ => Ex.tree) (fun _ => Ex.doc) "gen.py" "sup.yml" "sup"
           Ex.doc).
  reflexivity.
Defined.

End PlaceFacts.

(** ** The scanner on texts in pieces, and the two scripts together *)

Module PieceFacts.
Import Py PyFacts Re ReFacts Gen Obs Chunks Pieces ScanFacts ChunkFacts.

(** *** Where the word can begin *)

Lemma no_start_chars (x rest : string) :
  all not_s x = true -> no_start x rest.
Proof.
  intros Hx u v -> Hv. rewrite all_app in Hx.
  apply andb_true_iff in Hx. destruct Hx as [_ Hx].
  destruct v as [|c v]; [contradiction|]. cbn [all] in Hx.
  apply andb_true_iff in Hx. destruct Hx as [Hc _].
  unfold not_s in Hc. apply negb_true_iff in Hc.
  unfold startswith. cbn [append strip_prefix].
  now rewrite Ascii.eqb_sym, Hc.
Qed.

Lemma starts_split (p v rest : string) :
  startswith (v ++ rest) p = true ->
  startswith v p = true
  \/ exists c r, rest = String c r /\ has_char c p = true.
Proof.
  unfold startswith. revert v. induction p as [|e p IH]; intros v H.
  - now left.
  - destruct v as [|d v].
    + right. destruct rest as [|c r]; [discriminate|].
      cbn [append strip_prefix] in H.
      destruct (Ascii.eqb_spec e c) as [->|_]; [|discriminate].
      exists c, r. split; [reflexivity|].
      unfold has_char. cbn [all]. now rewrite Ascii.eqb_refl.
    + cbn [append strip_prefix] in *.
      destruct (Ascii.eqb e d); [|discriminate].
      destruct (IH v H) as [Hv|(c & r & -> & Hc)]; [now left|].
      right. exists c, r. split; [reflexivity|].
      unfold has_char in *. cbn [all].
      apply negb_true_iff in Hc. rewrite Hc.
      now rewrite andb_false_r.
Qed.

Lemma startswith_cons (d e : ascii) (v p : string) :
  startswith (String d v) (String e p) = Ascii.eqb e d && startswith v p.
Proof.
  unfold startswith. cbn [strip_prefix]. now destruct (Ascii.eqb e d).
Qed.

Lemma no_start_wordless (x rest : string) :
  wordless x = true -> stopped rest = true -> no_start x rest.
Proof.
  intros Hx Hr u v E Hv. unfold wordless in Hx. apply Nat.eqb_eq in Hx.
  pose proof (RwFacts.occurrences_zero _ _ Hx u v E) as H0.
  destruct (startswith (v ++ rest) "source") eqn:Es; [|reflexivity].
  destruct v as [|d v]; [contradiction|].
  change (String d v ++ rest) with (String d (v ++ rest)) in Es.
  change "source" with (String "s" "ource") in Es, H0.
  rewrite startswith_cons in Es, H0.
  apply andb_true_iff in Es. destruct Es as [Ed Es].
  rewrite Ed in H0. cbn [andb] in H0.
  destruct (starts_split "ource" v rest Es) as [H|(c & r & -> & Hc)];
    [congruence|].
  cbn [stopped] in Hr. now rewrite Hc in Hr.
Qed.

(** *** The scan, piece by piece *)

Lemma scan_over (s pre rest : string) :
  no_start pre rest ->
  scan (pattern s) (pre ++ rest) 0 = scan (pattern s) rest 0.
Proof.
  intros H. apply scan_prefix. intros u v E Hv.
  apply pattern_needs_source. now apply (H u v).
Qed.

Lemma space_not_s (c : ascii) : isspace c = true -> not_s c = true.
Proof.
  intros H. unfold not_s. destruct (Ascii.eqb_spec c "s") as [->|_];
    [discriminate|reflexivity].
Qed.

Lemma quote_not_s (q : ascii) : quote q = true -> not_s q = true.
Proof. intros H. now destruct (quote_cases q H) as [->| ->]. Qed.

Lemma quote_stops (q : ascii) (r : string) :
  quote q = true -> stopped (String q r) = true.
Proof. intros H. now destruct (quote_cases q H) as [->| ->]. Qed.

Lemma spaces_not_s (w : string) : all isspace w = true -> all not_s w = true.
Proof. apply all_impl. exact space_not_s. Qed.

Lemma call_then_parts (l : layout) (a b post : string) :
  call_then l a b post
  = "s" ++ ("ource" ++ w1 l ++ "(" ++ w2 l ++ String (q1 l) EmptyString)
    ++ a ++ String (q2 l) (w3 l ++ "," ++ w4 l ++ String (q3 l) EmptyString)
    ++ b ++ String (q4 l) (w5 l ++ ")") ++ post.
Proof.
  unfold call_then. cbn [append].
  repeat (rewrite PyFacts.app_assoc; cbn [append]).
  reflexivity.
Qed.

Lemma scan_call (l : layout) (s b post : string) :
  well_laid l = true -> b <> EmptyString -> all notquote b = true ->
  scan (pattern s) (call_then l s b post) 0
  = {| text := call_text l s b; groups := [s; b] |}
    :: scan (pattern s) post 0.
Proof.
  intros Hl Hb Hq. pose proof (match_call l s b post Hl Hb Hq) as H.
  rewrite call_then_app in *.
  destruct (call_text l s b) as [|c w] eqn:E; [discriminate|].
  now apply scan_hit.
Qed.

Lemma scan_other_call (l : layout) (s a b post : string) :
  well_laid l = true -> all notquote s = true -> all notquote a = true ->
  has_char "," a = false -> a <> s ->
  wordless a = true -> wordless b = true ->
  all not_s post = true ->
  forall rest,
    scan (pattern s) (call_then l a b (post ++ rest)) 0
    = scan (pattern s) rest 0.
Proof.
  intros Hl Hs Ha Hc Hne Hwa Hwb Hp rest.
  pose proof (call_of_other_source l s a b (post ++ rest) Hl Hs Ha Hc Hne)
    as Hk.
  destruct (well_laid_parts l Hl)
    as (H1 & H2 & H3 & H4 & H5 & Q1 & Q2 & Q3 & Q4).
  rewrite call_then_parts in *.
  rewrite (scan_prefix (pattern s) "s").
  2:{ intros u v E Hv. destruct u as [|c u].
      - cbn [append] in E. subst v. exact Hk.
      - cbn [append] in E. injection E as _ E.
        destruct u; [|discriminate]. cbn [append] in E. now subst v. }
  rewrite scan_over.
  2:{ apply no_start_chars. rewrite !all_app.
      rewrite (spaces_not_s _ H1), (spaces_not_s _ H2).
      cbn [all]. now rewrite (quote_not_s _ Q1). }
  rewrite scan_over.
  2:{ apply no_start_wordless; [exact Hwa|]. now apply quote_stops. }
  rewrite scan_over.
  2:{ apply no_start_chars. cbn [all]. rewrite !all_app.
      rewrite (quote_not_s _ Q2), (spaces_not_s _ H3), (spaces_not_s _ H4).
      cbn [all]. now rewrite (quote_not_s _ Q3). }
  rewrite scan_over.
  2:{ apply no_start_wordless; [exact Hwb|]. now apply quote_stops. }
  rewrite <- (PyFacts.app_assoc (String (q4 l) (w5 l ++ ")")) post rest).
  rewrite scan_over; [reflexivity|].
  apply no_start_chars. rewrite all_app. cbn [all]. rewrite all_app.
  rewrite (quote_not_s _ Q4), (spaces_not_s _ H5), Hp. reflexivity.
Qed.

Lemma render_stopped (cs : list chunk) :
  match cs with Text _ :: _ => false | _ => true end = true ->
  stopped (render cs) = true.
Proof.
  destruct cs as [|[t|v0 v6 l a b] cs]; [reflexivity|discriminate|].
  intros _. reflexivity.
Qed.

Lemma tail_not_s (v6 : string) :
  all isspace v6 = true -> all not_s (v6 ++ "}}") = true.
Proof. intros H. rewrite all_app, (spaces_not_s _ H). reflexivity. Qed.

Lemma findall_render (s : string) (cs : list chunk) :
  all notquote s = true ->
  forallb chunk_ok cs = true -> forallb (piece_ok s) cs = true ->
  spaced cs = true ->
  findall (pattern s) (render cs) = flat_map (found s) cs.
Proof.
  intros Hs. unfold findall, finditer.
  induction cs as [|ch cs IH]; intros Hok Hp Hsp.
  - cbn [render flat_map]. rewrite scan_nil; [reflexivity|].
    intros u v E. apply pattern_needs_source.
    destruct u; [|discriminate]. cbn [append] in E. now subst v.
  - cbn [forallb] in Hok, Hp. cbn [spaced] in Hsp.
    apply andb_true_iff in Hok, Hp, Hsp.
    destruct Hok as [Hch Hok], Hp as [Hpc Hp], Hsp as [Hnext Hsp].
    specialize (IH Hok Hp Hsp). cbn [render flat_map].
    destruct ch as [t|v0 v6 l a b].
    + cbn [chunk_text found app]. rewrite scan_over; [exact IH|].
      apply no_start_wordless; [exact Hpc|]. apply render_stopped.
      now destruct cs as [|[|] ?].
    + apply call_ok_facts in Hch. destruct Hch as [Hv0 Hv6 Hl Ha Hb].
      destruct (plain_parts a Ha) as (_ & Hqa & _ & _).
      destruct (plain_parts b Hb) as (Hnb & Hqb & _ & _).
      rewrite chunk_text_app.
      rewrite <- (PyFacts.app_assoc "{{" v0).
      rewrite scan_over
        by (apply no_start_chars; cbn [append all];
            now rewrite (spaces_not_s _ Hv0)).
      rewrite <- (PyFacts.app_assoc v6 "}}").
      cbn [found piece_ok] in *.
      destruct (String.eqb_spec a s) as [->|Hne].
      * rewrite (scan_call l s b _ Hl Hnb Hqb). cbn [map groups app].
        rewrite scan_over by (apply no_start_chars; now apply tail_not_s).
        now rewrite IH.
      * cbn [orb] in Hpc. apply andb_true_iff in Hpc.
        destruct Hpc as [Hpc Hwb]. apply andb_true_iff in Hpc.
        destruct Hpc as [Hc Hwa]. apply negb_true_iff in Hc.
        rewrite (scan_other_call l s a b (v6 ++ "}}") Hl Hs Hqa Hc Hne
                   Hwa Hwb (tail_not_s _ Hv6)).
        exact IH.
Qed.

(** X17: in a text made of well formed quoted calls between double
    braces and of text between them, where the word [source] occurs only
    as the name of the calls (or inside a call of the scanned source),
    the scanner's pattern finds exactly the calls of the scanned source,
    in order, each with its own table; calls of other sources are passed
    over. *)
Theorem scanner_finds_the_wrapped_calls (s : string) (cs : list chunk) :
  all notquote s = true ->
  forallb chunk_ok cs = true -> forallb (piece_ok s) cs = true ->
  spaced cs = true ->
  findall (Gen.pattern s) (render cs) = flat_map (found s) cs.
Proof. apply findall_render. Qed.

Lemma scanner_finds_the_wrapped_calls_witness :
  findall (Gen.pattern "sup") (render Ex4.pieces) = [["sup"; "orders"]].
Proof.
  apply (scanner_finds_the_wrapped_calls "sup" Ex4.pieces); reflexivity.
Defined.

(** *** The generator and the rewriter on one project *)

Lemma lookup_in_keys (d : index) (t path : string) :
  In path (lookup t d) -> In t (keys d).
Proof.
  induction d as [|[k v] d IH]; [contradiction|]. cbn [lookup keys map fst].
  destruct (String.eqb_spec k t) as [->|_]; [now left|].
  intros H. right. now apply IH.
Qed.

Lemma file_name_model (s t : string) :
  file_name s t = ("source_" ++ s ++ "__" ++ t) ++ ".sql"
  /\ ref_text s t = "{{ ref('" ++ ("source_" ++ s ++ "__" ++ t) ++ "') }}".
Proof.
  unfold file_name, ref_text. cbn [append].
  now rewrite !PyFacts.app_assoc.
Qed.

Lemma written_event (tr : list event) (p c : string) :
  In (p, c) (written tr) -> In (WriteFile p c) tr.
Proof.
  unfold written. intros H. apply in_flat_map in H.
  destruct H as (e & He & H). destruct e; try contradiction.
  destruct H as [E|[]]. now injection E as <- <-.
Qed.

Lemma command_event (tr : list event) (c : string) :
  In c (commands tr) -> In (RunCmd c) tr.
Proof.
  unfold commands. intros H. apply in_flat_map in H.
  destruct H as (e & He & H). destruct e; try contradiction.
  now destruct H as [<-|[]].
Qed.

(** X18: the two scripts agree on a file that the scanner visits (a file
    not below a [sources] directory): a call of source [s] that the
    rewriter turns into a [ref] has its model generated by a
    used-sources run for [s] over the same project, provided the
    operating system makes the output directory and opens the files of
    the tables.  The run issues the command for the table of the call
    and, when the output of the command holds the marker, writes the
    text behind the marker to the file whose name without [.sql] is the
    model the [ref] names. *)
Theorem refs_name_generated_models (dbt : string -> string)
  (can_make can_open : string -> bool)
  (tree : Fs.dir) (directory s out : string) (v : Fs.visit) (name : string)
  (cs : list chunk) (v0 v6 : string) (l : layout) (b : string) :
  all notquote s = true ->
  forallb chunk_ok cs = true -> forallb (piece_ok s) cs = true ->
  spaced cs = true ->
  In v (Fs.walk (Some "sources") [] directory tree) ->
  In (name, render cs) (Fs.files v) -> endswith name ".sql" = true ->
  In (Call v0 v6 l s b) cs ->
  out <> EmptyString -> can_make out = true ->
  opens_all can_open out s
    (keys (get_sources_used_with_source_func tree directory s)) ->
  let tr := trace (generate_sql_files_from_used_sources
                     dbt can_make can_open tree directory s out) in
  let model := "source_" ++ s ++ "__" ++ b in
  Rw.rewritten (render cs) = render (map to_ref cs)
  /\ In (Text ("{{ ref('" ++ model ++ "') }}")) (map to_ref cs)
  /\ In (RunCmd (command_of s b)) tr
  /\ forall q, prints_model (dbt (command_of s b)) q ->
               In (WriteFile (path_join out (model ++ ".sql")) q) tr.
Proof.
  intros Hs Hok Hp Hsp Hv Hf He Hin Hout Hm Ho tr model.
  destruct (file_name_model s b) as [En Er]. fold model in En, Er.
  assert (Hk : In b (keys (get_sources_used_with_source_func
                             tree directory s))).
  { apply (lookup_in_keys _ _ (path_join (Fs.root v) name)).
    apply (index_of_hit s b _ v name (render cs) Hv Hf He).
    rewrite (findall_render s cs Hs Hok Hp Hsp).
    apply in_flat_map. exists (Call v0 v6 l s b). split; [exact Hin|].
    cbn [found]. rewrite String.eqb_refl. now left. }
  assert (Ht : forall e,
             In e (run_steps dbt out s
                     (keys (get_sources_used_with_source_func
                              tree directory s))) ->
             In e tr).
  { intros e Hev. unfold tr, trace.
    rewrite (GenFacts.used_run dbt can_make can_open _ _ _ _ Hout Hm Ho).
    cbn [fst]. right. apply in_or_app. now left. }
  split; [now apply calls_become_refs_lemma|]. split.
  - rewrite <- Er. apply in_map_iff. now exists (Call v0 v6 l s b).
  - split.
    + apply Ht. apply command_event.
      rewrite GenFacts.commands_run_steps. now apply in_map.
    + intros q Hq. apply Ht. apply written_event. rewrite <- En.
      apply GenFacts.written_in_run_steps. now exists b.
Qed.

Lemma refs_name_generated_models_witness :
  let tr := trace (generate_sql_files_from_used_sources
                     Ex.dbt Ex.willing Ex.willing
                     Ex4.project "models" "sup" "models/sources/sup") in
  Rw.rewritten (render Ex4.pieces) = render (map to_ref Ex4.pieces)
  /\ In (Text "{{ ref('source_sup__orders') }}") (map to_ref Ex4.pieces)
  /\ In (RunCmd (command_of "sup" "orders")) tr
  /\ forall q, prints_model (Ex.dbt (command_of "sup" "orders")) q ->
               In (WriteFile "models/sources/sup/source_sup__orders.sql" q)
                  tr.
Proof.
  apply (refs_name_generated_models Ex.dbt Ex.willing Ex.willing
           Ex4.project "models" "sup" "models/sources/sup"
           {| Fs.comps := ["marts"]; Fs.root := "models/marts";
              Fs.files := [("orders.sql", render Ex4.pieces)] |}
           "orders.sql" Ex4.pieces " " " " Ex3.tight "orders");
    try (vm_compute; reflexivity).
  - vm_compute. right. left. reflexivity.
  - left. reflexivity.
  - right. left. reflexivity.
  - discriminate.
Defined.

End PieceFacts.

(** ** The scanner on calls and the text between them *)

Module PartFacts.
Import Py PyFacts Re ReFacts Gen Obs Chunks Parts ScanFacts ChunkFacts
  PieceFacts.

(** *** Text in which no call begins *)










(** *** The scan, part by part *)







(** *** Calls outside braces *)






End PartFacts.
